(** * ipsc2hbrp: DMRD codec, HBRP handshake packets, configuration
    validation and the IPSC/DMRD translator.

    A shallow embedding of
    - [internal/hbrp/proto]: [Packet], [Equal], [Decode], [String],
      [Encode];
    - [internal/hbrp]: [sendLogin], [sendRPTCL], [sendRPTC], [sendRPTK],
      [sendPing], [sendPacket];
    - [internal/config]: [Config.Validate] in both revisions of the file;
    - [internal/ipsc]: the translator, which is present by its tests
      only and is modelled from the specification.

    Conventions.  A Go [[]byte] and a Go [string] are a [list byte].  A Go
    unsigned integer is a [Z]; the narrowing conversion [byte(x)] is
    [byte.of_Z x], that is [x mod 2^8], and no other operation of the code
    below can leave the unsigned range.  A struct is a record, [error] an
    [option] of an enumeration, and a send on the channel [connTX] appends
    to the list of the packets sent so far. *)

From Stdlib Require Import ZArith List Lia Bool String.
From Stdlib Require Import Floats.SpecFloat.
From coqutil Require Import Byte Z.bitblast.
From stdpp Require Import gmap.
Import ListNotations.
Local Open Scope Z_scope.

(** * Part I: the program *)

(** ** Strings and bytes *)

(** A string literal as its bytes. *)
Definition str (s : string) : list byte := list_byte_of_string s.
Arguments str s%_string.

Abbreviation u8 := byte.unsigned.

#[global] Instance byte_eq_dec : EqDecision byte := Byte.byte_eq_dec.

#[global] Instance byte_countable : Countable byte :=
  inj_countable' Byte.to_N (fun n => default Byte.x00 (Byte.of_N n))
    (fun b => f_equal (default Byte.x00) (Byte.of_to_N b)).

(** [s == t] on strings *)
Definition streq (s t : list byte) : bool := bool_decide (s = t).

(** [a | b] on two bytes *)
Definition bor (a b : byte) : byte := byte.of_Z (Z.lor (u8 a) (u8 b)).

(** ** Byte slices *)

Module Slice.

(** [make([]byte, n)] *)
Definition make (n : nat) : list byte := repeat Byte.x00 n.

(** [data[i]], read after the length of [data] has been checked: the
    default is never returned to the callers below. *)
Definition get (data : list byte) (i : nat) : byte := nth i data Byte.x00.

(** [data[lo:hi]] *)
Definition sub (data : list byte) (lo hi : nat) : list byte :=
  take (hi - lo) (drop lo data).

(** [copy(dst, src)]: the first [min (len dst) (len src)] bytes of [src]
    overwrite the head of [dst]; the value is [dst] afterwards. *)
Definition copy (dst src : list byte) : list byte :=
  take (length dst) src ++ drop (length src) dst.

(** The number of bytes [copy(dst, src)] returns. *)
Definition copied (dst src : list byte) : nat :=
  Nat.min (length dst) (length src).

(** [copy(data[lo:hi], src)]: the copy writes through the sub-slice. *)
Definition copy_into (data : list byte) (lo hi : nat) (src : list byte)
  : list byte :=
  take lo data ++ copy (sub data lo hi) src ++ drop hi data.

(** [copy(data[lo:], src)] *)
Definition copy_from (data : list byte) (lo : nat) (src : list byte)
  : list byte :=
  copy_into data lo (length data) src.

(** [data[i] = b].  Every index written below is a constant smaller than
    the length the slice was made with: Go's bounds check never fires and
    stdpp's insert is never out of range. *)
Definition set (data : list byte) (i : nat) (b : byte) : list byte :=
  <[i := b]> data.

End Slice.

(** ** internal/hbrp/proto: the DMRD frame *)

Module proto.

Import Slice.

(** [type Packet struct]; [DMRData] is a [[33]byte]. *)
Record Packet : Type := mkPacket {
  Signature   : list byte;
  Seq         : Z;
  Src         : Z;
  Dst         : Z;
  Repeater    : Z;
  Slot        : bool;
  GroupCall   : bool;
  FrameType   : Z;
  DTypeOrVSeq : Z;
  StreamID    : Z;
  DMRData     : list byte
}.

(** The array type of [DMRData]. *)
Definition array33 (p : Packet) : Prop := length (DMRData p) = 33%nat.

(** [var packet Packet]: the zero value. *)
Definition zero : Packet :=
  {| Signature := []; Seq := 0; Src := 0; Dst := 0; Repeater := 0;
     Slot := false; GroupCall := false; FrameType := 0; DTypeOrVSeq := 0;
     StreamID := 0; DMRData := make 33 |}.

(** [uint(data[i])] *)
Definition at_ (data : list byte) (i : nat) : Z := u8 (get data i).

(** [func Decode(data []byte) (Packet, bool)] *)
Definition Decode (data : list byte) : Packet * bool :=
  if (length data <? 53)%nat then (zero, false)
  else if (55 <? length data)%nat then (zero, false)
  else
    let bits := u8 (get data 15) in
    ({| Signature := sub data 0 4;
        Seq := at_ data 4;
        Src := Z.lor (Z.lor (Z.shiftl (at_ data 5) 16)
                            (Z.shiftl (at_ data 6) 8))
                     (at_ data 7);
        Dst := Z.lor (Z.lor (Z.shiftl (at_ data 8) 16)
                            (Z.shiftl (at_ data 9) 8))
                     (at_ data 10);
        Repeater := Z.lor (Z.lor (Z.lor (Z.shiftl (at_ data 11) 24)
                                        (Z.shiftl (at_ data 12) 16))
                                 (Z.shiftl (at_ data 13) 8))
                          (at_ data 14);
        Slot := if negb (Z.land bits 0x1 =? 0) then true else false;
        GroupCall := if negb (Z.land bits 0x2 =? 0) then false else true;
        FrameType := Z.shiftr (Z.land bits 0xC) 2;
        DTypeOrVSeq := Z.shiftr (Z.land bits 0xF0) 4;
        StreamID := Z.lor (Z.lor (Z.lor (Z.shiftl (at_ data 16) 24)
                                        (Z.shiftl (at_ data 17) 16))
                                 (Z.shiftl (at_ data 18) 8))
                          (at_ data 19);
        DMRData := copy (make 33) (sub data 20 53) |}, true).

(** The variable [bits] of [Encode], as it is stored in [data[15]]. *)
Definition flags (p : Packet) : byte :=
  let bits := Byte.x00 in
  let bits := if Slot p then bor bits (byte.of_Z 0x1) else bits in
  let bits := if negb (GroupCall p) then bor bits (byte.of_Z 0x2) else bits in
  let bits := bor bits (byte.of_Z (Z.shiftl (Z.land (FrameType p) 0x3) 2)) in
  let bits := bor bits (byte.of_Z (Z.shiftl (Z.land (DTypeOrVSeq p) 0xF) 4)) in
  bits.

(** [func (p *Packet) Encode() []byte] *)
Definition Encode (p : Packet) : list byte :=
  let data := make 53 in
  let data := copy_into data 0 4 (Signature p) in
  let data := set data 4 (byte.of_Z (Seq p)) in
  let data := set data 5 (byte.of_Z (Z.shiftr (Src p) 16)) in
  let data := set data 6 (byte.of_Z (Z.shiftr (Src p) 8)) in
  let data := set data 7 (byte.of_Z (Src p)) in
  let data := set data 8 (byte.of_Z (Z.shiftr (Dst p) 16)) in
  let data := set data 9 (byte.of_Z (Z.shiftr (Dst p) 8)) in
  let data := set data 10 (byte.of_Z (Dst p)) in
  let data := set data 11 (byte.of_Z (Z.shiftr (Repeater p) 24)) in
  let data := set data 12 (byte.of_Z (Z.shiftr (Repeater p) 16)) in
  let data := set data 13 (byte.of_Z (Z.shiftr (Repeater p) 8)) in
  let data := set data 14 (byte.of_Z (Repeater p)) in
  let data := set data 15 (flags p) in
  let data := set data 16 (byte.of_Z (Z.shiftr (StreamID p) 24)) in
  let data := set data 17 (byte.of_Z (Z.shiftr (StreamID p) 16)) in
  let data := set data 18 (byte.of_Z (Z.shiftr (StreamID p) 8)) in
  let data := set data 19 (byte.of_Z (StreamID p)) in
  let data := copy_into data 20 53 (DMRData p) in
  data.

(** [func (p Packet) Equal(other Packet) bool] *)
Definition Equal (p other : Packet) : bool :=
  if negb (streq (Signature p) (Signature other)) then false
  else if negb (Seq p =? Seq other) then false
  else if negb (Src p =? Src other) then false
  else if negb (Dst p =? Dst other) then false
  else if negb (Repeater p =? Repeater other) then false
  else if negb (eqb (Slot p) (Slot other)) then false
  else if negb (eqb (GroupCall p) (GroupCall other)) then false
  else if negb (FrameType p =? FrameType other) then false
  else if negb (DTypeOrVSeq p =? DTypeOrVSeq other) then false
  else if negb (StreamID p =? StreamID other) then false
  else if negb (streq (DMRData p) (DMRData other)) then false
  else true.

End proto.

(** ** unicode/utf8 and fmt (Go standard library), as far as the
    handshake packets use them *)

Module utf8.

(** For a lead byte [c], the size of the encoding it announces and the
    range its second byte must lie in (the tables [first] and
    [acceptRanges]); [None] for a byte that starts no multi-byte
    encoding. *)
Definition first (c : Z) : option (nat * (Z * Z)) :=
  if c <? 0xC2 then None
  else if c <? 0xE0 then Some (2%nat, (0x80, 0xBF))
  else if c =? 0xE0 then Some (3%nat, (0xA0, 0xBF))
  else if c =? 0xED then Some (3%nat, (0x80, 0x9F))
  else if c <? 0xF0 then Some (3%nat, (0x80, 0xBF))
  else if c =? 0xF0 then Some (4%nat, (0x90, 0xBF))
  else if c <? 0xF4 then Some (4%nat, (0x80, 0xBF))
  else if c =? 0xF4 then Some (4%nat, (0x80, 0x8F))
  else None.

(** A continuation byte. *)
Definition cont (c : Z) : bool := (0x80 <=? c) && (c <=? 0xBF).

(** The number of bytes the rune starting with [c] takes, [rest] being
    the bytes after [c]: one for ASCII and for an invalid or a short
    encoding. *)
Definition rune_size (c : byte) (rest : list byte) : nat :=
  if u8 c <? 0x80 then 1%nat
  else match first (u8 c) with
  | None => 1%nat
  | Some (size, (lo, hi)) =>
      if (length rest <? size - 1)%nat then 1%nat
      else
        let c1 := u8 (nth 0 rest Byte.x00) in
        if (c1 <? lo) || (hi <? c1) then 1%nat
        else if (size =? 2)%nat then 2%nat
        else if negb (cont (u8 (nth 1 rest Byte.x00))) then 1%nat
        else if (size =? 3)%nat then 3%nat
        else if negb (cont (u8 (nth 2 rest Byte.x00))) then 1%nat
        else 4%nat
  end.

(** The loop of [RuneCountInString]; [skip] counts the bytes of the
    current rune that are still to be passed over. *)
Fixpoint count_from (skip : nat) (s : list byte) : nat :=
  match s with
  | [] => 0%nat
  | c :: rest =>
      match skip with
      | S k => count_from k rest
      | O => S (count_from (rune_size c rest - 1) rest)
      end
  end.

(** [utf8.RuneCountInString] *)
Definition RuneCountInString (s : list byte) : nat := count_from 0 s.

End utf8.

Module gofmt.

Definition space : byte := byte.of_Z 0x20.
Definition zero : byte := byte.of_Z 0x30.

(** [digits[d]] for [digits = "0123456789abcdef"] *)
Definition digit (d : Z) : byte :=
  nth (Z.to_nat d) (str "0123456789abcdef") Byte.x00.

(** The digits of [u] in [base], written right to left in front of
    [acc], as [fmtInteger] fills its buffer. *)
Fixpoint digits_acc (fuel : nat) (base u : Z) (acc : list byte) : list byte :=
  match fuel with
  | O => digit u :: acc
  | S k =>
      if base <=? u
      then digits_acc k base (u / base) (digit (u mod base) :: acc)
      else digit u :: acc
  end.

(** As many steps as [u] has bits: enough for every base from 2 on. *)
Definition digits (base u : Z) : list byte :=
  digits_acc (Z.to_nat (Z.log2 u)) base u [].

(** [f.pad] under the minus flag: spaces on the right, up to [wid]
    runes. *)
Definition pad_right (wid : nat) (s : list byte) : list byte :=
  s ++ repeat space (wid - utf8.RuneCountInString s).

(** Leading zeros, up to [prec] digits. *)
Definition pad_zero (prec : nat) (s : list byte) : list byte :=
  repeat zero (prec - length s) ++ s.

(** [Sprintf("%-Ws", s)] *)
Definition s_left (wid : nat) (s : list byte) : list byte := pad_right wid s.

(** [Sprintf("%0Wd", u)] for an unsigned [u] *)
Definition d_zero (wid : nat) (u : Z) : list byte := pad_zero wid (digits 10 u).

(** [Sprintf("%0Wx", u)] for an unsigned [u] *)
Definition x_zero (wid : nat) (u : Z) : list byte := pad_zero wid (digits 16 u).

(** [Sprintf("%x", b)] for a byte slice [b] *)
Definition x_bytes (b : list byte) : list byte :=
  flat_map (fun c => [digit (Z.shiftr (u8 c) 4); digit (Z.land (u8 c) 0xF)]) b.

(** The integer nearest to [n / d], halves to even ([0 <= n], [0 < d]). *)
Definition round_half_even (n d : Z) : Z :=
  let q := n / d in
  match 2 * (n mod d) ?= d with
  | Lt => q
  | Gt => q + 1
  | Eq => if Z.even q then q else q + 1
  end.

(** [strconv.FormatFloat(v, 'f', 6, 64)] with the sign as [fmtFloat]
    prints it: six digits after the point, the exact value rounded to
    the nearest, halves to even. *)
Definition float_f6 (v : spec_float) : list byte :=
  match v with
  | S754_nan => str "NaN"
  | S754_infinity false => str "+Inf"
  | S754_infinity true => str "-Inf"
  | S754_zero s => (if s then str "-" else []) ++ str "0.000000"
  | S754_finite s m e =>
      let n := if 0 <=? e then Z.pos m * 2 ^ e * 10 ^ 6
               else round_half_even (Z.pos m * 10 ^ 6) (2 ^ (- e)) in
      (if s then str "-" else [])
        ++ digits 10 (n / 10 ^ 6) ++ str "."
        ++ pad_zero 6 (digits 10 (n mod 10 ^ 6))
  end.

(** [Sprintf("%-0Wf", v)]: the minus flag switches the zero flag off,
    the padding is made of spaces on the right. *)
Definition f_left (wid : nat) (v : spec_float) : list byte :=
  pad_right wid (float_f6 v).

End gofmt.

(** ** internal/hbrp/proto: [Packet.String], with the verbs of fmt it
    uses *)

Module protofmt.

(** [%d] of an unsigned integer *)
Definition d (u : Z) : list byte := gofmt.digits 10 u.

(** [%t] *)
Definition t (b : bool) : list byte := if b then str "true" else str "false".

(** The loop of [%v] over the elements of a byte array, from the index
    [i] on: a space in front of every element but the first. *)
Fixpoint v_from (i : nat) (b : list byte) : list byte :=
  match b with
  | [] => []
  | c :: rest =>
      (if (0 <? i)%nat then [gofmt.space] else [])
        ++ gofmt.digits 10 (u8 c) ++ v_from (S i) rest
  end.

(** [%v] of a byte array: the elements in decimal between brackets. *)
Definition v (b : list byte) : list byte := str "[" ++ v_from 0 b ++ str "]".

(** [func (p *Packet) String() string] *)
Definition String (p : proto.Packet) : list byte :=
  str "Packet: Seq " ++ d (proto.Seq p)
    ++ str ", Src " ++ d (proto.Src p)
    ++ str ", Dst " ++ d (proto.Dst p)
    ++ str ", Repeater " ++ d (proto.Repeater p)
    ++ str ", Slot " ++ t (proto.Slot p)
    ++ str ", GroupCall " ++ t (proto.GroupCall p)
    ++ str ", FrameType=" ++ d (proto.FrameType p)
    ++ str ", StreamId " ++ d (proto.StreamID p)
    ++ str ", DMRData " ++ v (proto.DMRData p).

End protofmt.

(** ** crypto/sha256 (Go standard library): FIPS 180-4 *)

Module sha256.

(** The primes among [n], [n + 1], ..., taken until [count] are found;
    [ps] holds the primes below [n], largest first. *)
Fixpoint primes_from (fuel count : nat) (n : Z) (ps : list Z) : list Z :=
  match fuel, count with
  | S fuel', S count' =>
      if forallb (fun p => negb (n mod p =? 0)) ps
      then primes_from fuel' count' (n + 1) (n :: ps)
      else primes_from fuel' count (n + 1) ps
  | _, _ => rev ps
  end.

(** The first [count] primes (the fuel covers the 64 that are used). *)
Definition primes (count : nat) : list Z := primes_from 400 count 2 [].

(** The largest [r + x] with [x < 2 ^ bits] and [(r + x) ^ e <= n]. *)
Fixpoint root (bits : nat) (e n r : Z) : Z :=
  match bits with
  | O => r
  | S bits' =>
      let c := r + 2 ^ Z.of_nat bits' in
      if c ^ e <=? n then root bits' e n c else root bits' e n r
  end.

(** The first 32 bits of the fractional part of the [e]-th root of [p]. *)
Definition frac_root (e p : Z) : Z := root 40 e (p * 2 ^ (32 * e)) 0 mod 2 ^ 32.

(** The round constants: cube roots of the first 64 primes. *)
Definition K : list Z := Eval vm_compute in map (frac_root 3) (primes 64).

(** The eight working variables, 32-bit words. *)
Record state : Type := mkState {
  h0 : Z; h1 : Z; h2 : Z; h3 : Z; h4 : Z; h5 : Z; h6 : Z; h7 : Z }.

(** The square roots of the first eight primes. *)
Definition H0 : list Z := Eval vm_compute in map (frac_root 2) (primes 8).

(** The initial hash value. *)
Definition init : state :=
  mkState (nth 0 H0 0) (nth 1 H0 0) (nth 2 H0 0) (nth 3 H0 0)
          (nth 4 H0 0) (nth 5 H0 0) (nth 6 H0 0) (nth 7 H0 0).

(** Addition of 32-bit words wraps around. *)
Definition add32 (x y : Z) : Z := (x + y) mod 2 ^ 32.

(** Rotation of a 32-bit word to the right. *)
Definition rotr (x n : Z) : Z :=
  Z.lor (Z.shiftr x n) (Z.shiftl x (32 - n) mod 2 ^ 32).

Definition not32 (x : Z) : Z := Z.lxor x 0xffffffff.

Definition Ch (x y z : Z) : Z := Z.lxor (Z.land x y) (Z.land (not32 x) z).

Definition Maj (x y z : Z) : Z :=
  Z.lxor (Z.lxor (Z.land x y) (Z.land x z)) (Z.land y z).

Definition Sigma0 (x : Z) : Z :=
  Z.lxor (Z.lxor (rotr x 2) (rotr x 13)) (rotr x 22).

Definition Sigma1 (x : Z) : Z :=
  Z.lxor (Z.lxor (rotr x 6) (rotr x 11)) (rotr x 25).

Definition sigma0 (x : Z) : Z :=
  Z.lxor (Z.lxor (rotr x 7) (rotr x 18)) (Z.shiftr x 3).

Definition sigma1 (x : Z) : Z :=
  Z.lxor (Z.lxor (rotr x 17) (rotr x 19)) (Z.shiftr x 10).

(** Big-endian 32-bit words of a block. *)
Fixpoint words (bs : list byte) : list Z :=
  match bs with
  | a :: b :: c :: d :: rest =>
      Z.lor (Z.lor (Z.lor (Z.shiftl (u8 a) 24) (Z.shiftl (u8 b) 16))
                   (Z.shiftl (u8 c) 8)) (u8 d) :: words rest
  | _ => []
  end.

(** The message schedule, most recent word first: [rw] holds
    [W(t-1), W(t-2), ...]. *)
Fixpoint schedule (n : nat) (rw : list Z) : list Z :=
  match n with
  | O => rw
  | S n' =>
      let w := add32 (add32 (add32 (sigma1 (nth 1 rw 0)) (nth 6 rw 0))
                            (sigma0 (nth 14 rw 0))) (nth 15 rw 0) in
      schedule n' (w :: rw)
  end.

(** One of the 64 rounds, on the constant and the schedule word. *)
Definition round (s : state) (kw : Z * Z) : state :=
  let t1 := add32 (add32 (add32 (add32 (h7 s) (Sigma1 (h4 s)))
                                (Ch (h4 s) (h5 s) (h6 s))) (fst kw)) (snd kw) in
  let t2 := add32 (Sigma0 (h0 s)) (Maj (h0 s) (h1 s) (h2 s)) in
  mkState (add32 t1 t2) (h0 s) (h1 s) (h2 s) (add32 (h3 s) t1) (h4 s) (h5 s) (h6 s).

(** The compression of one 64-byte block. *)
Definition block (s : state) (bs : list byte) : state :=
  let w := rev (schedule 48 (rev (words bs))) in
  let r := fold_left round (combine K w) s in
  mkState (add32 (h0 s) (h0 r)) (add32 (h1 s) (h1 r)) (add32 (h2 s) (h2 r))
          (add32 (h3 s) (h3 r)) (add32 (h4 s) (h4 r)) (add32 (h5 s) (h5 r))
          (add32 (h6 s) (h6 r)) (add32 (h7 s) (h7 r)).

(** [n] blocks in turn. *)
Fixpoint blocks (n : nat) (s : state) (bs : list byte) : state :=
  match n with
  | O => s
  | S n' => blocks n' (block s (take 64 bs)) (drop 64 bs)
  end.

(** A word, and a 64-bit length, big-endian. *)
Definition be32 (x : Z) : list byte :=
  [byte.of_Z (Z.shiftr x 24); byte.of_Z (Z.shiftr x 16);
   byte.of_Z (Z.shiftr x 8); byte.of_Z x].

Definition be64 (x : Z) : list byte := be32 (Z.shiftr x 32) ++ be32 x.

(** Padding: a 1 bit, zeros up to 56 mod 64, the length in bits. *)
Definition pad (msg : list byte) : list byte :=
  let len := Z.of_nat (length msg) in
  msg ++ [byte.of_Z 0x80]
      ++ repeat Byte.x00 (Z.to_nat ((55 - len) mod 64))
      ++ be64 (8 * len).

(** [sha256.Sum256]: the 32 bytes of the digest. *)
Definition Sum256 (msg : list byte) : list byte :=
  let p := pad msg in
  let s := blocks (length p / 64) init p in
  be32 (h0 s) ++ be32 (h1 s) ++ be32 (h2 s) ++ be32 (h3 s) ++
  be32 (h4 s) ++ be32 (h5 s) ++ be32 (h6 s) ++ be32 (h7 s).

(** The hash object returned by [sha256.New()] is modelled by the bytes
    written to it so far; [Sum(b)] appends the digest of these to [b]. *)
Definition New : list byte := [].

Definition Write (h p : list byte) : list byte := h ++ p.

Definition Sum (h b : list byte) : list byte := b ++ Sum256 h.

End sha256.

(** ** regexp (Go standard library), for the one pattern of the
    validator *)

Module regexp.

(** The class [[0-9a-fA-F]] *)
Definition hex_class (c : byte) : bool :=
  let x := u8 c in
  ((0x30 <=? x) && (x <=? 0x39)) || ((0x61 <=? x) && (x <=? 0x66))
  || ((0x41 <=? x) && (x <=? 0x46)).

(** [MatchString] for a pattern [^[class]{0,n}$]: at most [n] characters
    of the class and nothing else.  Without the flag [m], Go's [$] is
    the end of the text. *)
Fixpoint match_upto (class : byte -> bool) (n : nat) (s : list byte)
  {struct s} : bool :=
  match s with
  | [] => true
  | c :: rest =>
      match n with
      | O => false
      | S n' => class c && match_upto class n' rest
      end
  end.

End regexp.

(** ** internal/config *)

Module config.

(** The float64 constants 180 and 90 ([m * 2^e], 53-bit mantissa). *)
Definition f64_180 : spec_float := S754_finite false 6333186975989760 (-45).
Definition f64_90 : spec_float := S754_finite false 6333186975989760 (-46).

(** The sentinel errors of both revisions of config.go. *)
Inductive error : Type :=
| ErrInvalidLogLevel
| ErrInvalidHBRPCallsign
| ErrInvalidHBRPColorCode
| ErrInvalidHBRPLongitude
| ErrInvalidHBRPLatitude
| ErrInvalidHBRPMasterServer
| ErrInvalidHBRPPassword
| ErrNoMMDVMNetworks
| ErrInvalidMMDVMName
| ErrDuplicateMMDVMName
| ErrInvalidMMDVMCallsign
| ErrInvalidMMDVMColorCode
| ErrInvalidMMDVMLongitude
| ErrInvalidMMDVMLatitude
| ErrInvalidMMDVMMasterServer
| ErrInvalidMMDVMPassword
| ErrInvalidRewriteSlot
| ErrInvalidRewriteRange
| ErrInvalidIPSCInterface
| ErrInvalidIPSCIP
| ErrInvalidIPSCSubnetMask
| ErrInvalidIPSCAuthKey.

Definition LogLevelDebug : list byte := str "debug".
Definition LogLevelInfo : list byte := str "info".
Definition LogLevelWarn : list byte := str "warn".
Definition LogLevelError : list byte := str "error".

(** [type IPSCAuth struct] *)
Record IPSCAuth : Type := mkIPSCAuth {
  Enabled : bool;
  Key : list byte }.

(** [type IPSC struct]; [Port] is a uint16, [SubnetMask] an int. *)
Record IPSC : Type := mkIPSC {
  Interface : list byte;
  Port : Z;
  IP : list byte;
  SubnetMask : Z;
  Auth : IPSCAuth }.

(** [type HBRP struct] (first revision); [ID] is a uint32, [TXPower] and
    [ColorCode] are uint8, [Height] is a uint16, the frequencies uint. *)
Record HBRP : Type := mkHBRP {
  Callsign : list byte;
  ID : Z;
  RXFreq : Z;
  TXFreq : Z;
  TXPower : Z;
  ColorCode : Z;
  Latitude : spec_float;
  Longitude : spec_float;
  Height : Z;
  Location : list byte;
  Description : list byte;
  URL : list byte;
  MasterServer : list byte;
  Password : list byte }.

(** [type Config struct] (first revision) *)
Record Config : Type := mkConfig {
  LogLevel : list byte;
  hbrp : HBRP;
  ipsc : IPSC }.

(** The switch on [c.LogLevel]. *)
Definition knownLogLevel (l : list byte) : bool :=
  streq l LogLevelDebug || streq l LogLevelInfo
  || streq l LogLevelWarn || streq l LogLevelError.

(** [h.Longitude < -180 || h.Longitude > 180] and the like on float64;
    a comparison with NaN is false. *)
Definition outside (x bound : spec_float) : bool :=
  SFltb x (SFopp bound) || SFltb bound x.

(** The last two checks of [Validate], the same text in both revisions
    (lines 125-133 and 337-345).  The comment in the source names the
    condition [c.IPSC.Auth.Enabled] for the second check; the code
    matches the key in every case. *)
Definition validateAuthKey (a : IPSCAuth) : option error :=
  if Enabled a && streq (Key a) [] then Some ErrInvalidIPSCAuthKey
  else if negb (regexp.match_upto regexp.hex_class 40 (Key a))
  then Some ErrInvalidIPSCAuthKey
  else None.

Section Validate.

(** [netlink.LinkByName] returns no error on the names of the links of
    the host. *)
Variable LinkByName : list byte -> bool.

(** The checks on [c.IPSC] that come before the key, the same text in
    both revisions (lines 108-123 and 320-335). *)
Definition validateIPSC (i : IPSC) : option error :=
  if streq (Interface i) [] then Some ErrInvalidIPSCInterface
  else if negb (LinkByName (Interface i)) then Some ErrInvalidIPSCInterface
  else if streq (IP i) [] then Some ErrInvalidIPSCIP
  else if (SubnetMask i <? 1) || (32 <? SubnetMask i)
  then Some ErrInvalidIPSCSubnetMask
  else None.

(** [Validate], first revision, up to the subnet mask (lines 78-123). *)
Definition validateBeforeAuth (c : Config) : option error :=
  if negb (knownLogLevel (LogLevel c)) then Some ErrInvalidLogLevel
  else if streq (Callsign (hbrp c)) [] then Some ErrInvalidHBRPCallsign
  else if 15 <? ColorCode (hbrp c) then Some ErrInvalidHBRPColorCode
  else if outside (Longitude (hbrp c)) f64_180 then Some ErrInvalidHBRPLongitude
  else if outside (Latitude (hbrp c)) f64_90 then Some ErrInvalidHBRPLatitude
  else if streq (MasterServer (hbrp c)) [] then Some ErrInvalidHBRPMasterServer
  else if streq (Password (hbrp c)) [] then Some ErrInvalidHBRPPassword
  else validateIPSC (ipsc c).

(** [func (c Config) Validate() error], first revision *)
Definition Validate (c : Config) : option error :=
  match validateBeforeAuth c with
  | Some e => Some e
  | None => validateAuthKey (Auth (ipsc c))
  end.

End Validate.

End config.

(** ** internal/config, second revision (several MMDVM networks) *)

Module config2.

Import config.

(** [TGRewriteConfig], [PCRewriteConfig], [TypeRewriteConfig] and
    [SrcRewriteConfig] have the same five uint fields, up to the names
    of the second and the fourth. *)
Record RewriteConfig : Type := mkRewriteConfig {
  FromSlot : Z;
  From : Z;
  ToSlot : Z;
  To : Z;
  Range : Z }.

(** [type MMDVM struct] *)
Record MMDVM : Type := mkMMDVM {
  Name : list byte;
  Callsign : list byte;
  ID : Z;
  RXFreq : Z;
  TXFreq : Z;
  TXPower : Z;
  ColorCode : Z;
  Latitude : spec_float;
  Longitude : spec_float;
  Height : Z;
  Location : list byte;
  Description : list byte;
  URL : list byte;
  Slots : Z;
  MasterServer : list byte;
  Password : list byte;
  TGRewrites : list RewriteConfig;
  PCRewrites : list RewriteConfig;
  TypeRewrites : list RewriteConfig;
  SrcRewrites : list RewriteConfig }.

(** [type Config struct] *)
Record Config : Type := mkConfig {
  LogLevel : list byte;
  MMDVMs : list MMDVM;
  ipsc : IPSC }.

(** [func validateSlot(slot uint) bool] *)
Definition validateSlot (slot : Z) : bool := (slot =? 1) || (slot =? 2).

(** One of the four loops of [validateRewrites]. *)
Fixpoint validateRules (rs : list RewriteConfig) : option error :=
  match rs with
  | [] => None
  | r :: rest =>
      if negb (validateSlot (FromSlot r)) || negb (validateSlot (ToSlot r))
      then Some ErrInvalidRewriteSlot
      else if Range r <? 1 then Some ErrInvalidRewriteRange
      else validateRules rest
  end.

(** [func validateRewrites(h *MMDVM) error] *)
Definition validateRewrites (h : MMDVM) : option error :=
  match validateRules (TGRewrites h) with
  | Some e => Some e
  | None =>
  match validateRules (PCRewrites h) with
  | Some e => Some e
  | None =>
  match validateRules (TypeRewrites h) with
  | Some e => Some e
  | None => validateRules (SrcRewrites h)
  end end end.

(** The loop over [c.MMDVM]; [names] is the set of the names seen. *)
Fixpoint validateNetworks (names : gset (list byte)) (hs : list MMDVM)
  : option error :=
  match hs with
  | [] => None
  | h :: rest =>
      if streq (Name h) [] then Some ErrInvalidMMDVMName
      else if bool_decide (Name h ∈ names) then Some ErrDuplicateMMDVMName
      else
        let names := {[ Name h ]} ∪ names in
        if streq (Callsign h) [] then Some ErrInvalidMMDVMCallsign
        else if 15 <? ColorCode h then Some ErrInvalidMMDVMColorCode
        else if outside (Longitude h) f64_180 then Some ErrInvalidMMDVMLongitude
        else if outside (Latitude h) f64_90 then Some ErrInvalidMMDVMLatitude
        else if streq (MasterServer h) [] then Some ErrInvalidMMDVMMasterServer
        else if streq (Password h) [] then Some ErrInvalidMMDVMPassword
        else match validateRewrites h with
             | Some e => Some e
             | None => validateNetworks names rest
             end
  end.

Section Validate.

Variable LinkByName : list byte -> bool.

(** [Validate], second revision, up to the subnet mask (lines 267-335). *)
Definition validateBeforeAuth (c : Config) : option error :=
  if negb (knownLogLevel (LogLevel c)) then Some ErrInvalidLogLevel
  else if (length (MMDVMs c) =? 0)%nat then Some ErrNoMMDVMNetworks
  else match validateNetworks ∅ (MMDVMs c) with
       | Some e => Some e
       | None => validateIPSC LinkByName (ipsc c)
       end.

(** [func (c Config) Validate() error], second revision *)
Definition Validate (c : Config) : option error :=
  match validateBeforeAuth c with
  | Some e => Some e
  | None => validateAuthKey (Auth (ipsc c))
  end.

End Validate.

End config2.

(** ** internal/hbrp: the packets of the handshake *)

Module hbrp.

Import Slice.

(** [type HBRPClient struct], as far as the packet builders use it:
    the configuration and what has been sent on [connTX]. *)
Record HBRPClient : Type := mkClient {
  cfg : config.Config;
  connTX : list (list byte) }.

(** [h.connTX <- data] *)
Definition send (h : HBRPClient) (data : list byte) : HBRPClient :=
  {| cfg := cfg h; connTX := connTX h ++ [data] |}.

(** [hexid := make([]byte, 8); copy(hexid, Sprintf("%08x", ID))] *)
Definition hexid (h : HBRPClient) : list byte :=
  copy (make 8) (gofmt.x_zero 8 (config.ID (config.hbrp (cfg h)))).

(** The body shared by [sendLogin], [sendRPTCL] and [sendPing]: the
    tag followed by the hex ID. *)
Definition tagged (h : HBRPClient) (tag : list byte) : HBRPClient :=
  let data := make (length tag + 8) in
  let n := copied data tag in
  let data := copy data tag in
  let data := copy_from data n (hexid h) in
  send h data.

(** [func (h *HBRPClient) sendLogin()] *)
Definition sendLogin (h : HBRPClient) : HBRPClient := tagged h (str "RPTL").

(** [func (h *HBRPClient) sendRPTCL()] *)
Definition sendRPTCL (h : HBRPClient) : HBRPClient := tagged h (str "RPTCL").

(** [func (h *HBRPClient) sendPing()] *)
Definition sendPing (h : HBRPClient) : HBRPClient := tagged h (str "MSTPING").

(** [func (h *HBRPClient) sendRPTC()] *)
Definition sendRPTC (h : HBRPClient) : HBRPClient :=
  let c := config.hbrp (cfg h) in
  let s := str "RPTC" in
  let s := s ++ gofmt.s_left 8 (config.Callsign c) in
  let s := s ++ gofmt.x_zero 8 (config.ID c) in
  let s := s ++ gofmt.d_zero 9 (config.RXFreq c) in
  let s := s ++ gofmt.d_zero 9 (config.TXFreq c) in
  let s := s ++ gofmt.d_zero 2 (config.TXPower c) in
  let s := s ++ gofmt.d_zero 2 (config.ColorCode c) in
  let s := s ++ sub (gofmt.f_left 8 (config.Latitude c)) 0 8 in
  let s := s ++ sub (gofmt.f_left 9 (config.Longitude c)) 0 9 in
  let s := s ++ gofmt.d_zero 3 (config.Height c) in
  let s := s ++ gofmt.s_left 20 (config.Location c) in
  let s := s ++ gofmt.s_left 20 (config.Description c) in
  let s := s ++ gofmt.s_left 124 (config.URL c) in
  let s := s ++ gofmt.s_left 40 [] in
  let s := s ++ gofmt.s_left 40 [] in
  send h s.

(** [func (h *HBRPClient) sendRPTK(random []byte)] *)
Definition sendRPTK (h : HBRPClient) (random : list byte) : HBRPClient :=
  let s256 := sha256.New in
  let s256 := sha256.Write s256 random in
  let s256 := sha256.Write s256 (config.Password (config.hbrp (cfg h))) in
  let token := gofmt.x_bytes (sha256.Sum s256 []) in
  let data := make (length (str "RPTK") + 8 + 64) in
  let n := copied data (str "RPTK") in
  let data := copy data (str "RPTK") in
  let data := copy_from data n (hexid h) in
  let data := copy_from data (n + 8) token in
  send h data.

(** [func (h *HBRPClient) sendPacket(packet proto.Packet)] *)
Definition sendPacket (h : HBRPClient) (packet : proto.Packet) : HBRPClient :=
  let data := make 53 in
  let data := copy data (proto.Encode packet) in
  send h data.

End hbrp.

(** ** internal/ipsc: the translator *)

Module ipsc.

Import Slice.

(** The package is present by its tests only (translator_test.go):
    the types and the functions of the translator ([IPSCTranslator],
    [TranslateToIPSC], [TranslateToHBRP], [CleanupStream] and their
    helpers) are modelled from sections 3 and 4.C of the specification.
    Where the specification leaves a byte of a packet open (byte 5, the
    RTP-shaped header after its first two bytes, the bytes after the
    full link control) the model writes zero; where it leaves open what
    happens to a burst whose stream is not recorded, the model records
    the stream. *)

(** Modelled from the spec: the frame type of a data-sync frame (the
    constant is named by the tests, its declaration is missing). *)
Definition hbrpFrameTypeDataSync : Z := 1.

(** Modelled from the spec: the frame type of a voice frame. *)
Definition hbrpFrameTypeVoice : Z := 2.

(** Modelled from the spec: the data type of a voice LC header. *)
Definition dataTypeVoiceLCHeader : Z := 1.

(** Modelled from the spec: the data type of a terminator with LC. *)
Definition dataTypeTerminatorWithLC : Z := 2.

(** Modelled from the spec: the data type of a CSBK. *)
Definition dataTypeCSBK : Z := 3.

(** Modelled from the spec: the packet type of group voice. *)
Definition ipscGroupVoice : Z := 0x80.

(** Modelled from the spec: the packet type of private voice. *)
Definition ipscPrivateVoice : Z := 0x81.

(** Modelled from the spec: the packet type of group data. *)
Definition ipscGroupData : Z := 0x83.

(** Modelled from the spec: the packet type of private data. *)
Definition ipscPrivateData : Z := 0x84.

(** Modelled from the spec: the burst type of a voice head (the constant
    is named by the tests, its declaration is missing). *)
Definition ipscBurstVoiceHead : Z := 0x01.

(** Modelled from the spec: the burst type of a voice terminator. *)
Definition ipscBurstVoiceTerm : Z := 0x02.

(** Modelled from the spec: the burst type of a CSBK. *)
Definition ipscBurstCSBK : Z := 0x07.

(** Modelled from the spec: bit 5 of the call-info byte, time slot 2. *)
Definition callInfoSlot2 : Z := 0x20.

(** Modelled from the spec: bit 6 of the call-info byte, the end of the
    call. *)
Definition callInfoEnd : Z := 0x40.

(** Modelled from the spec: the stream state of the direction DMRD to
    IPSC, keyed by the DMRD stream ID. *)
Record streamState : Type := mkStream {
  callControl : Z;
  fSlot : bool;
  fGroupCall : bool;
  fSrc : Z;
  fDst : Z;
  lastSeq : Z }.

(** Modelled from the spec: the stream state of the direction IPSC to
    DMRD, keyed by the IPSC call control. *)
Record reverseState : Type := mkReverse {
  streamID : Z;
  rSlot : bool;
  rGroupCall : bool;
  rSrc : Z;
  rDst : Z;
  seqCounter : Z;
  headerEmitted : bool }.

(** Modelled from the spec: the translator owns the two maps, the local
    peer ID and the random allocator, here the number of values drawn
    from it so far. *)
Record IPSCTranslator : Type := mkTranslator {
  peerID : Z;
  repeaterID : Z;
  streams : gmap Z streamState;
  reverseStreams : gmap Z reverseState;
  drawn : nat }.

(** Modelled from the spec: [NewIPSCTranslator()], both maps empty. *)
Definition NewIPSCTranslator : IPSCTranslator :=
  {| peerID := 0; repeaterID := 0; streams := ∅; reverseStreams := ∅;
     drawn := 0 |}.

(** Modelled from the spec: [SetPeerID(id)]; the test reads both fields
    back. *)
Definition SetPeerID (t : IPSCTranslator) (id : Z) : IPSCTranslator :=
  {| peerID := id; repeaterID := id; streams := streams t;
     reverseStreams := reverseStreams t; drawn := drawn t |}.

(** Modelled from the spec: [CleanupStream(id)], the idle sweep of a
    forward stream. *)
Definition CleanupStream (t : IPSCTranslator) (id : Z) : IPSCTranslator :=
  {| peerID := peerID t; repeaterID := repeaterID t;
     streams := delete id (streams t);
     reverseStreams := reverseStreams t; drawn := drawn t |}.

(** Modelled from the spec: a 24-bit ID, big-endian. *)
Definition be24 (x : Z) : list byte :=
  [byte.of_Z (Z.shiftr x 16); byte.of_Z (Z.shiftr x 8); byte.of_Z x].

(** Modelled from the spec: a 32-bit ID or call control, big-endian. *)
Definition be32 (x : Z) : list byte :=
  [byte.of_Z (Z.shiftr x 24); byte.of_Z (Z.shiftr x 16);
   byte.of_Z (Z.shiftr x 8); byte.of_Z x].

(** Modelled from the spec: the 24-bit value at offset [i]. *)
Definition u24 (data : list byte) (i : nat) : Z :=
  Z.lor (Z.lor (Z.shiftl (u8 (get data i)) 16)
               (Z.shiftl (u8 (get data (i + 1))) 8))
        (u8 (get data (i + 2))).

(** Modelled from the spec: the 32-bit value at offset [i]. *)
Definition u32 (data : list byte) (i : nat) : Z :=
  Z.lor (Z.lor (Z.lor (Z.shiftl (u8 (get data i)) 24)
                      (Z.shiftl (u8 (get data (i + 1))) 16))
               (Z.shiftl (u8 (get data (i + 2))) 8))
        (u8 (get data (i + 3))).

(** Modelled from the spec: the 9-byte full link control of a frame. *)
Definition extractFullLCBytes (p : proto.Packet) : list byte :=
  [byte.of_Z (if proto.GroupCall p then 0x00 else 0x03);
   Byte.x00; Byte.x00] ++ be24 (proto.Dst p) ++ be24 (proto.Src p).

(** Modelled from the spec: the 12-byte RTP-shaped header, version 2 in
    byte 18 and the marker bit in byte 19. *)
Definition buildRTPHeader (marker : bool) : list byte :=
  [byte.of_Z 0x80; byte.of_Z (if marker then 0x80 else 0x00)] ++ make 10.

(** Modelled from the spec: the 31 bytes every emitted IPSC packet
    starts with. *)
Definition buildIPSCHeader (t : IPSCTranslator) (st : streamState)
    (data endOfCall marker : bool) (burst : Z) : list byte :=
  let ptype :=
    if data then (if fGroupCall st then ipscGroupData else ipscPrivateData)
    else (if fGroupCall st then ipscGroupVoice else ipscPrivateVoice) in
  let info := Z.lor (if fSlot st then callInfoSlot2 else 0)
                    (if endOfCall then callInfoEnd else 0) in
  [byte.of_Z ptype] ++ be32 (peerID t) ++ [Byte.x00]
    ++ be24 (fSrc st) ++ be24 (fDst st)
    ++ [byte.of_Z (if fGroupCall st then 0x02 else 0x01)]
    ++ be32 (callControl st) ++ [byte.of_Z info]
    ++ buildRTPHeader marker ++ [byte.of_Z burst].

Section Translate.

(** The random 32-bit allocator: the value of its [n]-th draw. *)
Variable rand32 : nat -> Z.

(** The voice bursts of the dialect: the burst type of a voice-sequence
    letter (A = 0 ... F = 5), and the letter of a burst type, [None]
    for a burst type that is no voice burst. *)
Variable voiceBurst : Z -> Z.
Variable voiceLetter : Z -> option Z.

(** Modelled from the spec: a value the map [m] has no live entry for;
    the allocator is drawn again on a collision, once per live entry
    at most. *)
Fixpoint fresh (live : Z -> bool) (fuel n : nat) : Z * nat :=
  let v := rand32 n mod 2 ^ 32 in
  match fuel with
  | O => (v, S n)
  | S k => if live v then fresh live k (S n) else (v, S n)
  end.

(** Modelled from the spec: a call control that a live forward stream
    owns. *)
Definition liveCallControl (t : IPSCTranslator) (v : Z) : bool :=
  existsb (fun kv => callControl (snd kv) =? v) (map_to_list (streams t)).

(** Modelled from the spec: a stream ID that a live reverse stream
    owns. *)
Definition liveStreamID (t : IPSCTranslator) (v : Z) : bool :=
  existsb (fun kv => streamID (snd kv) =? v)
          (map_to_list (reverseStreams t)).

(** Modelled from the spec: the state of the forward stream of frame
    [p], allocated with a fresh call control. *)
Definition newStream (t : IPSCTranslator) (p : proto.Packet)
  : streamState * nat :=
  let '(cc, n) := fresh (liveCallControl t) (size (streams t)) (drawn t) in
  ({| callControl := cc; fSlot := proto.Slot p;
      fGroupCall := proto.GroupCall p; fSrc := proto.Src p;
      fDst := proto.Dst p; lastSeq := 0 |}, n).

(** Modelled from the spec: the recorded state of the stream of [p], a
    new one when none is recorded. *)
Definition streamOf (t : IPSCTranslator) (p : proto.Packet)
  : streamState * nat :=
  match streams t !! (proto.StreamID p mod 2 ^ 32) with
  | Some st => (st, drawn t)
  | None => newStream t p
  end.

(** Modelled from the spec: the translator after an update of the
    forward map. *)
Definition withStreams (t : IPSCTranslator) (m : gmap Z streamState)
    (n : nat) : IPSCTranslator :=
  {| peerID := peerID t; repeaterID := repeaterID t; streams := m;
     reverseStreams := reverseStreams t; drawn := n |}.

(** Modelled from the spec: [TranslateToIPSC] (section 4.C.1), the IPSC
    packets for one DMRD frame. *)
Definition TranslateToIPSC (t : IPSCTranslator) (p : proto.Packet)
  : IPSCTranslator * list (list byte) :=
  let key := proto.StreamID p mod 2 ^ 32 in
  if proto.FrameType p =? hbrpFrameTypeVoice then
    let '(st, n) := streamOf t p in
    let st := {| callControl := callControl st; fSlot := fSlot st;
                 fGroupCall := fGroupCall st; fSrc := fSrc st;
                 fDst := fDst st; lastSeq := (lastSeq st + 1) mod 2 ^ 8 |} in
    (withStreams t (<[key := st]> (streams t)) n,
     [buildIPSCHeader t st false false false
                      (voiceBurst (proto.DTypeOrVSeq p))
        ++ copy (make 33) (proto.DMRData p)])
  else if proto.FrameType p =? hbrpFrameTypeDataSync then
    if proto.DTypeOrVSeq p =? dataTypeVoiceLCHeader then
      let '(st, n) := newStream t p in
      let payload := extractFullLCBytes p ++ make 14 in
      (withStreams t (<[key := st]> (streams t)) n,
       [buildIPSCHeader t st false false true ipscBurstVoiceHead ++ payload;
        buildIPSCHeader t st false false false ipscBurstVoiceHead ++ payload;
        buildIPSCHeader t st false false false ipscBurstVoiceHead ++ payload])
    else if proto.DTypeOrVSeq p =? dataTypeTerminatorWithLC then
      let '(st, n) := streamOf t p in
      let payload := extractFullLCBytes p ++ make 14 in
      (withStreams t (delete key (streams t)) n,
       [buildIPSCHeader t st false true false ipscBurstVoiceTerm ++ payload])
    else if proto.DTypeOrVSeq p =? dataTypeCSBK then
      let '(st, n) := streamOf t p in
      (withStreams t (<[key := st]> (streams t)) n,
       [buildIPSCHeader t st true false false ipscBurstCSBK
          ++ copy (make 33) (proto.DMRData p)])
    else (t, [])
  else (t, []).

(** Modelled from the spec: the translator after an update of the
    reverse map. *)
Definition withReverse (t : IPSCTranslator) (m : gmap Z reverseState)
    (n : nat) : IPSCTranslator :=
  {| peerID := peerID t; repeaterID := repeaterID t; streams := streams t;
     reverseStreams := m; drawn := n |}.

(** Modelled from the spec: the call control of a traffic packet. *)
Definition packetCallControl (data : list byte) : Z := u32 data 13.

(** Modelled from the spec: the end-of-call flag of a traffic packet. *)
Definition packetEnd (data : list byte) : bool :=
  negb (Z.land (u8 (get data 17)) callInfoEnd =? 0).

(** Modelled from the spec: the slot of a traffic packet. *)
Definition packetSlot (data : list byte) : bool :=
  negb (Z.land (u8 (get data 17)) callInfoSlot2 =? 0).

(** Modelled from the spec: types 0x80 and 0x83 are group traffic. *)
Definition isGroup (packetType : Z) : bool :=
  (packetType =? ipscGroupVoice) || (packetType =? ipscGroupData).

(** Modelled from the spec: the state of the reverse stream of a
    packet, allocated with a fresh DMRD stream ID. *)
Definition newReverse (t : IPSCTranslator) (packetType : Z)
    (data : list byte) : reverseState * nat :=
  let '(sid, n) :=
    fresh (liveStreamID t) (size (reverseStreams t)) (drawn t) in
  ({| streamID := sid; rSlot := packetSlot data;
      rGroupCall := isGroup packetType; rSrc := u24 data 6;
      rDst := u24 data 9; seqCounter := 0; headerEmitted := false |}, n).

(** Modelled from the spec: the recorded state of the reverse stream
    of a packet, a new one when none is recorded. *)
Definition reverseOf (t : IPSCTranslator) (packetType : Z)
    (data : list byte) : reverseState * nat :=
  match reverseStreams t !! packetCallControl data with
  | Some st => (st, drawn t)
  | None => newReverse t packetType data
  end.

(** Modelled from the spec: the DMRD frame of a burst of the stream
    [st]. *)
Definition frameOf (t : IPSCTranslator) (st : reverseState)
    (frameType dtype : Z) (data : list byte) : proto.Packet :=
  {| proto.Signature := str "DMRD";
     proto.Seq := seqCounter st;
     proto.Src := rSrc st;
     proto.Dst := rDst st;
     proto.Repeater := repeaterID t;
     proto.Slot := rSlot st;
     proto.GroupCall := rGroupCall st;
     proto.FrameType := frameType;
     proto.DTypeOrVSeq := dtype;
     proto.StreamID := streamID st;
     proto.DMRData := copy (make 33) (drop 31 data) |}.

(** Modelled from the spec: the running sequence counter and the
    header-emitted flag after a frame. *)
Definition stepSeq (st : reverseState) (header : bool) : reverseState :=
  {| streamID := streamID st; rSlot := rSlot st; rGroupCall := rGroupCall st;
     rSrc := rSrc st; rDst := rDst st;
     seqCounter := (seqCounter st + 1) mod 2 ^ 8;
     headerEmitted := header || headerEmitted st |}.

(** Modelled from the spec: the dispatch on the burst type of section
    4.C.2, before the end-of-call flag is looked at. *)
Definition translateBurst (t : IPSCTranslator) (packetType : Z)
    (data : list byte) : IPSCTranslator * list proto.Packet :=
  let cc := packetCallControl data in
  let burst := u8 (get data 30) in
  if burst =? ipscBurstVoiceHead then
    match reverseStreams t !! cc with
    | Some _ => (t, [])
    | None =>
        let '(st, n) := newReverse t packetType data in
        (withReverse t (<[cc := stepSeq st true]> (reverseStreams t)) n,
         [frameOf t st hbrpFrameTypeDataSync dataTypeVoiceLCHeader data])
    end
  else if burst =? ipscBurstVoiceTerm then
    let '(st, n) := reverseOf t packetType data in
    (withReverse t (delete cc (reverseStreams t)) n,
     [frameOf t st hbrpFrameTypeDataSync dataTypeTerminatorWithLC data])
  else if burst =? ipscBurstCSBK then
    let '(st, n) := reverseOf t packetType data in
    (withReverse t (<[cc := stepSeq st false]> (reverseStreams t)) n,
     [frameOf t st hbrpFrameTypeDataSync dataTypeCSBK data])
  else
    match voiceLetter burst with
    | Some v =>
        let '(st, n) := reverseOf t packetType data in
        (withReverse t (<[cc := stepSeq st false]> (reverseStreams t)) n,
         [frameOf t st hbrpFrameTypeVoice v data])
    | None => (t, [])
    end.

(** Modelled from the spec: [TranslateToHBRP] (section 4.C.2), the DMRD
    frames for one IPSC packet of type [packetType]. *)
Definition TranslateToHBRP (t : IPSCTranslator) (packetType : Z)
    (data : list byte) : IPSCTranslator * list proto.Packet :=
  if negb ((packetType =? ipscGroupVoice) || (packetType =? ipscPrivateVoice)
           || (packetType =? ipscGroupData) || (packetType =? ipscPrivateData))
  then (t, [])
  else if (length data <? 54)%nat then (t, [])
  else
    let '(t', out) := translateBurst t packetType data in
    if packetEnd data
    then (withReverse t' (delete (packetCallControl data) (reverseStreams t'))
                      (drawn t'), out)
    else (t', out).

(** Modelled from the spec: the frames of a run of packets, each with
    its type, handed to [TranslateToHBRP] one after the other. *)
Fixpoint translateAll (t : IPSCTranslator) (ps : list (Z * list byte))
  : IPSCTranslator * list (list proto.Packet) :=
  match ps with
  | [] => (t, [])
  | (packetType, data) :: rest =>
      let '(t1, out) := TranslateToHBRP t packetType data in
      let '(t2, outs) := translateAll t1 rest in
      (t2, out :: outs)
  end.

End Translate.

End ipsc.

(** * Part II: the vocabulary of the statements and the data of the
    examples *)

(** A list of a known length, element by element. *)
Ltac explode_list d H :=
  repeat (destruct d as [|? d]; [discriminate H|]);
  destruct d; [clear H|discriminate H].

(** Four fields of one, one, two and four bits, from bit 0 upwards. *)
Definition pack (x y ft dt : Z) : Z :=
  Z.lor (Z.lor (Z.lor (Z.land x (Z.ones 1)) (Z.shiftl (Z.land y (Z.ones 1)) 1))
               (Z.shiftl (Z.land ft (Z.ones 2)) 2))
        (Z.shiftl (Z.land dt (Z.ones 4)) 4).

Section FlagsVocabulary.

Import Slice proto.

(** What a frame comes back as: every numeric field cut to the width
    it has on the wire. *)
Definition truncated (p : Packet) : Packet :=
  {| Signature := copy (make 4) (Signature p);
     Seq := Seq p mod 2 ^ 8;
     Src := Src p mod 2 ^ 24;
     Dst := Dst p mod 2 ^ 24;
     Repeater := Repeater p mod 2 ^ 32;
     Slot := Slot p;
     GroupCall := GroupCall p;
     FrameType := FrameType p mod 4;
     DTypeOrVSeq := DTypeOrVSeq p mod 16;
     StreamID := StreamID p mod 2 ^ 32;
     DMRData := copy (make 33) (DMRData p) |}.

End FlagsVocabulary.

Section CodecData.

Import Slice proto.

(** The frame of the tests of the package. *)
Definition samplePacket : Packet :=
  {| Signature := str "DMRD"; Seq := 42; Src := 123456; Dst := 654321;
     Repeater := 3001; Slot := true; GroupCall := true; FrameType := 1;
     DTypeOrVSeq := 3; StreamID := 0xDEADBEEF;
     DMRData := map (fun i => byte.of_Z (Z.of_nat i)) (seq 0 33) |}.

(** The ranges of the fields, as the round-trip property lists them. *)
Definition listed_ranges (f : Packet) : Prop :=
  length (Signature f) = 4%nat /\
  0 <= Seq f < 2 ^ 8 /\
  0 <= Src f < 2 ^ 24 /\ 0 <= Dst f < 2 ^ 24 /\
  0 <= Repeater f < 2 ^ 32 /\
  0 <= FrameType f <= 3 /\ 0 <= DTypeOrVSeq f <= 15.

(** A frame with every numeric field out of range. *)
Definition overflowing : Packet :=
  {| Signature := str "DMRD"; Seq := 0x1FF; Src := 0x1ABCDEF;
     Dst := 0xFF000001; Repeater := 0x1FFFFFFFF; Slot := false;
     GroupCall := false; FrameType := 7; DTypeOrVSeq := 0x1F;
     StreamID := 0xABCDEF0123456789; DMRData := make 33 |}.

End CodecData.

(** The value of a digit character, the lower-case hexadecimal digits
    and the number a string of digits stands for. *)
Definition digit_value (c : byte) : Z :=
  let x := u8 c in
  if (0x30 <=? x) && (x <=? 0x39) then x - 0x30
  else if (0x61 <=? x) && (x <=? 0x66) then x - 0x61 + 10
  else 0.

Definition lower_hex (c : byte) : bool :=
  let x := u8 c in
  ((0x30 <=? x) && (x <=? 0x39)) || ((0x61 <=? x) && (x <=? 0x66)).

Definition number (base : Z) (s : list byte) : Z :=
  fold_left (fun a c => a * base + digit_value c) s 0.

(** A digit of the given base. *)
Definition digit_of (base : Z) (c : byte) : Prop :=
  lower_hex c = true /\ 0 <= digit_value c < base.

(** The bytes a string of pairs of hexadecimal digits stands for. *)
Fixpoint unhex (s : list byte) : list byte :=
  match s with
  | a :: b :: rest => byte.of_Z (16 * digit_value a + digit_value b) :: unhex rest
  | _ => []
  end.


(** A field of [w] digits of the given base with the value [u]: the
    number [u], zero-padded to [w] digits. *)
Definition zero_padded (base : Z) (w : nat) (u : Z) (field : list byte) : Prop :=
  length field = w /\ Forall (digit_of base) field /\ number base field = u.

(** A string followed by spaces up to [w] bytes. *)
Definition left_justified (w : nat) (s : list byte) : list byte :=
  s ++ repeat gofmt.space (w - length s).

(** The strings and the numbers of a configuration fit the widths of
    their fields in RPTC (characters for the strings, digits for the
    numbers); the ID is a uint32. *)
Definition widths_fit (c : config.HBRP) : Prop :=
  (utf8.RuneCountInString (config.Callsign c) <= 8)%nat /\
  (utf8.RuneCountInString (config.Location c) <= 20)%nat /\
  (utf8.RuneCountInString (config.Description c) <= 20)%nat /\
  (utf8.RuneCountInString (config.URL c) <= 124)%nat /\
  0 <= config.ID c < 2 ^ 32 /\
  0 <= config.RXFreq c < 10 ^ 9 /\
  0 <= config.TXFreq c < 10 ^ 9 /\
  0 <= config.TXPower c < 10 ^ 2 /\
  0 <= config.ColorCode c < 10 ^ 2 /\
  0 <= config.Height c < 10 ^ 3.


(** The configuration of the tests of the package. *)
Definition testHBRP : config.HBRP :=
  {| config.Callsign := str "N0CALL"; config.ID := 311860;
     config.RXFreq := 449000000; config.TXFreq := 444000000;
     config.TXPower := 50; config.ColorCode := 1;
     config.Latitude := S754_finite false 4925812092436480 (-47);
     config.Longitude := S754_finite true 6825768185233408 (-46);
     config.Height := 30;
     config.Location := str "Oklahoma";
     config.Description := str "Test Repeater";
     config.URL := str "https://example.com";
     config.MasterServer := str "master.example.com:62030";
     config.Password := str "s3cret" |}.

Definition testIPSC : config.IPSC :=
  {| config.Interface := str "lo"; config.Port := 50000;
     config.IP := str "10.10.250.1"; config.SubnetMask := 24;
     config.Auth := {| config.Enabled := false; config.Key := [] |} |}.

Definition testClient : hbrp.HBRPClient :=
  {| hbrp.cfg := {| config.LogLevel := config.LogLevelInfo;
                    config.hbrp := testHBRP; config.ipsc := testIPSC |};
     hbrp.connTX := [] |}.




(** The language of [^[0-9a-fA-F]{0,40}$]: at most forty characters,
    every one a hexadecimal digit of either case. *)
Definition hex_key (k : list byte) : Prop :=
  (length k <= 40)%nat /\ Forall (fun c => regexp.hex_class c = true) k.

(** A configuration of each revision that passes every check. *)
Definition validConfig : config.Config :=
  {| config.LogLevel := config.LogLevelInfo;
     config.hbrp := testHBRP;
     config.ipsc := testIPSC |}.

Definition validConfig2 : config2.Config :=
  {| config2.LogLevel := config.LogLevelInfo;
     config2.MMDVMs :=
       [ {| config2.Name := str "BM"; config2.Callsign := str "N0CALL";
            config2.ID := 12345; config2.RXFreq := 0; config2.TXFreq := 0;
            config2.TXPower := 0; config2.ColorCode := 7;
            config2.Latitude := S754_finite false 8444249301319680 (-48);
            config2.Longitude := S754_finite true 6825768185233408 (-46);
            config2.Height := 0; config2.Location := [];
            config2.Description := []; config2.URL := []; config2.Slots := 3;
            config2.MasterServer := str "master.example.com:62030";
            config2.Password := str "password";
            config2.TGRewrites := []; config2.PCRewrites := [];
            config2.TypeRewrites := []; config2.SrcRewrites := [] |} ];
     config2.ipsc := testIPSC |}.

(** The same configurations with another authentication block. *)
Definition withAuth (c : config.Config) (a : config.IPSCAuth) : config.Config :=
  {| config.LogLevel := config.LogLevel c;
     config.hbrp := config.hbrp c;
     config.ipsc :=
       {| config.Interface := config.Interface (config.ipsc c);
          config.Port := config.Port (config.ipsc c);
          config.IP := config.IP (config.ipsc c);
          config.SubnetMask := config.SubnetMask (config.ipsc c);
          config.Auth := a |} |}.

Definition withAuth2 (c : config2.Config) (a : config.IPSCAuth)
  : config2.Config :=
  {| config2.LogLevel := config2.LogLevel c;
     config2.MMDVMs := config2.MMDVMs c;
     config2.ipsc :=
       {| config.Interface := config.Interface (config2.ipsc c);
          config.Port := config.Port (config2.ipsc c);
          config.IP := config.IP (config2.ipsc c);
          config.SubnetMask := config.SubnetMask (config2.ipsc c);
          config.Auth := a |} |}.

(** A host whose only link is the loopback. *)
Definition onlyLo (name : list byte) : bool := streq name (str "lo").

Section ValidateData.

Import config.

Definition deadbeef : IPSCAuth := {| Enabled := true; Key := str "deadbeef" |}.

Definition emptyKey : IPSCAuth := {| Enabled := true; Key := [] |}.

Definition disabledZZZZ : IPSCAuth := {| Enabled := false; Key := str "ZZZZ" |}.

Definition disabledLong : IPSCAuth :=
  {| Enabled := false; Key := repeat (byte.of_Z 0x61) 41 |}.

End ValidateData.

(** A traffic packet type. *)
Definition traffic (packetType : Z) : Prop :=
  packetType = ipsc.ipscGroupVoice \/ packetType = ipsc.ipscPrivateVoice \/
  packetType = ipsc.ipscGroupData \/ packetType = ipsc.ipscPrivateData.

(** A voice-head packet of the call [cc]: a traffic packet of 54 bytes
    or more with burst type 0x01 and the call control [cc]. *)
Definition voiceHead (cc : Z) (p : Z * list byte) : Prop :=
  traffic (fst p) /\ (54 <= length (snd p))%nat /\
  u8 (Slice.get (snd p) 30) = ipsc.ipscBurstVoiceHead /\
  ipsc.packetCallControl (snd p) = cc.

(** The packet of the tests of the package: 54 bytes, source 100,
    destination 200, call control 0xAAAA. *)
Definition makeTestIPSCPacket (packetType burstType : Z) (groupCall slot : bool)
    (callInfo : Z) : list byte :=
  [byte.of_Z packetType] ++ ipsc.be32 99999 ++ [Byte.x00]
    ++ ipsc.be24 100 ++ ipsc.be24 200
    ++ [byte.of_Z (if groupCall then 0x02 else 0x01)]
    ++ ipsc.be32 0xAAAA
    ++ [byte.of_Z (Z.lor (if slot then 0x20 else 0x00) callInfo)]
    ++ [byte.of_Z 0x80] ++ Slice.make 11 ++ [byte.of_Z burstType]
    ++ Slice.make 23.

Definition makeTestHBRPPacket (groupCall slot : bool) (frameType dtype : Z)
  : proto.Packet :=
  {| proto.Signature := str "DMRD"; proto.Seq := 0; proto.Src := 100;
     proto.Dst := 200; proto.Repeater := 3001; proto.Slot := slot;
     proto.GroupCall := groupCall; proto.FrameType := frameType;
     proto.DTypeOrVSeq := dtype; proto.StreamID := 0x1234;
     proto.DMRData := Slice.make 33 |}.

(** An allocator and a dialect to run the examples with. *)
Definition counting (n : nat) : Z := 1000 + Z.of_nat n.

Definition burstsFrom8 (letter : Z) : Z := 0x08 + letter.

Definition lettersFrom8 (burst : Z) : option Z :=
  if (0x08 <=? burst) && (burst <? 0x0E) then Some (burst - 0x08) else None.

Definition newTestTranslator : ipsc.IPSCTranslator :=
  ipsc.SetPeerID ipsc.NewIPSCTranslator 12345.

Section TranslatorData.

Import ipsc.

(** The three headers of the tests, without the end-of-call flag. *)
Definition threeHeaders : list (Z * list byte) :=
  repeat (0x80, makeTestIPSCPacket 0x80 0x01 true false 0x00) 3.


(** Two identical voice-head packets that carry the end-of-call flag. *)
Definition endedHeaders : list (Z * list byte) :=
  repeat (0x80, makeTestIPSCPacket 0x80 0x01 true false 0x40) 2.

End TranslatorData.

Section WireData.

Import Slice proto.

(** A frame that came off the wire. *)
Definition wireFrame : list byte :=
  str "DMRD" ++ map (fun i => byte.of_Z (Z.of_nat (7 * i + 3))) (seq 0 51).

End WireData.

(** Every rune of the strings of a configuration is one byte long. *)
Definition byte_runes (c : config.HBRP) : Prop :=
  utf8.RuneCountInString (config.Callsign c) = length (config.Callsign c) /\
  utf8.RuneCountInString (config.Location c) = length (config.Location c) /\
  utf8.RuneCountInString (config.Description c)
  = length (config.Description c) /\
  utf8.RuneCountInString (config.URL c) = length (config.URL c).

(** The numbers of a configuration are unsigned. *)
Definition unsigned_numbers (c : config.HBRP) : Prop :=
  0 <= config.ID c /\ 0 <= config.RXFreq c /\ 0 <= config.TXFreq c /\
  0 <= config.TXPower c /\ 0 <= config.ColorCode c /\ 0 <= config.Height c.

(** A string in its field: the whole string, then spaces up to [w]
    runes. *)
Definition left_padded (w : nat) (s field : list byte) : Prop :=
  field = s ++ repeat gofmt.space (w - utf8.RuneCountInString s).

(** A number in its field: digits that stand for the number, [w] of
    them at least, with no zero in front beyond the [w]th. *)
Definition numeral (base : Z) (w : nat) (u : Z) (field : list byte) : Prop :=
  Forall (digit_of base) field /\ number base field = u /\
  (w <= length field)%nat /\
  ((w < length field)%nat -> digit_value (hd gofmt.zero field) <> 0).

(** The configuration of the tests with a callsign of nine letters and
    a power of three digits. *)
Definition longHBRP : config.HBRP :=
  {| config.Callsign := str "N0CALLXYZ"; config.ID := 311860;
     config.RXFreq := 449000000; config.TXFreq := 444000000;
     config.TXPower := 100; config.ColorCode := 1;
     config.Latitude := S754_finite false 4925812092436480 (-47);
     config.Longitude := S754_finite true 6825768185233408 (-46);
     config.Height := 30;
     config.Location := str "Oklahoma";
     config.Description := str "Test Repeater";
     config.URL := str "https://example.com";
     config.MasterServer := str "master.example.com:62030";
     config.Password := str "s3cret" |}.

Definition longClient : hbrp.HBRPClient :=
  {| hbrp.cfg := {| config.LogLevel := config.LogLevelInfo;
                    config.hbrp := longHBRP; config.ipsc := testIPSC |};
     hbrp.connTX := [] |}.

(** The absolute value of a finite float64 [m * 2^e] times [2^1074]: an
    integer, as no exponent of a float64 is below -1074. *)
Definition scaled (m : positive) (e : Z) : Z := Z.pos m * 2 ^ (e + 1074).

(** A coordinate within [b] degrees of zero, or no number at all. *)
Definition within (b : Z) (x : spec_float) : Prop :=
  match x with
  | S754_nan => True
  | S754_zero _ => True
  | S754_infinity _ => False
  | S754_finite _ m e => scaled m e <= b * 2 ^ 1074
  end.

(** A float64 in normal form. *)
Definition float64 (x : spec_float) : Prop := valid_binary 53 1024 x = true.

(** The four log levels. *)
Definition known_levels : list (list byte) :=
  [config.LogLevelDebug; config.LogLevelInfo; config.LogLevelWarn;
   config.LogLevelError].

(** An IPSC block that passes: an interface of the host, an address, a
    subnet mask of 1 to 32 bits, a key of at most forty hexadecimal
    characters that is not empty when authentication is enabled. *)
Definition ipsc_ok (LinkByName : list byte -> bool) (i : config.IPSC) : Prop :=
  config.Interface i <> [] /\ LinkByName (config.Interface i) = true /\
  config.IP i <> [] /\ 1 <= config.SubnetMask i <= 32 /\
  hex_key (config.Key (config.Auth i)) /\
  (config.Enabled (config.Auth i) = true -> config.Key (config.Auth i) <> []).

(** A configuration of the first revision that passes. *)
Definition accepted (LinkByName : list byte -> bool) (c : config.Config)
  : Prop :=
  In (config.LogLevel c) known_levels /\
  config.Callsign (config.hbrp c) <> [] /\
  config.ColorCode (config.hbrp c) <= 15 /\
  within 180 (config.Longitude (config.hbrp c)) /\
  within 90 (config.Latitude (config.hbrp c)) /\
  config.MasterServer (config.hbrp c) <> [] /\
  config.Password (config.hbrp c) <> [] /\
  ipsc_ok LinkByName (config.ipsc c).

(** A rewrite rule that passes: both slots 1 or 2, a range of one at
    least. *)
Definition rule_ok (r : config2.RewriteConfig) : Prop :=
  (config2.FromSlot r = 1 \/ config2.FromSlot r = 2) /\
  (config2.ToSlot r = 1 \/ config2.ToSlot r = 2) /\
  1 <= config2.Range r.

(** The slots of a rule, as [validateRewrites] tests them. *)
Definition slots_ok (r : config2.RewriteConfig) : bool :=
  config2.validateSlot (config2.FromSlot r)
  && config2.validateSlot (config2.ToSlot r).

(** The rules of a network in the order [validateRewrites] visits
    them. *)
Definition rules (h : config2.MMDVM) : list config2.RewriteConfig :=
  config2.TGRewrites h ++ config2.PCRewrites h ++ config2.TypeRewrites h
  ++ config2.SrcRewrites h.

(** A network that passes. *)
Definition network_ok (h : config2.MMDVM) : Prop :=
  config2.Name h <> [] /\ config2.Callsign h <> [] /\
  config2.ColorCode h <= 15 /\
  within 180 (config2.Longitude h) /\ within 90 (config2.Latitude h) /\
  config2.MasterServer h <> [] /\ config2.Password h <> [] /\
  Forall rule_ok (rules h).

(** A configuration of the second revision that passes. *)
Definition accepted2 (LinkByName : list byte -> bool) (c : config2.Config)
  : Prop :=
  In (config2.LogLevel c) known_levels /\
  config2.MMDVMs c <> [] /\
  NoDup (map config2.Name (config2.MMDVMs c)) /\
  Forall network_ok (config2.MMDVMs c) /\
  ipsc_ok LinkByName (config2.ipsc c).

(** The coordinates of a network are float64 in normal form. *)
Definition float64_coordinates (h : config2.MMDVM) : Prop :=
  float64 (config2.Longitude h) /\ float64 (config2.Latitude h).

(** The first revision's radio block as the one network of the second
    revision, without rewrite rules. *)
Definition asNetwork (name : list byte) (h : config.HBRP) : config2.MMDVM :=
  {| config2.Name := name; config2.Callsign := config.Callsign h;
     config2.ID := config.ID h; config2.RXFreq := config.RXFreq h;
     config2.TXFreq := config.TXFreq h; config2.TXPower := config.TXPower h;
     config2.ColorCode := config.ColorCode h;
     config2.Latitude := config.Latitude h;
     config2.Longitude := config.Longitude h;
     config2.Height := config.Height h; config2.Location := config.Location h;
     config2.Description := config.Description h; config2.URL := config.URL h;
     config2.Slots := 0;
     config2.MasterServer := config.MasterServer h;
     config2.Password := config.Password h;
     config2.TGRewrites := []; config2.PCRewrites := [];
     config2.TypeRewrites := []; config2.SrcRewrites := [] |}.

Definition asConfig2 (name : list byte) (c : config.Config) : config2.Config :=
  {| config2.LogLevel := config.LogLevel c;
     config2.MMDVMs := [asNetwork name (config.hbrp c)];
     config2.ipsc := config.ipsc c |}.

(** The errors of the radio block under their names in the second
    revision. *)
Definition renamed (e : config.error) : config.error :=
  match e with
  | config.ErrInvalidHBRPCallsign => config.ErrInvalidMMDVMCallsign
  | config.ErrInvalidHBRPColorCode => config.ErrInvalidMMDVMColorCode
  | config.ErrInvalidHBRPLongitude => config.ErrInvalidMMDVMLongitude
  | config.ErrInvalidHBRPLatitude => config.ErrInvalidMMDVMLatitude
  | config.ErrInvalidHBRPMasterServer => config.ErrInvalidMMDVMMasterServer
  | config.ErrInvalidHBRPPassword => config.ErrInvalidMMDVMPassword
  | e => e
  end.

(** Two rules that pass, a rule with a slot 3 and a range of 0, and a
    rule with good slots and a range of 0. *)
Definition goodRules : list config2.RewriteConfig :=
  [ {| config2.FromSlot := 1; config2.From := 9; config2.ToSlot := 2;
       config2.To := 91; config2.Range := 1 |};
    {| config2.FromSlot := 2; config2.From := 1000; config2.ToSlot := 1;
       config2.To := 2000; config2.Range := 10 |} ].

Definition slot3Rule : config2.RewriteConfig :=
  {| config2.FromSlot := 3; config2.From := 9; config2.ToSlot := 1;
     config2.To := 9; config2.Range := 0 |}.

Definition range0Rule : config2.RewriteConfig :=
  {| config2.FromSlot := 1; config2.From := 9; config2.ToSlot := 1;
     config2.To := 9; config2.Range := 0 |}.

(** A network with these rules: one of the first kind, one of the
    second, the two bad ones of the third and the fourth kind. *)
Definition ruleNetwork : config2.MMDVM :=
  {| config2.Name := str "BM"; config2.Callsign := str "N0CALL";
     config2.ID := 12345; config2.RXFreq := 0; config2.TXFreq := 0;
     config2.TXPower := 0; config2.ColorCode := 7;
     config2.Latitude := S754_zero false; config2.Longitude := S754_zero false;
     config2.Height := 0; config2.Location := []; config2.Description := [];
     config2.URL := []; config2.Slots := 3;
     config2.MasterServer := str "master.example.com:62030";
     config2.Password := str "password";
     config2.TGRewrites := take 1 goodRules;
     config2.PCRewrites := drop 1 goodRules;
     config2.TypeRewrites := [slot3Rule];
     config2.SrcRewrites := [range0Rule] |}.

(** A float64 with a numeric value: a zero or [m * 2^e]. *)
Definition is_number (v : spec_float) : Prop :=
  match v with
  | S754_zero _ | S754_finite _ _ _ => True
  | _ => False
  end.

(** Thirty degrees and a half, south. *)
Definition south30 : spec_float := S754_finite true 8584986789675008 (-48).

(** The numeric fields of a frame are unsigned. *)
Definition unsigned_fields (p : proto.Packet) : Prop :=
  0 <= proto.Seq p /\ 0 <= proto.Src p /\ 0 <= proto.Dst p /\
  0 <= proto.Repeater p /\ 0 <= proto.FrameType p /\ 0 <= proto.StreamID p.

(** The nine fields [String] prints. *)
Definition printed_fields (p : proto.Packet)
  : Z * Z * Z * Z * bool * bool * Z * Z * list byte :=
  (proto.Seq p, proto.Src p, proto.Dst p, proto.Repeater p, proto.Slot p,
   proto.GroupCall p, proto.FrameType p, proto.StreamID p, proto.DMRData p).

(** The sample frame under another signature and with another data
    type. *)
Definition relabelled : proto.Packet :=
  {| proto.Signature := str "XXXX"; proto.Seq := 42; proto.Src := 123456;
     proto.Dst := 654321; proto.Repeater := 3001; proto.Slot := true;
     proto.GroupCall := true; proto.FrameType := 1; proto.DTypeOrVSeq := 9;
     proto.StreamID := 0xDEADBEEF;
     proto.DMRData := map (fun i => byte.of_Z (Z.of_nat i)) (seq 0 33) |}.

(** * Part III: the theory *)

(** ** Slices *)

Section SliceFacts.

Import Slice.

Lemma length_make n : length (make n) = n.
Proof. apply repeat_length. Qed.

Lemma length_copy dst src : length (copy dst src) = length dst.
Proof. unfold copy. rewrite length_app, length_take, length_drop. lia. Qed.

Lemma length_sub data lo hi :
  (hi <= length data)%nat -> length (sub data lo hi) = (hi - lo)%nat.
Proof. intros H. unfold sub. rewrite length_take, length_drop. lia. Qed.

Lemma length_copy_into data lo hi src :
  (lo <= hi)%nat -> (hi <= length data)%nat ->
  length (copy_into data lo hi src) = length data.
Proof.
  intros H1 H2. unfold copy_into.
  rewrite !length_app, length_copy, length_sub, length_take, length_drop
    by assumption.
  lia.
Qed.

(** A copy from a source as long as the destination is the source. *)
Lemma copy_same_length dst src :
  length dst = length src -> copy dst src = src.
Proof.
  intros H. unfold copy. rewrite H, firstn_all, drop_ge by lia.
  apply app_nil_r.
Qed.

(** A copy into a destination that the source fills leaves a prefix of
    the source. *)
Lemma copy_longer dst src :
  (length dst <= length src)%nat -> copy dst src = take (length dst) src.
Proof.
  intros H. unfold copy. rewrite drop_ge by assumption. apply app_nil_r.
Qed.

End SliceFacts.

(** ** Bytes *)

Lemma u8_of_Z z : u8 (byte.of_Z z) = z mod 2 ^ 8.
Proof. apply byte.unsigned_of_Z. Qed.

Lemma u8_range b : 0 <= u8 b < 2 ^ 8.
Proof. apply byte.unsigned_range. Qed.

Lemma of_Z_u8 b : byte.of_Z (u8 b) = b.
Proof. apply byte.of_Z_unsigned. Qed.

Lemma u8_bor a b : u8 (bor a b) = Z.lor (u8 a) (u8 b).
Proof.
  unfold bor. rewrite u8_of_Z.
  pose proof (u8_range a) as Ha. pose proof (u8_range b) as Hb.
  rewrite <- (Z.mod_small (u8 a) (2 ^ 8)) by lia.
  rewrite <- (Z.mod_small (u8 b) (2 ^ 8)) by lia.
  rewrite <- !Z.land_ones by lia.
  Z.bitblast.
Qed.

(** Three and four bytes, most significant first, give the value back
    up to the width. *)
Lemma be24_split x :
  Z.lor (Z.lor (Z.shiftl (Z.shiftr x 16 mod 2 ^ 8) 16)
               (Z.shiftl (Z.shiftr x 8 mod 2 ^ 8) 8))
        (x mod 2 ^ 8) = x mod 2 ^ 24.
Proof. rewrite <- !Z.land_ones by lia. Z.bitblast. Qed.

Lemma be32_split x :
  Z.lor (Z.lor (Z.lor (Z.shiftl (Z.shiftr x 24 mod 2 ^ 8) 24)
                      (Z.shiftl (Z.shiftr x 16 mod 2 ^ 8) 16))
               (Z.shiftl (Z.shiftr x 8 mod 2 ^ 8) 8))
        (x mod 2 ^ 8) = x mod 2 ^ 32.
Proof. rewrite <- !Z.land_ones by lia. Z.bitblast. Qed.

(** The two masks [Decode] tests, as bit tests. *)
Lemma land1_testbit b : negb (Z.land b 0x1 =? 0) = Z.testbit b 0.
Proof.
  change 0x1 with (Z.ones 1). rewrite Z.land_ones by lia.
  change (2 ^ 1) with 2. rewrite <- Z.bit0_mod.
  destruct (Z.testbit b 0); reflexivity.
Qed.

Lemma land2_testbit b : negb (Z.land b 0x2 =? 0) = Z.testbit b 1.
Proof.
  assert (E : Z.land b 0x2 = Z.shiftl (Z.land (Z.shiftr b 1) (Z.ones 1)) 1).
  { change 0x2 with (Z.shiftl (Z.ones 1) 1). Z.bitblast. }
  rewrite E, Z.land_ones, Z.shiftr_div_pow2, Z.shiftl_mul_pow2 by lia.
  destruct (Z.testbit b 1) eqn:T.
  - apply Z.testbit_true in T; [|lia]. change (2 ^ 1) with 2 in *.
    rewrite T. reflexivity.
  - apply Z.testbit_false in T; [|lia]. change (2 ^ 1) with 2 in *.
    rewrite T. reflexivity.
Qed.

(** ** The flags byte *)

Lemma pack_bit0 x y ft dt :
  Z.land (pack x y ft dt) (Z.ones 1) = Z.land x (Z.ones 1).
Proof. unfold pack. Z.bitblast. Qed.

Lemma pack_bit1 x y ft dt :
  Z.land (pack x y ft dt) (Z.shiftl (Z.ones 1) 1)
  = Z.shiftl (Z.land y (Z.ones 1)) 1.
Proof. unfold pack. Z.bitblast. Qed.

Lemma pack_bits23 x y ft dt :
  Z.shiftr (Z.land (pack x y ft dt) (Z.shiftl (Z.ones 2) 2)) 2
  = Z.land ft (Z.ones 2).
Proof. unfold pack. Z.bitblast. Qed.

Lemma pack_bits47 x y ft dt :
  Z.shiftr (Z.land (pack x y ft dt) (Z.shiftl (Z.ones 4) 4)) 4
  = Z.land dt (Z.ones 4).
Proof. unfold pack. Z.bitblast. Qed.

Lemma pack_high x y ft dt : Z.shiftr (pack x y ft dt) 4 = Z.land dt (Z.ones 4).
Proof. unfold pack. Z.bitblast. Qed.

Lemma pack_mid x y ft dt :
  Z.land (Z.shiftr (pack x y ft dt) 2) (Z.ones 2) = Z.land ft (Z.ones 2).
Proof. unfold pack. Z.bitblast. Qed.

Lemma pack_of_bors x y ft dt :
  Z.lor (Z.lor (Z.lor (Z.lor 0 (Z.land x (Z.ones 1)))
                      (Z.shiftl (Z.land y (Z.ones 1)) 1))
               (Z.land (Z.shiftl (Z.land ft (Z.ones 2)) 2) (Z.ones 8)))
        (Z.land (Z.shiftl (Z.land dt (Z.ones 4)) 4) (Z.ones 8))
  = pack x y ft dt.
Proof. unfold pack. Z.bitblast. Qed.

(** The sum the packed fields stand for. *)
Lemma pack_sum x y ft dt :
  pack x y ft dt = x mod 2 + 2 * (y mod 2) + 4 * (ft mod 4) + 16 * (dt mod 16).
Proof.
  unfold pack.
  rewrite <- !Z.lxor_lor, <- !Z.add_nocarry_lxor by Z.bitblast.
  rewrite !Z.land_ones, !Z.shiftl_mul_pow2 by lia.
  change (2 ^ 1) with 2. change (2 ^ 2) with 4. change (2 ^ 4) with 16. lia.
Qed.

Section Codec.

Import Slice proto.

Lemma u8_flags p :
  u8 (flags p) =
  pack (Z.b2z (Slot p)) (Z.b2z (negb (GroupCall p)))
       (FrameType p) (DTypeOrVSeq p).
Proof.
  rewrite <- pack_of_bors. unfold flags.
  destruct (Slot p), (GroupCall p); cbn [negb Z.b2z];
    rewrite ?u8_bor, ?u8_of_Z, <- ?(Z.land_ones _ 8) by lia; reflexivity.
Qed.

Lemma flags_slot p : Z.testbit (u8 (flags p)) 0 = Slot p.
Proof.
  rewrite <- land1_testbit, u8_flags. change 0x1 with (Z.ones 1).
  rewrite pack_bit0. destruct (Slot p); reflexivity.
Qed.

Lemma flags_private p : Z.testbit (u8 (flags p)) 1 = negb (GroupCall p).
Proof.
  rewrite <- land2_testbit, u8_flags. change 0x2 with (Z.shiftl (Z.ones 1) 1).
  rewrite pack_bit1. destruct (GroupCall p); reflexivity.
Qed.

Lemma flags_frameType p :
  Z.shiftr (Z.land (u8 (flags p)) 0xC) 2 = FrameType p mod 4.
Proof.
  rewrite u8_flags. change 0xC with (Z.shiftl (Z.ones 2) 2).
  rewrite pack_bits23, Z.land_ones by lia. reflexivity.
Qed.

Lemma flags_dtype p :
  Z.shiftr (Z.land (u8 (flags p)) 0xF0) 4 = DTypeOrVSeq p mod 16.
Proof.
  rewrite u8_flags. change 0xF0 with (Z.shiftl (Z.ones 4) 4).
  rewrite pack_bits47, Z.land_ones by lia. reflexivity.
Qed.

(** The 53 bytes of [Encode]: what [copy] left of the signature, the
    sixteen bytes of the header fields, what [copy] left of the payload. *)
Lemma Encode_shape p :
  exists s0 s1 s2 s3 d,
    length d = 33%nat /\
    copy (make 4) (Signature p) = [s0; s1; s2; s3] /\
    copy (make 33) (DMRData p) = d /\
    Encode p =
      [s0; s1; s2; s3] ++
      [byte.of_Z (Seq p);
       byte.of_Z (Z.shiftr (Src p) 16); byte.of_Z (Z.shiftr (Src p) 8);
       byte.of_Z (Src p);
       byte.of_Z (Z.shiftr (Dst p) 16); byte.of_Z (Z.shiftr (Dst p) 8);
       byte.of_Z (Dst p);
       byte.of_Z (Z.shiftr (Repeater p) 24);
       byte.of_Z (Z.shiftr (Repeater p) 16);
       byte.of_Z (Z.shiftr (Repeater p) 8); byte.of_Z (Repeater p);
       flags p;
       byte.of_Z (Z.shiftr (StreamID p) 24);
       byte.of_Z (Z.shiftr (StreamID p) 16);
       byte.of_Z (Z.shiftr (StreamID p) 8); byte.of_Z (StreamID p)] ++ d.
Proof.
  pose proof (length_copy (make 4) (Signature p)) as Hs.
  pose proof (length_copy (make 33) (DMRData p)) as Hd.
  rewrite length_make in Hs, Hd.
  destruct (copy (make 4) (Signature p))
    as [|s0 [|s1 [|s2 [|s3 [|]]]]] eqn:Es; try discriminate.
  exists s0, s1, s2, s3, (copy (make 33) (DMRData p)).
  split; [assumption|]. split; [reflexivity|]. split; [reflexivity|].
  unfold Encode.
  change (copy_into (make 53) 0 4 (Signature p))
    with (copy (make 4) (Signature p) ++ make 49).
  rewrite Es.
  cbn -[byte.of_Z flags Z.shiftr copy].
  rewrite app_nil_r. reflexivity.
Qed.

Lemma Encode_length p : length (Encode p) = 53%nat.
Proof.
  destruct (Encode_shape p) as (s0 & s1 & s2 & s3 & d & Hd & _ & _ & ->).
  rewrite !length_app, Hd. reflexivity.
Qed.

Lemma Encode_flags p : get (Encode p) 15 = flags p.
Proof.
  destruct (Encode_shape p) as (s0 & s1 & s2 & s3 & d & Hd & _ & _ & ->).
  reflexivity.
Qed.

Lemma Decode_Encode p : Decode (Encode p) = (truncated p, true).
Proof.
  destruct (Encode_shape p) as (s0 & s1 & s2 & s3 & d & Hd & Hs & Hc & ->).
  unfold truncated. rewrite Hs, Hc. clear Hs Hc.
  explode_list d Hd.
  unfold Decode, at_.
  cbn [length app Nat.ltb Nat.leb get nth sub take drop Nat.sub copy make
       repeat fst snd].
  rewrite !u8_of_Z, be24_split, be24_split, be32_split, be32_split.
  rewrite land1_testbit, land2_testbit.
  rewrite flags_slot, flags_private, flags_frameType, flags_dtype.
  destruct (Slot p), (GroupCall p); reflexivity.
Qed.

End Codec.

(** ** The DMRD codec: round trip, accepted lengths, flags *)

Section CodecProperties.

Import Slice proto.

Example sample_roundtrip :
  Decode (Encode samplePacket) = (samplePacket, true).
Proof. vm_compute. reflexivity. Qed.

(** [Equal] decides equality of frames. *)
Lemma Equal_true p q : Equal p q = true <-> p = q.
Proof.
  unfold Equal, streq. split.
  - destruct p, q; cbn.
    repeat match goal with
    | |- context [bool_decide ?P] => destruct (bool_decide_reflect P)
    | |- context [Z.eqb ?a ?b] => destruct (Z.eqb_spec a b)
    | |- context [eqb ?a ?b] => destruct (eqb_spec a b)
    end; cbn; try discriminate.
    intros _. congruence.
  - intros ->. destruct q; cbn.
    rewrite !bool_decide_eq_true_2, !Z.eqb_refl, !eqb_reflx by reflexivity.
    reflexivity.
Qed.

Lemma truncated_id f :
  listed_ranges f -> 0 <= StreamID f < 2 ^ 32 -> array33 f -> truncated f = f.
Proof.
  intros (Hs & Hq & Hsrc & Hdst & Hr & Hft & Hdt) Hid Hd.
  unfold truncated, array33 in *. destruct f.
  cbn [Signature Seq Src Dst Repeater Slot GroupCall FrameType DTypeOrVSeq
       StreamID DMRData] in *.
  rewrite !copy_same_length by (rewrite length_make; congruence).
  rewrite !Z.mod_small by lia. reflexivity.
Qed.

(** C1: for every DMRD frame whose fields are in their valid ranges,
    the listed ones and the stream ID, a 32-bit number, [Encode] gives
    exactly 53 bytes and [Decode] of them succeeds and gives the frame
    back. *)
Theorem Decode_Encode_in_range (f : Packet) :
  listed_ranges f -> 0 <= StreamID f < 2 ^ 32 -> array33 f ->
  length (Encode f) = 53%nat /\
  Decode (Encode f) = (f, true) /\
  Equal (fst (Decode (Encode f))) f = true.
Proof.
  intros Hr Hid Hd. split; [apply Encode_length|].
  rewrite Decode_Encode, truncated_id by assumption.
  split; [reflexivity|]. apply Equal_true. reflexivity.
Qed.

Lemma samplePacket_ranges :
  listed_ranges samplePacket /\ 0 <= StreamID samplePacket < 2 ^ 32 /\
  array33 samplePacket.
Proof. unfold listed_ranges, array33. cbn. repeat split; lia. Qed.

Lemma Decode_Encode_in_range_witness :
  length (Encode samplePacket) = 53%nat /\
  Decode (Encode samplePacket) = (samplePacket, true) /\
  Equal (fst (Decode (Encode samplePacket))) samplePacket = true.
Proof.
  apply (Decode_Encode_in_range samplePacket).
  - exact (proj1 samplePacket_ranges).
  - exact (proj1 (proj2 samplePacket_ranges)).
  - exact (proj2 (proj2 samplePacket_ranges)).
Defined.

(** C8: for every frame, [Decode] of [Encode] succeeds and gives the
    numeric fields modulo the width they have on the wire, with the
    slot, the call type and the payload unchanged. *)
Theorem Encode_truncates (p : Packet) :
  array33 p ->
  exists q,
    Decode (Encode p) = (q, true) /\
    Seq q = Seq p mod 2 ^ 8 /\
    Src q = Src p mod 2 ^ 24 /\
    Dst q = Dst p mod 2 ^ 24 /\
    Repeater q = Repeater p mod 2 ^ 32 /\
    FrameType q = FrameType p mod 4 /\
    DTypeOrVSeq q = DTypeOrVSeq p mod 16 /\
    StreamID q = StreamID p mod 2 ^ 32 /\
    Slot q = Slot p /\ GroupCall q = GroupCall p /\ DMRData q = DMRData p.
Proof.
  intros Hd. exists (truncated p). rewrite Decode_Encode.
  repeat split. unfold truncated. cbn [DMRData].
  apply copy_same_length. rewrite length_make. symmetry. exact Hd.
Qed.

Lemma Encode_truncates_witness :
  exists q,
    Decode (Encode overflowing) = (q, true) /\
    Seq q = 0x1FF mod 2 ^ 8 /\
    Src q = 0x1ABCDEF mod 2 ^ 24 /\
    Dst q = 0xFF000001 mod 2 ^ 24 /\
    Repeater q = 0x1FFFFFFFF mod 2 ^ 32 /\
    FrameType q = 7 mod 4 /\
    DTypeOrVSeq q = 0x1F mod 16 /\
    StreamID q = 0xABCDEF0123456789 mod 2 ^ 32 /\
    Slot q = false /\ GroupCall q = false /\ DMRData q = make 33.
Proof. apply (Encode_truncates overflowing). reflexivity. Defined.

Example overflowing_decoded :
  fst (Decode (Encode overflowing)) =
  {| Signature := str "DMRD"; Seq := 0xFF; Src := 0xABCDEF; Dst := 1;
     Repeater := 0xFFFFFFFF; Slot := false; GroupCall := false;
     FrameType := 3; DTypeOrVSeq := 0xF; StreamID := 0x23456789;
     DMRData := make 33 |}.
Proof. vm_compute. reflexivity. Qed.

(** [Decode] on an input of an accepted length. *)
Lemma Decode_accepts data :
  (53 <= length data <= 55)%nat -> snd (Decode data) = true.
Proof.
  intros H. unfold Decode.
  destruct (Nat.ltb_spec (length data) 53); [lia|].
  destruct (Nat.ltb_spec 55 (length data)); [lia|]. reflexivity.
Qed.

Lemma Decode_rejects data :
  ~ (53 <= length data <= 55)%nat -> Decode data = (zero, false).
Proof.
  intros H. unfold Decode.
  destruct (Nat.ltb_spec (length data) 53); [reflexivity|].
  destruct (Nat.ltb_spec 55 (length data)); [reflexivity|]. lia.
Qed.

Lemma get_take data n i : (i < n)%nat -> get (take n data) i = get data i.
Proof.
  intros H. unfold get. revert n i H.
  induction data as [|b data IH]; intros [|n] [|i] H; cbn; try lia;
    try reflexivity.
  apply IH. lia.
Qed.

Lemma sub_take data n lo hi :
  (hi <= n)%nat -> sub (take n data) lo hi = sub data lo hi.
Proof.
  intros H. unfold sub.
  rewrite skipn_firstn_comm, take_take. f_equal. lia.
Qed.

(** C4: [Decode] succeeds exactly on the inputs of 53, 54 and 55 bytes,
    and on these the frame is the one of the first 53 bytes. *)
Theorem Decode_accept_window (data : list byte) :
  (snd (Decode data) = true <-> (53 <= length data <= 55)%nat) /\
  ((53 <= length data <= 55)%nat -> Decode data = Decode (take 53 data)).
Proof.
  split; [split|].
  - intros H.
    destruct (decide (53 <= length data <= 55)%nat) as [|N]; [assumption|].
    rewrite (Decode_rejects data N) in H. discriminate H.
  - apply Decode_accepts.
  - intros H. unfold Decode, at_.
    rewrite length_take.
    destruct (Nat.ltb_spec (length data) 53); [lia|].
    destruct (Nat.ltb_spec 55 (length data)); [lia|].
    replace (53 `min` length data)%nat with 53%nat by lia. cbn [Nat.ltb Nat.leb].
    rewrite !get_take, !sub_take by lia. reflexivity.
Qed.

(** The sample frame with two more bytes behind it. *)
Lemma Decode_accept_window_witness :
  Decode (Encode samplePacket ++ [byte.of_Z 1; byte.of_Z 2])
  = Decode (take 53 (Encode samplePacket ++ [byte.of_Z 1; byte.of_Z 2])).
Proof.
  apply (proj2 (Decode_accept_window
                  (Encode samplePacket ++ [byte.of_Z 1; byte.of_Z 2]))).
  vm_compute. lia.
Defined.

Example Decode_52 : Decode (make 52) = (zero, false).
Proof. reflexivity. Qed.

Example Decode_56 : Decode (make 56) = (zero, false).
Proof. reflexivity. Qed.

(** C9: [Decode] does not look at the signature: it succeeds on every
    input of 53 to 55 bytes and returns the first four bytes as the
    signature, whatever they are. *)
Theorem Decode_keeps_any_signature (data : list byte) :
  (53 <= length data <= 55)%nat ->
  snd (Decode data) = true /\ Signature (fst (Decode data)) = take 4 data.
Proof.
  intros H. split; [apply Decode_accepts; exact H|].
  unfold Decode.
  destruct (Nat.ltb_spec (length data) 53); [lia|].
  destruct (Nat.ltb_spec 55 (length data)); [lia|]. reflexivity.
Qed.

Lemma Decode_keeps_any_signature_witness :
  snd (Decode (str "XYZ!" ++ make 49)) = true /\
  Signature (fst (Decode (str "XYZ!" ++ make 49))) = str "XYZ!".
Proof.
  apply (Decode_keeps_any_signature (str "XYZ!" ++ make 49)).
  vm_compute. lia.
Defined.

Lemma shiftr_mask_2 b : Z.shiftr (Z.land b 0xC) 2 = Z.land (Z.shiftr b 2) 0x3.
Proof.
  change 0xC with (Z.shiftl (Z.ones 2) 2). change 0x3 with (Z.ones 2).
  Z.bitblast.
Qed.

Lemma shiftr_mask_4 b :
  0 <= b < 2 ^ 8 -> Z.shiftr (Z.land b 0xF0) 4 = Z.shiftr b 4.
Proof.
  intros H. rewrite <- (Z.mod_small b (2 ^ 8)) by lia.
  rewrite <- Z.land_ones by lia.
  change 0xF0 with (Z.shiftl (Z.ones 4) 4). Z.bitblast.
Qed.

(** C3: in byte 15 [Encode] puts the slot in bit 0, sets bit 1 exactly
    for a call that is not a group call, puts [FrameType & 0x3] in bits
    2 and 3 and [DTypeOrVSeq & 0xF] in bits 4 to 7; [Decode] reads the
    four fields back from the same bits, [GroupCall] being true exactly
    when bit 1 is clear. *)
Theorem flags_byte_layout :
  (forall p : Packet,
     let b := u8 (get (Encode p) 15) in
     Z.testbit b 0 = Slot p /\
     Z.testbit b 1 = negb (GroupCall p) /\
     Z.land (Z.shiftr b 2) 0x3 = Z.land (FrameType p) 0x3 /\
     Z.shiftr b 4 = Z.land (DTypeOrVSeq p) 0xF) /\
  (forall data : list byte,
     (53 <= length data <= 55)%nat ->
     let b := u8 (get data 15) in
     let q := fst (Decode data) in
     Slot q = Z.testbit b 0 /\
     GroupCall q = negb (Z.testbit b 1) /\
     FrameType q = Z.land (Z.shiftr b 2) 0x3 /\
     DTypeOrVSeq q = Z.shiftr b 4).
Proof.
  split.
  - intros p b. subst b. rewrite Encode_flags.
    split; [apply flags_slot|]. split; [apply flags_private|].
    rewrite u8_flags. change 0x3 with (Z.ones 2). change 0xF with (Z.ones 4).
    split; [apply pack_mid|apply pack_high].
  - intros data H b q. subst b q. unfold Decode.
    destruct (Nat.ltb_spec (length data) 53); [lia|].
    destruct (Nat.ltb_spec 55 (length data)); [lia|]. cbn [fst].
    cbn [Slot GroupCall FrameType DTypeOrVSeq].
    rewrite land1_testbit, land2_testbit, shiftr_mask_2.
    rewrite shiftr_mask_4 by apply u8_range.
    destruct (Z.testbit (u8 (get data 15)) 0),
             (Z.testbit (u8 (get data 15)) 1); repeat split.
Qed.

(** The flags byte of the test [TestEncodeBitFields]: slot 2, private,
    frame type 2, data type 5 give 0x5B, bit 0 upwards. *)
Example flags_5B :
  u8 (get (Encode {| Signature := str "DMRD"; Seq := 0; Src := 0; Dst := 0;
                     Repeater := 0; Slot := true; GroupCall := false;
                     FrameType := 2; DTypeOrVSeq := 5; StreamID := 0;
                     DMRData := make 33 |}) 15) = 0x5B.
Proof. vm_compute. reflexivity. Qed.

Lemma flags_byte_layout_witness :
  let data := Encode samplePacket in
  let b := u8 (get data 15) in
  let q := fst (Decode data) in
  Slot q = Z.testbit b 0 /\
  GroupCall q = negb (Z.testbit b 1) /\
  FrameType q = Z.land (Z.shiftr b 2) 0x3 /\
  DTypeOrVSeq q = Z.shiftr b 4.
Proof.
  apply (proj2 flags_byte_layout (Encode samplePacket)).
  vm_compute. lia.
Defined.

End CodecProperties.

(** ** Formatting: widths and values *)

Section FmtFacts.

Import gofmt.

Lemma digit_spec d :
  0 <= d < 16 -> digit_value (digit d) = d /\ lower_hex (digit d) = true.
Proof.
  intros H.
  assert (exists n, (n < 16)%nat /\ d = Z.of_nat n) as (n & Hn & ->)
    by (exists (Z.to_nat d); lia).
  do 16 (destruct n as [|n]; [split; reflexivity|]). lia.
Qed.

Lemma number_app base s c :
  number base (s ++ [c]) = number base s * base + digit_value c.
Proof. unfold number. rewrite fold_left_app. reflexivity. Qed.

Lemma number_zeros base n s :
  number base (repeat zero n ++ s) = number base s.
Proof.
  unfold number. rewrite fold_left_app. f_equal.
  induction n as [|n IH]; [reflexivity|]. cbn [repeat fold_left].
  change (digit_value zero) with 0. rewrite Z.mul_0_l, Z.add_0_l. exact IH.
Qed.

(** [digits_acc] puts the digits of [u] in front of [acc], given a step
    for every bit of [u]. *)
Lemma digits_acc_spec fuel : forall base u acc,
  2 <= base <= 16 -> 0 <= u < 2 ^ (Z.of_nat fuel + 1) ->
  exists ds,
    digits_acc fuel base u acc = ds ++ acc /\
    number base ds = u /\ Forall (digit_of base) ds /\ ds <> [].
Proof.
  induction fuel as [|fuel IH]; intros base u acc Hb Hu.
  - change (2 ^ (Z.of_nat 0 + 1)) with 2 in Hu.
    destruct (digit_spec u) as [Hv Hl]; [lia|].
    exists [digit u]. cbn [digits_acc app]. split; [reflexivity|].
    split; [unfold number; cbn [fold_left]; lia|].
    split; [|discriminate].
    constructor; [|constructor]. split; [exact Hl|lia].
  - cbn [digits_acc]. destruct (Z.leb_spec base u) as [Hle|Hlt].
    + assert (Hd : 0 <= u / base < 2 ^ (Z.of_nat fuel + 1)).
      { split; [apply Z.div_pos; lia|].
        apply Z.div_lt_upper_bound; [lia|].
        replace (Z.of_nat (S fuel) + 1) with (Z.succ (Z.of_nat fuel + 1)) in Hu
          by lia.
        rewrite Z.pow_succ_r in Hu by lia. nia. }
      destruct (IH base (u / base) (digit (u mod base) :: acc) Hb Hd)
        as (ds & E & Hn & Hf & _).
      pose proof (Z.mod_pos_bound u base ltac:(lia)) as Hm.
      destruct (digit_spec (u mod base)) as [Hv Hl]; [lia|].
      exists (ds ++ [digit (u mod base)]).
      rewrite E, <- app_assoc. split; [reflexivity|].
      split; [|split].
      * rewrite number_app, Hn, Hv.
        pose proof (Z.div_mod u base ltac:(lia)). lia.
      * apply Forall_app. split; [exact Hf|].
        constructor; [|constructor]. split; [exact Hl|lia].
      * intros N. apply app_eq_nil in N. destruct N as [_ N]. discriminate N.
    + destruct (digit_spec u) as [Hv Hl]; [lia|].
      exists [digit u]. split; [reflexivity|].
      split; [unfold number; cbn [fold_left]; lia|].
      split; [|discriminate].
      constructor; [|constructor]. split; [exact Hl|lia].
Qed.

Lemma digits_spec base u :
  2 <= base <= 16 -> 0 <= u ->
  number base (digits base u) = u /\ Forall (digit_of base) (digits base u)
  /\ digits base u <> [].
Proof.
  intros Hb Hu. unfold digits.
  destruct (digits_acc_spec (Z.to_nat (Z.log2 u)) base u [] Hb)
    as (ds & E & Hn & Hf & Hne).
  - split; [exact Hu|].
    rewrite Z2Nat.id by apply Z.log2_nonneg.
    destruct (Z.eq_dec u 0) as [->|Hz]; [reflexivity|].
    change (Z.log2 u + 1) with (Z.succ (Z.log2 u)).
    apply Z.log2_spec. lia.
  - rewrite E, app_nil_r. auto.
Qed.

(** A number below [base ^ k] has at most [k] digits. *)
Lemma digits_acc_length fuel : forall base u acc k,
  2 <= base -> 0 <= u < base ^ Z.of_nat k -> (1 <= k)%nat ->
  (length (digits_acc fuel base u acc) <= k + length acc)%nat.
Proof.
  induction fuel as [|fuel IH]; intros base u acc k Hb Hu Hk.
  - cbn [digits_acc length]. lia.
  - cbn [digits_acc]. destruct (Z.leb_spec base u) as [Hle|Hlt].
    + destruct k as [|[|k]]; [lia| |].
      * change (base ^ Z.of_nat 1) with (base ^ 1) in Hu.
        rewrite Z.pow_1_r in Hu. lia.
      * assert (Hd : 0 <= u / base < base ^ Z.of_nat (S k)).
        { split; [apply Z.div_pos; lia|].
          apply Z.div_lt_upper_bound; [lia|].
          rewrite (Nat2Z.inj_succ (S k)), Z.pow_succ_r in Hu by lia.
          exact (proj2 Hu). }
        specialize (IH base (u / base) (digit (u mod base) :: acc) (S k)
                       Hb Hd ltac:(lia)).
        cbn [length] in IH. lia.
    + cbn [length]. lia.
Qed.

Lemma digits_length base u k :
  2 <= base -> 0 <= u < base ^ Z.of_nat k -> (1 <= k)%nat ->
  (length (digits base u) <= k)%nat.
Proof.
  intros Hb Hu Hk. unfold digits.
  pose proof (digits_acc_length (Z.to_nat (Z.log2 u)) base u [] k Hb Hu Hk)
    as H.
  cbn [length] in H. lia.
Qed.

Lemma pad_zero_length w s :
  (length s <= w)%nat -> length (pad_zero w s) = w.
Proof.
  intros H. unfold pad_zero. rewrite length_app, repeat_length. lia.
Qed.

Lemma zero_digit base : 2 <= base -> digit_of base zero.
Proof. intros H. split; [reflexivity|]. change (digit_value zero) with 0. lia. Qed.

(** A zero-padded number: its width, its digits, its value. *)
Lemma padded_number base w u :
  2 <= base <= 16 -> 0 <= u < base ^ Z.of_nat w -> (1 <= w)%nat ->
  length (pad_zero w (digits base u)) = w /\
  Forall (digit_of base) (pad_zero w (digits base u)) /\
  number base (pad_zero w (digits base u)) = u.
Proof.
  intros Hb Hu Hw.
  destruct (digits_spec base u Hb (proj1 Hu)) as (Hn & Hf & _).
  split; [|split].
  - apply pad_zero_length. apply digits_length; [lia|exact Hu|exact Hw].
  - unfold pad_zero. apply Forall_app. split; [|exact Hf].
    generalize (w - length (digits base u))%nat. intros n.
    induction n as [|n IH]; constructor; [apply zero_digit; lia|exact IH].
  - unfold pad_zero. rewrite number_zeros. exact Hn.
Qed.

(** [%x] of a byte slice: two digits a byte, which read back. *)
Lemma x_bytes_length b : length (x_bytes b) = (2 * length b)%nat.
Proof.
  unfold x_bytes. induction b as [|c b IH]; [reflexivity|].
  cbn [flat_map length app]. rewrite IH. lia.
Qed.

Lemma nibbles c :
  0 <= Z.shiftr (u8 c) 4 < 16 /\ 0 <= Z.land (u8 c) 0xF < 16 /\
  16 * Z.shiftr (u8 c) 4 + Z.land (u8 c) 0xF = u8 c.
Proof.
  pose proof (u8_range c) as Hc.
  change 0xF with (Z.ones 4). rewrite Z.land_ones, Z.shiftr_div_pow2 by lia.
  change (2 ^ 4) with 16.
  pose proof (Z.div_mod (u8 c) 16 ltac:(lia)).
  pose proof (Z.mod_pos_bound (u8 c) 16 ltac:(lia)).
  lia.
Qed.

Lemma x_bytes_lower b : Forall (fun c => lower_hex c = true) (x_bytes b).
Proof.
  unfold x_bytes. induction b as [|c b IH]; [constructor|].
  cbn [flat_map app]. destruct (nibbles c) as (H1 & H2 & _).
  constructor; [|constructor; [|exact IH]].
  - exact (proj2 (digit_spec _ H1)).
  - exact (proj2 (digit_spec _ H2)).
Qed.

Lemma unhex_x_bytes b : unhex (x_bytes b) = b.
Proof.
  unfold x_bytes. induction b as [|c b IH]; [reflexivity|].
  cbn [flat_map app unhex]. rewrite IH. f_equal.
  destruct (nibbles c) as (H1 & H2 & E).
  destruct (digit_spec _ H1) as [E1 _]. destruct (digit_spec _ H2) as [E2 _].
  rewrite E1, E2, E. apply of_Z_u8.
Qed.

(** Runes and bytes: a rune takes a byte at least, and ASCII text has
    a rune for every byte. *)
Lemma count_from_le s : forall k, (utf8.count_from k s <= length s)%nat.
Proof.
  induction s as [|c s IH]; intros k; [cbn; lia|].
  cbn [utf8.count_from length]. destruct k as [|k].
  - specialize (IH (utf8.rune_size c s - 1)%nat). lia.
  - specialize (IH k). lia.
Qed.


Lemma pad_right_length_ge w s : (w <= length (pad_right w s))%nat.
Proof.
  unfold pad_right. rewrite length_app, repeat_length.
  pose proof (count_from_le s 0) as H. unfold utf8.RuneCountInString. lia.
Qed.


(** The first [w] bytes of a float printed at a width of [w]. *)
Lemma float_field_length w v : length (Slice.sub (f_left w v) 0 w) = w.
Proof.
  unfold Slice.sub, f_left. rewrite length_take, length_drop.
  pose proof (pad_right_length_ge w (float_f6 v)). lia.
Qed.

End FmtFacts.

(** ** The handshake packets *)

Section HandshakeProperties.

Import Slice hbrp.

(** The packets of the tests, byte for byte. *)
Example sendRPTC_test :
  connTX (sendRPTC testClient) =
  [str "RPTCN0CALL  0004c234449000000444000000500135.00000-97.00000030"
   ++ str "Oklahoma            Test Repeater       "
   ++ left_justified 124 (str "https://example.com")
   ++ repeat gofmt.space 80].
Proof. vm_compute. reflexivity. Qed.

Example sendRPTK_test :
  connTX (sendRPTK testClient (str "12345678")) =
  [str "RPTK0004c234"
   ++ str "a913b15f34e4f81c572f7856339a660a7d738b57acd7f34b3b655669d658618b"].
Proof. vm_compute. reflexivity. Qed.

Example sendLogin_test : connTX (sendLogin testClient) = [str "RPTL0004c234"].
Proof. vm_compute. reflexivity. Qed.

(** The constants of FIPS 180-4, sections 4.2.2 and 5.3.3. *)
Example sha256_constants :
  length sha256.K = 64%nat /\
  nth 0 sha256.K 0 = 0x428a2f98 /\ nth 63 sha256.K 0 = 0xc67178f2 /\
  sha256.init = sha256.mkState 0x6a09e667 0xbb67ae85 0x3c6ef372 0xa54ff53a
                               0x510e527f 0x9b05688c 0x1f83d9ab 0x5be0cd19.
Proof. vm_compute. repeat split. Qed.

(** FIPS 180-4, appendix B. *)
Example sha256_abc :
  gofmt.x_bytes (sha256.Sum256 (str "abc")) =
  str "ba7816bf8f01cfea414140de5dae2223b00361a396177a9cb410ff61f20015ad".
Proof. vm_compute. reflexivity. Qed.

Example sha256_two_blocks :
  gofmt.x_bytes
    (sha256.Sum256
       (str "abcdbcdecdefdefgefghfghighijhijkijkljklmklmnlmnomnopnopq")) =
  str "248d6a61d20638b8e5c026930c3e6039a33ce45964ff2167f6ecedd419db06c1".
Proof. vm_compute. reflexivity. Qed.

Lemma Sum256_length m : length (sha256.Sum256 m) = 32%nat.
Proof. reflexivity. Qed.

(** The hex ID is the ID in eight hexadecimal digits. *)
Lemma hexid_spec h :
  0 <= config.ID (config.hbrp (cfg h)) < 2 ^ 32 ->
  hexid h = gofmt.x_zero 8 (config.ID (config.hbrp (cfg h))) /\
  zero_padded 16 8 (config.ID (config.hbrp (cfg h))) (hexid h).
Proof.
  intros H.
  destruct (padded_number 16 8 (config.ID (config.hbrp (cfg h))))
    as (Hl & Hf & Hn); [lia|exact H|lia|].
  assert (E : hexid h = gofmt.x_zero 8 (config.ID (config.hbrp (cfg h)))).
  { unfold hexid, gofmt.x_zero. apply copy_same_length.
    rewrite length_make, Hl. reflexivity. }
  split; [exact E|]. rewrite E. unfold zero_padded, gofmt.x_zero. auto.
Qed.

(** The three copies of [sendRPTK] fill the 76 bytes. *)
Lemma rptk_layout (id token : list byte) :
  length id = 8%nat -> length token = 64%nat ->
  copy_from (copy_from (copy (make 76) (str "RPTK")) 4 id) 12 token
  = str "RPTK" ++ id ++ token.
Proof.
  intros Hi Ht. explode_list id Hi. explode_list token Ht. reflexivity.
Qed.

(** C5: for every nonce, [sendRPTK] sends one packet of 76 bytes: "RPTK",
    the repeater ID in eight zero-padded lower-case hexadecimal digits,
    and the SHA-256 digest of the nonce followed by the password in 64
    lower-case hexadecimal digits. *)
Theorem sendRPTK_packet (h : HBRPClient) (nonce : list byte) :
  0 <= config.ID (config.hbrp (cfg h)) < 2 ^ 32 ->
  exists id token,
    connTX (sendRPTK h nonce) = connTX h ++ [str "RPTK" ++ id ++ token] /\
    length (str "RPTK" ++ id ++ token) = 76%nat /\
    zero_padded 16 8 (config.ID (config.hbrp (cfg h))) id /\
    length token = 64%nat /\
    Forall (fun c => lower_hex c = true) token /\
    unhex token
    = sha256.Sum256 (nonce ++ config.Password (config.hbrp (cfg h))).
Proof.
  intros H. destruct (hexid_spec h H) as (_ & Hz).
  set (digest := sha256.Sum256 (nonce ++ config.Password (config.hbrp (cfg h)))).
  assert (Ht : length (gofmt.x_bytes digest) = 64%nat)
    by (rewrite x_bytes_length; reflexivity).
  exists (hexid h), (gofmt.x_bytes digest).
  split; [|split; [|split; [exact Hz|split; [exact Ht|split]]]].
  - unfold sendRPTK, send, sha256.Sum, sha256.Write, sha256.New.
    cbn [connTX app]. fold digest.
    change (copied _ (str "RPTK")) with 4%nat.
    change (length (str "RPTK") + 8 + 64)%nat with 76%nat.
    change (4 + 8)%nat with 12%nat.
    rewrite rptk_layout by (exact Ht || exact (proj1 Hz)). reflexivity.
  - rewrite !length_app, Ht, (proj1 Hz). reflexivity.
  - apply x_bytes_lower.
  - apply unhex_x_bytes.
Qed.

Lemma sendRPTK_packet_witness :
  exists id token,
    connTX (sendRPTK testClient (str "12345678"))
    = connTX testClient ++ [str "RPTK" ++ id ++ token] /\
    length (str "RPTK" ++ id ++ token) = 76%nat /\
    zero_padded 16 8 311860 id /\
    length token = 64%nat /\
    Forall (fun c => lower_hex c = true) token /\
    unhex token = sha256.Sum256 (str "12345678" ++ str "s3cret").
Proof.
  apply (sendRPTK_packet testClient (str "12345678")). cbn. lia.
Defined.


Lemma s_left_empty w : gofmt.s_left w [] = repeat gofmt.space w.
Proof.
  unfold gofmt.s_left, gofmt.pad_right. cbn [app utf8.RuneCountInString
    utf8.count_from]. rewrite Nat.sub_0_r. reflexivity.
Qed.





End HandshakeProperties.

(** ** The validator *)

Section ValidateProperties.

Import config.

Lemma match_upto_spec class n s :
  regexp.match_upto class n s = true <->
  (length s <= n)%nat /\ Forall (fun c => class c = true) s.
Proof.
  revert n. induction s as [|c s IH]; intros n.
  - cbn [regexp.match_upto length]. split.
    + intros _. split; [lia|apply List.Forall_nil].
    + intros _. reflexivity.
  - destruct n as [|n]; cbn [regexp.match_upto length].
    + split; [discriminate|]. intros [H _]. lia.
    + rewrite andb_true_iff, IH. split.
      * intros (Hc & Hl & Hf). split; [lia|apply List.Forall_cons; assumption].
      * intros (Hl & Hf). apply List.Forall_cons_iff in Hf.
        destruct Hf as [Hc Hf]. split; [exact Hc|]. split; [lia|exact Hf].
Qed.

Lemma hex_key_spec k :
  regexp.match_upto regexp.hex_class 40 k = true <-> hex_key k.
Proof. apply match_upto_spec. Qed.

Lemma streq_nil k : streq k [] = true <-> k = [].
Proof. unfold streq. apply bool_decide_eq_true. Qed.

(** The two checks on the key. *)
Lemma validateAuthKey_spec a :
  (validateAuthKey a = Some ErrInvalidIPSCAuthKey <->
   (Enabled a = true /\ Key a = []) \/ ~ hex_key (Key a)) /\
  (validateAuthKey a = None <->
   hex_key (Key a) /\ (Enabled a = true -> Key a <> [])).
Proof.
  unfold validateAuthKey.
  destruct (Enabled a) eqn:En; cbn [andb].
  - destruct (streq (Key a) []) eqn:Em.
    + apply streq_nil in Em. split.
      * split; [intros _; left; auto|reflexivity].
      * split; [discriminate|]. intros [_ H]. exfalso. apply H; auto.
    + assert (Key a <> []) as Hne.
      { intros E. apply streq_nil in E. congruence. }
      destruct (regexp.match_upto regexp.hex_class 40 (Key a)) eqn:Hm;
        cbn [negb].
      * apply hex_key_spec in Hm. split.
        -- split; [discriminate|]. intros [[_ E]|N]; contradiction.
        -- split; [intros _; auto|reflexivity].
      * assert (~ hex_key (Key a)) as N.
        { intros H. apply hex_key_spec in H. congruence. }
        split.
        -- split; [intros _; right; exact N|reflexivity].
        -- split; [discriminate|]. intros [H _]. contradiction.
  - destruct (regexp.match_upto regexp.hex_class 40 (Key a)) eqn:Hm;
      cbn [negb].
    + apply hex_key_spec in Hm. split.
      * split; [discriminate|]. intros [[E _]|N]; [discriminate|contradiction].
      * split; [intros _; split; [exact Hm|discriminate]|reflexivity].
    + assert (~ hex_key (Key a)) as N.
      { intros H. apply hex_key_spec in H. congruence. }
      split.
      * split; [intros _; right; exact N|reflexivity].
      * split; [discriminate|]. intros [H _]. contradiction.
Qed.

(** C7, as amended: for a configuration of either revision that passes
    every check before the key and has authentication enabled,
    [Validate] returns ErrInvalidIPSCAuthKey exactly when the key is
    empty or does not match the pattern, and no error exactly when the
    key is one to forty hexadecimal characters. *)
Theorem Validate_auth_enabled :
  (forall (LinkByName : list byte -> bool) (c : Config),
     validateBeforeAuth LinkByName c = None ->
     Enabled (Auth (ipsc c)) = true ->
     (Validate LinkByName c = Some ErrInvalidIPSCAuthKey <->
      Key (Auth (ipsc c)) = [] \/ ~ hex_key (Key (Auth (ipsc c)))) /\
     (Validate LinkByName c = None <->
      hex_key (Key (Auth (ipsc c))) /\ Key (Auth (ipsc c)) <> [])) /\
  (forall (LinkByName : list byte -> bool) (c : config2.Config),
     config2.validateBeforeAuth LinkByName c = None ->
     Enabled (Auth (config2.ipsc c)) = true ->
     (config2.Validate LinkByName c = Some ErrInvalidIPSCAuthKey <->
      Key (Auth (config2.ipsc c)) = []
      \/ ~ hex_key (Key (Auth (config2.ipsc c)))) /\
     (config2.Validate LinkByName c = None <->
      hex_key (Key (Auth (config2.ipsc c)))
      /\ Key (Auth (config2.ipsc c)) <> [])).
Proof.
  split; intros LinkByName c Hpre Hen.
  - unfold Validate. rewrite Hpre.
    destruct (validateAuthKey_spec (Auth (ipsc c))) as [He Hn].
    rewrite He, Hn. split; [|intuition].
    split; [intros [[_ E]|N]; auto|intros [E|N]; auto].
  - unfold config2.Validate. rewrite Hpre.
    destruct (validateAuthKey_spec (Auth (config2.ipsc c))) as [He Hn].
    rewrite He, Hn. split; [|intuition].
    split; [intros [[_ E]|N]; auto|intros [E|N]; auto].
Qed.

Lemma Validate_auth_enabled_witness :
  Validate onlyLo (withAuth validConfig deadbeef) = None /\
  config2.Validate onlyLo (withAuth2 validConfig2 deadbeef) = None.
Proof.
  split.
  - apply (proj1 Validate_auth_enabled onlyLo (withAuth validConfig deadbeef));
      [vm_compute; reflexivity|reflexivity|].
    split; [apply hex_key_spec; vm_compute; reflexivity|discriminate].
  - apply (proj2 Validate_auth_enabled onlyLo (withAuth2 validConfig2 deadbeef));
      [vm_compute; reflexivity|reflexivity|].
    split; [apply hex_key_spec; vm_compute; reflexivity|discriminate].
Defined.

(** C7, as stated, fails: with authentication enabled the empty key,
    which matches the pattern, is refused with ErrInvalidIPSCAuthKey, in
    both revisions. *)
Lemma Validate_empty_key_enabled :
  validateBeforeAuth onlyLo (withAuth validConfig emptyKey) = None /\
  config2.validateBeforeAuth onlyLo (withAuth2 validConfig2 emptyKey) = None /\
  Enabled emptyKey = true /\
  regexp.match_upto regexp.hex_class 40 (Key emptyKey) = true /\
  Validate onlyLo (withAuth validConfig emptyKey)
  = Some ErrInvalidIPSCAuthKey /\
  config2.Validate onlyLo (withAuth2 validConfig2 emptyKey)
  = Some ErrInvalidIPSCAuthKey.
Proof. repeat split; vm_compute; reflexivity. Qed.

(** C10: for a configuration of either revision that passes every check
    before the key and has authentication disabled, a key that does not
    match the pattern is still refused with ErrInvalidIPSCAuthKey. *)
Theorem Validate_auth_disabled :
  (forall (LinkByName : list byte -> bool) (c : Config),
     validateBeforeAuth LinkByName c = None ->
     Enabled (Auth (ipsc c)) = false ->
     ~ hex_key (Key (Auth (ipsc c))) ->
     Validate LinkByName c = Some ErrInvalidIPSCAuthKey) /\
  (forall (LinkByName : list byte -> bool) (c : config2.Config),
     config2.validateBeforeAuth LinkByName c = None ->
     Enabled (Auth (config2.ipsc c)) = false ->
     ~ hex_key (Key (Auth (config2.ipsc c))) ->
     config2.Validate LinkByName c = Some ErrInvalidIPSCAuthKey).
Proof.
  split; intros LinkByName c Hpre Hen Hk.
  - unfold Validate. rewrite Hpre.
    apply (proj1 (validateAuthKey_spec (Auth (ipsc c)))). right. exact Hk.
  - unfold config2.Validate. rewrite Hpre.
    apply (proj1 (validateAuthKey_spec (Auth (config2.ipsc c)))).
    right. exact Hk.
Qed.

Lemma not_hex_key k :
  regexp.match_upto regexp.hex_class 40 k = false -> ~ hex_key k.
Proof. intros H N. apply hex_key_spec in N. congruence. Qed.

Lemma Validate_auth_disabled_witness :
  Validate onlyLo (withAuth validConfig disabledZZZZ)
  = Some ErrInvalidIPSCAuthKey /\
  config2.Validate onlyLo (withAuth2 validConfig2 disabledLong)
  = Some ErrInvalidIPSCAuthKey.
Proof.
  split.
  - apply (proj1 Validate_auth_disabled onlyLo
             (withAuth validConfig disabledZZZZ));
      [vm_compute; reflexivity|reflexivity|].
    apply not_hex_key. vm_compute. reflexivity.
  - apply (proj2 Validate_auth_disabled onlyLo
             (withAuth2 validConfig2 disabledLong));
      [vm_compute; reflexivity|reflexivity|].
    apply not_hex_key. vm_compute. reflexivity.
Defined.

(** The float64 constants are in normal form, and the bounds are
    closed: 90 degrees of latitude pass, 91 do not, NaN does. *)
Example f64_constants :
  bounded 53 1024 6333186975989760 (-45) = true /\
  bounded 53 1024 6333186975989760 (-46) = true /\
  outside f64_90 f64_90 = false /\
  outside (SFopp f64_90) f64_90 = false /\
  outside (S754_finite false 6403555720167424 (-46)) f64_90 = true /\
  outside S754_nan f64_90 = false.
Proof. vm_compute. repeat split. Qed.

(** With authentication disabled the empty key passes. *)
Example Validate_valid :
  Validate onlyLo validConfig = None /\
  config2.Validate onlyLo validConfig2 = None.
Proof. split; vm_compute; reflexivity. Qed.

End ValidateProperties.

(** ** The translator *)

Section TranslatorFacts.

Import ipsc.

Variable rand32 : nat -> Z.
Variable voiceBurst : Z -> Z.
Variable voiceLetter : Z -> option Z.





End TranslatorFacts.

Section TranslatorProperties.

Import ipsc.





(** Where a call stops: a voice-head packet that carries the
    end-of-call flag has its stream destroyed after it is handled, so
    that the next voice-head packet with the same call control starts a
    call of its own and gives a frame again. *)
Example two_ended_headers :
  Forall (voiceHead 0xAAAA) endedHeaders /\
  map length
      (snd (translateAll counting lettersFrom8 newTestTranslator endedHeaders))
  = [1%nat; 1%nat].
Proof.
  split.
  - unfold endedHeaders, voiceHead, traffic. cbn [repeat fst snd].
    repeat constructor; vm_compute; lia.
  - vm_compute. reflexivity.
Qed.

(** The scenarios of the specification. *)
Example scenario_header :
  map (fun pkt => map u8 (Slice.sub pkt 0 20))
      (snd (TranslateToIPSC counting burstsFrom8 newTestTranslator
              (makeTestHBRPPacket true false 1 1)))
  = [[0x80; 0; 0; 0x30; 0x39; 0; 0; 0; 0x64; 0; 0; 0xC8; 2;
      0; 0; 0x03; 0xE8; 0; 0x80; 0x80];
     [0x80; 0; 0; 0x30; 0x39; 0; 0; 0; 0x64; 0; 0; 0xC8; 2;
      0; 0; 0x03; 0xE8; 0; 0x80; 0];
     [0x80; 0; 0; 0x30; 0x39; 0; 0; 0; 0x64; 0; 0; 0xC8; 2;
      0; 0; 0x03; 0xE8; 0; 0x80; 0]].
Proof. vm_compute. reflexivity. Qed.

Example scenario_duplicate :
  map length
      (snd (translateAll counting lettersFrom8 newTestTranslator threeHeaders))
  = [1%nat; 0%nat; 0%nat].
Proof. vm_compute. reflexivity. Qed.

End TranslatorProperties.

(** ** The DMRD codec: from the bytes to the frame and back *)

Section CodecCoverage.

Import Slice proto.

(** [Decode] reads the first 53 bytes only. *)
Lemma Decode_take53 data :
  (53 <= length data <= 55)%nat -> Decode data = Decode (take 53 data).
Proof.
  intros H. unfold Decode, at_. rewrite length_take.
  destruct (Nat.ltb_spec (length data) 53); [lia|].
  destruct (Nat.ltb_spec 55 (length data)); [lia|].
  replace (53 `min` length data)%nat with 53%nat by lia. cbn [Nat.ltb Nat.leb].
  rewrite !get_take, !sub_take by lia. reflexivity.
Qed.

Lemma u8_land b : Z.land (u8 b) (Z.ones 8) = u8 b.
Proof. rewrite Z.land_ones by lia. apply Z.mod_small, u8_range. Qed.

Lemma of_Z_land x b : Z.land x (Z.ones 8) = u8 b -> byte.of_Z x = b.
Proof.
  intros H. rewrite <- (of_Z_u8 (byte.of_Z x)), u8_of_Z, <- Z.land_ones by lia.
  rewrite H. apply of_Z_u8.
Qed.

Lemma join24_bits A B C :
  let v := Z.lor (Z.lor (Z.shiftl (Z.land A (Z.ones 8)) 16)
                        (Z.shiftl (Z.land B (Z.ones 8)) 8))
                 (Z.land C (Z.ones 8)) in
  Z.land v (Z.ones 24) = v /\
  Z.land (Z.shiftr v 16) (Z.ones 8) = Z.land A (Z.ones 8) /\
  Z.land (Z.shiftr v 8) (Z.ones 8) = Z.land B (Z.ones 8) /\
  Z.land v (Z.ones 8) = Z.land C (Z.ones 8).
Proof. cbv zeta. repeat split; Z.bitblast. Qed.

Lemma join32_bits A B C D :
  let v := Z.lor (Z.lor (Z.lor (Z.shiftl (Z.land A (Z.ones 8)) 24)
                               (Z.shiftl (Z.land B (Z.ones 8)) 16))
                        (Z.shiftl (Z.land C (Z.ones 8)) 8))
                 (Z.land D (Z.ones 8)) in
  Z.land v (Z.ones 32) = v /\
  Z.land (Z.shiftr v 24) (Z.ones 8) = Z.land A (Z.ones 8) /\
  Z.land (Z.shiftr v 16) (Z.ones 8) = Z.land B (Z.ones 8) /\
  Z.land (Z.shiftr v 8) (Z.ones 8) = Z.land C (Z.ones 8) /\
  Z.land v (Z.ones 8) = Z.land D (Z.ones 8).
Proof. cbv zeta. repeat split; Z.bitblast. Qed.

(** Three bytes joined most significant first, and taken apart again. *)
Lemma join24 a b c :
  let v := Z.lor (Z.lor (Z.shiftl (u8 a) 16) (Z.shiftl (u8 b) 8)) (u8 c) in
  0 <= v < 2 ^ 24 /\
  byte.of_Z (Z.shiftr v 16) = a /\ byte.of_Z (Z.shiftr v 8) = b /\
  byte.of_Z v = c.
Proof.
  pose proof (join24_bits (u8 a) (u8 b) (u8 c)) as H. cbv zeta in *.
  rewrite !u8_land in H. destruct H as (E & H1 & H2 & H3).
  split; [|repeat split; apply of_Z_land; assumption].
  rewrite <- E, Z.land_ones by lia. apply Z.mod_pos_bound. lia.
Qed.

(** Four bytes joined most significant first, and taken apart again. *)
Lemma join32 a b c d :
  let v := Z.lor (Z.lor (Z.lor (Z.shiftl (u8 a) 24) (Z.shiftl (u8 b) 16))
                        (Z.shiftl (u8 c) 8)) (u8 d) in
  0 <= v < 2 ^ 32 /\
  byte.of_Z (Z.shiftr v 24) = a /\ byte.of_Z (Z.shiftr v 16) = b /\
  byte.of_Z (Z.shiftr v 8) = c /\ byte.of_Z v = d.
Proof.
  pose proof (join32_bits (u8 a) (u8 b) (u8 c) (u8 d)) as H. cbv zeta in *.
  rewrite !u8_land in H. destruct H as (E & H1 & H2 & H3 & H4).
  split; [|repeat split; apply of_Z_land; assumption].
  rewrite <- E, Z.land_ones by lia. apply Z.mod_pos_bound. lia.
Qed.

(** The flags byte taken apart as [Decode] does it, and packed again as
    [Encode] does it. *)
Lemma unpack_pack B :
  pack (Z.land B (Z.ones 1)) (Z.land (Z.shiftr B 1) (Z.ones 1))
       (Z.land (Z.shiftr B 2) (Z.ones 2)) (Z.shiftr B 4)
  = Z.land B (Z.ones 8).
Proof. unfold pack. Z.bitblast. Qed.

Lemma b2z_bit0 B : Z.b2z (Z.testbit B 0) = Z.land B (Z.ones 1).
Proof. rewrite Z.land_ones by lia. apply Z.bit0_mod. Qed.

Lemma b2z_bit1 B : Z.b2z (Z.testbit B 1) = Z.land (Z.shiftr B 1) (Z.ones 1).
Proof.
  rewrite <- b2z_bit0, Z.shiftr_spec by lia. reflexivity.
Qed.

Lemma flags_of_Decode b p :
  Slot p = (if negb (Z.land (u8 b) 0x1 =? 0) then true else false) ->
  GroupCall p = (if negb (Z.land (u8 b) 0x2 =? 0) then false else true) ->
  FrameType p = Z.shiftr (Z.land (u8 b) 0xC) 2 ->
  DTypeOrVSeq p = Z.shiftr (Z.land (u8 b) 0xF0) 4 ->
  flags p = b.
Proof.
  intros Hs Hg Hf Hd.
  rewrite <- (of_Z_u8 (flags p)), u8_flags, Hs, Hg, Hf, Hd.
  rewrite land1_testbit, land2_testbit.
  replace (Z.b2z (if Z.testbit (u8 b) 0 then true else false))
    with (Z.land (u8 b) (Z.ones 1))
    by (rewrite <- b2z_bit0; destruct (Z.testbit (u8 b) 0); reflexivity).
  replace (Z.b2z (negb (if Z.testbit (u8 b) 1 then false else true)))
    with (Z.land (Z.shiftr (u8 b) 1) (Z.ones 1))
    by (rewrite <- b2z_bit1; destruct (Z.testbit (u8 b) 1); reflexivity).
  rewrite shiftr_mask_2, shiftr_mask_4 by apply u8_range.
  change 0x3 with (Z.ones 2).
  rewrite unpack_pack, u8_land. apply of_Z_u8.
Qed.

(** The fields [Decode] returns lie in the ranges they have on the
    wire. *)
Lemma Decode_ranges data :
  (53 <= length data <= 55)%nat ->
  listed_ranges (fst (Decode data)) /\
  0 <= StreamID (fst (Decode data)) < 2 ^ 32 /\
  array33 (fst (Decode data)).
Proof.
  intros H. unfold Decode, listed_ranges, array33, at_.
  destruct (Nat.ltb_spec (length data) 53); [lia|].
  destruct (Nat.ltb_spec 55 (length data)); [lia|].
  cbn [fst Signature Seq Src Dst Repeater FrameType DTypeOrVSeq StreamID
       DMRData].
  rewrite length_sub, length_copy, length_make by lia.
  pose proof (u8_range (get data 4)).
  pose proof (proj1 (join24 (get data 5) (get data 6) (get data 7))).
  pose proof (proj1 (join24 (get data 8) (get data 9) (get data 10))).
  pose proof (proj1 (join32 (get data 11) (get data 12) (get data 13)
                            (get data 14))).
  pose proof (proj1 (join32 (get data 16) (get data 17) (get data 18)
                            (get data 19))).
  cbv zeta in *.
  assert (0 <= Z.shiftr (Z.land (u8 (get data 15)) 0xC) 2 <= 3).
  { rewrite shiftr_mask_2. change 0x3 with (Z.ones 2).
    rewrite Z.land_ones by lia.
    pose proof (Z.mod_pos_bound (Z.shiftr (u8 (get data 15)) 2) (2 ^ 2)).
    change (Z.ones 2) with 3. change (2 ^ 2) with 4 in *. lia. }
  assert (0 <= Z.shiftr (Z.land (u8 (get data 15)) 0xF0) 4 <= 15).
  { pose proof (u8_range (get data 15)).
    rewrite shiftr_mask_4 by assumption. rewrite Z.shiftr_div_pow2 by lia.
    change (2 ^ 4) with 16. change (2 ^ 8) with 256 in *.
    Z.div_mod_to_equations. lia. }
  repeat split; lia.
Qed.

(** A wire frame of 53 bytes, decoded and encoded again. *)
Lemma Encode_Decode_53 d :
  length d = 53%nat -> Encode (fst (Decode d)) = d.
Proof.
  intros Hd.
  destruct (Encode_shape (fst (Decode d)))
    as (s0 & s1 & s2 & s3 & dd & _ & Hs & Hc & ->).
  explode_list d Hd.
  unfold Decode, at_ in *.
  cbn [length app Nat.ltb Nat.leb get nth sub take drop Nat.sub copy make
       repeat fst snd Signature Seq Src Dst Repeater StreamID DMRData] in *.
  injection Hs as <- <- <- <-. subst dd.
  rewrite of_Z_u8.
  match goal with |- context [flags ?p] =>
    rewrite (flags_of_Decode b14 p) by reflexivity
  end.
  repeat match goal with
  | |- context [Z.lor (Z.lor (Z.lor (Z.shiftl (u8 ?a) 24)
                                    (Z.shiftl (u8 ?b) 16))
                             (Z.shiftl (u8 ?c) 8)) (u8 ?d)] =>
      destruct (join32 a b c d) as (_ & -> & -> & -> & ->)
  | |- context [Z.lor (Z.lor (Z.shiftl (u8 ?a) 16) (Z.shiftl (u8 ?b) 8))
                      (u8 ?c)] =>
      destruct (join24 a b c) as (_ & -> & -> & ->)
  end.
  reflexivity.
Qed.

Lemma drop_make n m : drop n (make m) = make (m - n).
Proof.
  unfold make. revert n. induction m as [|m IH]; intros [|n]; cbn;
    try reflexivity.
  apply IH.
Qed.

(** What [copy] leaves in a zeroed buffer of [n] bytes. *)
Lemma copy_make n src :
  copy (make n) src = take n src ++ make (n - length src).
Proof. unfold copy. rewrite length_make, drop_make. reflexivity. Qed.

(** X1: A datagram of 53 to 55 bytes always decodes to a frame whose fields
    lie in the ranges of the wire format, and such a frame is a fixed
    point of [Encode] followed by [Decode]. *)
Theorem Decode_in_wire_ranges (data : list byte) :
  (53 <= length data <= 55)%nat ->
  listed_ranges (fst (Decode data)) /\
  0 <= StreamID (fst (Decode data)) < 2 ^ 32 /\
  array33 (fst (Decode data)) /\
  Decode (Encode (fst (Decode data))) = (fst (Decode data), true).
Proof.
  intros H. destruct (Decode_ranges data H) as (Hr & Hid & Hd).
  split; [exact Hr|]. split; [exact Hid|]. split; [exact Hd|].
  rewrite Decode_Encode, truncated_id by assumption. reflexivity.
Qed.

Lemma Decode_in_wire_ranges_witness :
  listed_ranges (fst (Decode wireFrame)) /\
  0 <= StreamID (fst (Decode wireFrame)) < 2 ^ 32 /\
  array33 (fst (Decode wireFrame)) /\
  Decode (Encode (fst (Decode wireFrame))) = (fst (Decode wireFrame), true).
Proof. apply (Decode_in_wire_ranges wireFrame). vm_compute. lia. Defined.

(** X2: [Encode] undoes [Decode]: a decoded datagram encodes to its own
    first 53 bytes, whatever they are; the one or two bytes [Decode]
    tolerates behind them are all that is lost. *)
Theorem Encode_Decode_wire (data : list byte) :
  (53 <= length data <= 55)%nat ->
  Encode (fst (Decode data)) = take 53 data.
Proof.
  intros H. rewrite Decode_take53 by assumption.
  apply Encode_Decode_53. rewrite length_take. lia.
Qed.

Lemma Encode_Decode_wire_witness :
  Encode (fst (Decode wireFrame)) = take 53 wireFrame.
Proof. apply (Encode_Decode_wire wireFrame). vm_compute. lia. Defined.

(** X3: [Decode] loses nothing of the first 53 bytes: two accepted
    datagrams decode to the same frame exactly when their first 53
    bytes are the same. *)
Theorem Decode_injective (d d' : list byte) :
  (53 <= length d <= 55)%nat -> (53 <= length d' <= 55)%nat ->
  (Decode d = Decode d' <-> take 53 d = take 53 d').
Proof.
  intros H H'. rewrite (Decode_take53 d H), (Decode_take53 d' H'). split.
  - intros E.
    rewrite <- (Encode_Decode_53 (take 53 d)),
            <- (Encode_Decode_53 (take 53 d')), E
      by (rewrite length_take; lia).
    reflexivity.
  - intros ->. reflexivity.
Qed.

Lemma Decode_injective_witness :
  Decode (take 53 wireFrame ++ [byte.of_Z 1])
  = Decode (take 53 wireFrame ++ [byte.of_Z 2; byte.of_Z 3])
  <-> take 53 (take 53 wireFrame ++ [byte.of_Z 1])
      = take 53 (take 53 wireFrame ++ [byte.of_Z 2; byte.of_Z 3]).
Proof.
  apply (Decode_injective (take 53 wireFrame ++ [byte.of_Z 1])
           (take 53 wireFrame ++ [byte.of_Z 2; byte.of_Z 3]));
    vm_compute; lia.
Defined.

(** X4: Two frames have the same encoding exactly when they agree once
    every field is cut to its width on the wire: the signature to four
    bytes, zero-filled, the numbers modulo their widths. *)
Theorem Encode_eq_iff (p q : Packet) :
  Encode p = Encode q <-> truncated p = truncated q.
Proof.
  split.
  - intros E. pose proof (Decode_Encode p) as Hp.
    rewrite E, Decode_Encode in Hp. congruence.
  - intros E.
    rewrite <- (Encode_Decode_53 (Encode p)), <- (Encode_Decode_53 (Encode q))
      by apply Encode_length.
    rewrite !Decode_Encode. cbn [fst]. rewrite E. reflexivity.
Qed.

(** X5: [Encode] takes a signature of any length: the first four bytes of
    a longer one, a shorter one filled up with zero bytes; [Decode]
    returns these four bytes as the signature. *)
Theorem Encode_signature_any_length (p : Packet) :
  take 4 (Encode p)
  = take 4 (Signature p) ++ make (4 - length (Signature p)) /\
  Signature (fst (Decode (Encode p))) = take 4 (Encode p).
Proof.
  rewrite Decode_Encode. cbn [fst truncated Signature].
  destruct (Encode_shape p) as (s0 & s1 & s2 & s3 & d & _ & Hs & _ & ->).
  rewrite <- copy_make, Hs. split; reflexivity.
Qed.

Lemma bytes24_value x :
  2 ^ 16 * (Z.shiftr x 16 mod 2 ^ 8) + 2 ^ 8 * (Z.shiftr x 8 mod 2 ^ 8)
  + x mod 2 ^ 8 = x mod 2 ^ 24.
Proof.
  rewrite !Z.shiftr_div_pow2 by lia.
  change (2 ^ 16) with 65536. change (2 ^ 8) with 256.
  change (2 ^ 24) with 16777216. Z.div_mod_to_equations. lia.
Qed.

Lemma bytes32_value x :
  2 ^ 24 * (Z.shiftr x 24 mod 2 ^ 8) + 2 ^ 16 * (Z.shiftr x 16 mod 2 ^ 8)
  + 2 ^ 8 * (Z.shiftr x 8 mod 2 ^ 8) + x mod 2 ^ 8 = x mod 2 ^ 32.
Proof.
  rewrite !Z.shiftr_div_pow2 by lia.
  change (2 ^ 24) with 16777216. change (2 ^ 16) with 65536.
  change (2 ^ 8) with 256. change (2 ^ 32) with 4294967296.
  Z.div_mod_to_equations. lia.
Qed.

(** X6: The layout of the 53 bytes of [Encode]: the signature in the bytes
    0 to 3, the sequence number in byte 4, the source in the bytes 5 to
    7, the destination in 8 to 10, the repeater in 11 to 14 and the
    stream ID in 16 to 19, each most significant byte first and modulo
    its width, the payload in the bytes 20 to 52. *)
Theorem Encode_big_endian (p : Packet) :
  let b i := u8 (get (Encode p) i) in
  sub (Encode p) 0 4 = copy (make 4) (Signature p) /\
  b 4%nat = Seq p mod 2 ^ 8 /\
  2 ^ 16 * b 5%nat + 2 ^ 8 * b 6%nat + b 7%nat = Src p mod 2 ^ 24 /\
  2 ^ 16 * b 8%nat + 2 ^ 8 * b 9%nat + b 10%nat = Dst p mod 2 ^ 24 /\
  2 ^ 24 * b 11%nat + 2 ^ 16 * b 12%nat + 2 ^ 8 * b 13%nat + b 14%nat
  = Repeater p mod 2 ^ 32 /\
  2 ^ 24 * b 16%nat + 2 ^ 16 * b 17%nat + 2 ^ 8 * b 18%nat + b 19%nat
  = StreamID p mod 2 ^ 32 /\
  sub (Encode p) 20 53 = copy (make 33) (DMRData p).
Proof.
  destruct (Encode_shape p) as (s0 & s1 & s2 & s3 & d & Hd & Hs & Hc & ->).
  rewrite Hs, Hc. explode_list d Hd.
  cbn [get nth app sub take drop Nat.sub]. cbv zeta.
  rewrite !u8_of_Z.
  repeat split; try apply bytes24_value; apply bytes32_value.
Qed.

(** X7: On frames within the ranges of the wire format, [Equal] holds
    exactly when the encodings are the same bytes. *)
Theorem Equal_iff_same_bytes (p q : Packet) :
  listed_ranges p -> 0 <= StreamID p < 2 ^ 32 -> array33 p ->
  listed_ranges q -> 0 <= StreamID q < 2 ^ 32 -> array33 q ->
  (Equal p q = true <-> Encode p = Encode q).
Proof.
  intros Hp Hp' Hp'' Hq Hq' Hq''. rewrite Equal_true. split.
  - intros ->. reflexivity.
  - intros E. pose proof (Decode_Encode p) as D.
    rewrite E, Decode_Encode, !truncated_id in D by assumption.
    congruence.
Qed.

Lemma Equal_iff_same_bytes_witness :
  Equal samplePacket (fst (Decode wireFrame)) = true
  <-> Encode samplePacket = Encode (fst (Decode wireFrame)).
Proof.
  apply (Equal_iff_same_bytes samplePacket (fst (Decode wireFrame)));
    try apply samplePacket_ranges;
    apply (Decode_ranges wireFrame); vm_compute; lia.
Defined.

End CodecCoverage.

(** ** The handshake packets: the tagged packets, the frames, the
    fields of RPTC *)

Section HandshakeCoverage.

Import Slice hbrp.

(** The two copies of [sendLogin], [sendRPTCL] and [sendPing] fill the
    buffer with the tag and the hex ID. *)
Lemma tagged_layout (tag id : list byte) :
  length id = 8%nat ->
  copy_from (copy (make (length tag + 8)) tag)
            (copied (make (length tag + 8)) tag) id
  = tag ++ id.
Proof.
  intros Hi.
  assert (E : copy (make (length tag + 8)) tag = tag ++ make 8).
  { rewrite copy_make, take_ge by lia. f_equal. f_equal. lia. }
  unfold copied. rewrite E, length_make.
  replace (Nat.min (length tag + 8) (length tag)) with (length tag) by lia.
  unfold copy_from, copy_into, sub.
  rewrite length_app, length_make.
  rewrite take_app_length, drop_app_length, (drop_ge (tag ++ make 8))
    by (rewrite length_app, length_make; lia).
  replace (length tag + 8 - length tag)%nat with 8%nat by lia.
  rewrite (take_ge (make 8)) by (rewrite length_make; lia).
  rewrite copy_same_length by (rewrite length_make; congruence).
  rewrite app_nil_r. reflexivity.
Qed.

Lemma tagged_spec h tag :
  0 <= config.ID (config.hbrp (cfg h)) < 2 ^ 32 ->
  tagged h tag = send h (tag ++ hexid h).
Proof.
  intros H. unfold tagged. rewrite tagged_layout; [reflexivity|].
  apply (hexid_spec h H).
Qed.

(** X8: [sendLogin], [sendRPTCL] and [sendPing] each send one packet: the
    tag "RPTL", "RPTCL" or "MSTPING" followed by the repeater ID in
    eight zero-padded lower-case hexadecimal digits, 12, 13 and 15
    bytes; the configuration is not touched. *)
Theorem tagged_packets (h : HBRPClient) :
  0 <= config.ID (config.hbrp (cfg h)) < 2 ^ 32 ->
  exists id,
    zero_padded 16 8 (config.ID (config.hbrp (cfg h))) id /\
    Forall (fun c => lower_hex c = true) id /\
    sendLogin h = {| cfg := cfg h; connTX := connTX h ++ [str "RPTL" ++ id] |} /\
    sendRPTCL h = {| cfg := cfg h; connTX := connTX h ++ [str "RPTCL" ++ id] |} /\
    sendPing h = {| cfg := cfg h; connTX := connTX h ++ [str "MSTPING" ++ id] |} /\
    length (str "RPTL" ++ id) = 12%nat /\
    length (str "RPTCL" ++ id) = 13%nat /\
    length (str "MSTPING" ++ id) = 15%nat.
Proof.
  intros H. exists (hexid h).
  destruct (hexid_spec h H) as (_ & Hz).
  split; [exact Hz|]. split.
  { destruct Hz as (_ & Hf & _). eapply Forall_impl; [exact Hf|].
    intros c Hc. apply Hc. }
  unfold sendLogin, sendRPTCL, sendPing. rewrite !tagged_spec by exact H.
  rewrite !length_app, (proj1 Hz). repeat split.
Qed.

Lemma tagged_packets_witness :
  exists id,
    zero_padded 16 8 311860 id /\
    Forall (fun c => lower_hex c = true) id /\
    sendLogin testClient
    = {| cfg := cfg testClient;
         connTX := connTX testClient ++ [str "RPTL" ++ id] |} /\
    sendRPTCL testClient
    = {| cfg := cfg testClient;
         connTX := connTX testClient ++ [str "RPTCL" ++ id] |} /\
    sendPing testClient
    = {| cfg := cfg testClient;
         connTX := connTX testClient ++ [str "MSTPING" ++ id] |} /\
    length (str "RPTL" ++ id) = 12%nat /\
    length (str "RPTCL" ++ id) = 13%nat /\
    length (str "MSTPING" ++ id) = 15%nat.
Proof. apply (tagged_packets testClient). cbn. lia. Defined.

(** X9: [sendPacket] sends the 53 bytes of [Encode], neither filled up
    nor cut, and the receiver that decodes them gets the frame with its
    fields cut to their widths on the wire. *)
Theorem sendPacket_sends_Encode (h : HBRPClient) (packet : proto.Packet) :
  sendPacket h packet
  = {| cfg := cfg h; connTX := connTX h ++ [proto.Encode packet] |} /\
  length (proto.Encode packet) = 53%nat /\
  proto.Decode (proto.Encode packet) = (truncated packet, true).
Proof.
  unfold sendPacket, send.
  rewrite copy_same_length by (rewrite length_make, Encode_length; reflexivity).
  split; [reflexivity|]. split; [apply Encode_length|apply Decode_Encode].
Qed.

(** A string of [n] digits stands for a number below [base ^ n]. *)
Lemma number_lt base ds :
  2 <= base -> Forall (digit_of base) ds ->
  0 <= number base ds < base ^ Z.of_nat (length ds).
Proof.
  intros Hb. induction ds as [|c ds IH] using rev_ind; intros Hf.
  - cbn. lia.
  - apply Forall_app in Hf. destruct Hf as [Hf Hc].
    apply Forall_inv in Hc. destruct Hc as [_ Hc].
    specialize (IH Hf). rewrite number_app, length_app. cbn [length].
    replace (Z.of_nat (length ds + 1)) with (Z.succ (Z.of_nat (length ds)))
      by lia.
    rewrite Z.pow_succ_r by lia. nia.
Qed.

(** The numbers below [base ^ k] are those of at most [k] digits. *)
Lemma digits_length_iff base u k :
  2 <= base <= 16 -> 0 <= u -> (1 <= k)%nat ->
  ((length (gofmt.digits base u) <= k)%nat <-> u < base ^ Z.of_nat k).
Proof.
  intros Hb Hu Hk. split.
  - intros Hl. destruct (digits_spec base u Hb Hu) as (Hn & Hf & _).
    pose proof (number_lt base _ ltac:(lia) Hf) as [_ Hlt].
    rewrite Hn in Hlt. eapply Z.lt_le_trans; [exact Hlt|].
    apply Z.pow_le_mono_r; lia.
  - intros Hlt. apply digits_length; lia.
Qed.

(** A number printed with leading zeros: never fewer than [w] bytes,
    and [w] bytes exactly for the numbers below [base ^ w]. *)
Lemma pad_zero_fits base w u :
  2 <= base <= 16 -> 0 <= u -> (1 <= w)%nat ->
  (w <= length (gofmt.pad_zero w (gofmt.digits base u)))%nat /\
  (length (gofmt.pad_zero w (gofmt.digits base u)) = w
   <-> u < base ^ Z.of_nat w).
Proof.
  intros Hb Hu Hw. rewrite <- (digits_length_iff base u w Hb Hu Hw).
  unfold gofmt.pad_zero. rewrite length_app, repeat_length. lia.
Qed.

(** A string printed left-justified: never fewer than [w] bytes, and
    [w] bytes exactly for the strings of at most [w] runes of one byte
    each. *)
Lemma s_left_fits w s :
  (w <= length (gofmt.s_left w s))%nat /\
  (length (gofmt.s_left w s) = w
   <-> (utf8.RuneCountInString s <= w)%nat /\
       utf8.RuneCountInString s = length s).
Proof.
  unfold gofmt.s_left, gofmt.pad_right. rewrite length_app, repeat_length.
  pose proof (count_from_le s 0) as H. unfold utf8.RuneCountInString in *.
  lia.
Qed.

(** The packet of [sendRPTC], field by field. *)
Lemma sendRPTC_fields h :
  let c := config.hbrp (cfg h) in
  sendRPTC h =
  send h
    (str "RPTC" ++ gofmt.s_left 8 (config.Callsign c)
       ++ gofmt.x_zero 8 (config.ID c)
       ++ gofmt.d_zero 9 (config.RXFreq c)
       ++ gofmt.d_zero 9 (config.TXFreq c)
       ++ gofmt.d_zero 2 (config.TXPower c)
       ++ gofmt.d_zero 2 (config.ColorCode c)
       ++ sub (gofmt.f_left 8 (config.Latitude c)) 0 8
       ++ sub (gofmt.f_left 9 (config.Longitude c)) 0 9
       ++ gofmt.d_zero 3 (config.Height c)
       ++ gofmt.s_left 20 (config.Location c)
       ++ gofmt.s_left 20 (config.Description c)
       ++ gofmt.s_left 124 (config.URL c)
       ++ repeat gofmt.space 40 ++ repeat gofmt.space 40).
Proof.
  intros c. unfold sendRPTC. fold c. rewrite !s_left_empty.
  rewrite <- !app_assoc. reflexivity.
Qed.

(** The leading digit of a number that is not zero is not zero. *)
Lemma digits_acc_head fuel : forall base u acc,
  2 <= base -> 1 <= u < 2 ^ (Z.of_nat fuel + 1) ->
  exists d rest,
    gofmt.digits_acc fuel base u acc = gofmt.digit d :: rest /\ 1 <= d < base.
Proof.
  induction fuel as [|fuel IH]; intros base u acc Hb Hu.
  - change (2 ^ (Z.of_nat 0 + 1)) with 2 in Hu.
    exists u, acc. split; [reflexivity|lia].
  - cbn [gofmt.digits_acc]. destruct (Z.leb_spec base u) as [Hle|Hlt].
    + apply IH; [exact Hb|]. split.
      * apply Z.div_le_lower_bound; lia.
      * apply Z.div_lt_upper_bound; [lia|].
        replace (Z.of_nat (S fuel) + 1) with (Z.succ (Z.of_nat fuel + 1)) in Hu
          by lia.
        rewrite Z.pow_succ_r in Hu by lia. nia.
    + exists u, acc. split; [reflexivity|lia].
Qed.

Lemma digits_head base u :
  2 <= base <= 16 -> 1 <= u ->
  digit_value (hd gofmt.zero (gofmt.digits base u)) <> 0.
Proof.
  intros Hb Hu. unfold gofmt.digits.
  destruct (digits_acc_head (Z.to_nat (Z.log2 u)) base u [] ltac:(lia))
    as (d & rest & E & Hd).
  - split; [exact Hu|]. rewrite Z2Nat.id by apply Z.log2_nonneg.
    change (Z.log2 u + 1) with (Z.succ (Z.log2 u)). apply Z.log2_spec. lia.
  - rewrite E. cbn [hd]. destruct (digit_spec d) as [Hv _]; lia.
Qed.

(** [%0Wd] and [%0Wx] of an unsigned number: all of its digits, with
    leading zeros up to the width. *)
Lemma pad_zero_numeral base w u :
  2 <= base <= 16 -> 0 <= u -> (1 <= w)%nat ->
  numeral base w u (gofmt.pad_zero w (gofmt.digits base u)).
Proof.
  intros Hb Hu Hw. destruct (digits_spec base u Hb Hu) as (Hn & Hf & Hne).
  unfold numeral, gofmt.pad_zero. split; [|split; [|split]].
  - apply Forall_app. split; [|exact Hf].
    generalize (w - length (gofmt.digits base u))%nat. intros n.
    induction n as [|n IH]; constructor; [apply zero_digit; lia|exact IH].
  - rewrite number_zeros. exact Hn.
  - rewrite length_app, repeat_length. lia.
  - rewrite length_app, repeat_length. intros Hl.
    replace (w - length (gofmt.digits base u))%nat with 0%nat by lia.
    cbn [repeat app]. apply digits_head; [exact Hb|].
    destruct (Z.eq_dec u 0) as [->|]; [|lia].
    exfalso. change (length (gofmt.digits base 0)) with 1%nat in Hl. lia.
Qed.

(** The length of the packet of [sendRPTC]. *)
Lemma RPTC_length (c : config.HBRP) :
  unsigned_numbers c ->
  let pkt :=
    str "RPTC" ++ gofmt.s_left 8 (config.Callsign c)
      ++ gofmt.x_zero 8 (config.ID c)
      ++ gofmt.d_zero 9 (config.RXFreq c)
      ++ gofmt.d_zero 9 (config.TXFreq c)
      ++ gofmt.d_zero 2 (config.TXPower c)
      ++ gofmt.d_zero 2 (config.ColorCode c)
      ++ sub (gofmt.f_left 8 (config.Latitude c)) 0 8
      ++ sub (gofmt.f_left 9 (config.Longitude c)) 0 9
      ++ gofmt.d_zero 3 (config.Height c)
      ++ gofmt.s_left 20 (config.Location c)
      ++ gofmt.s_left 20 (config.Description c)
      ++ gofmt.s_left 124 (config.URL c)
      ++ repeat gofmt.space 40 ++ repeat gofmt.space 40 in
  (306 <= length pkt)%nat /\
  (length pkt = 306%nat <-> widths_fit c /\ byte_runes c).
Proof.
  intros (Uid & Urx & Utx & Upw & Ucc & Uht). cbv zeta.
  pose proof (s_left_fits 8 (config.Callsign c)) as [Gcs Fcs].
  pose proof (s_left_fits 20 (config.Location c)) as [Gloc Floc].
  pose proof (s_left_fits 20 (config.Description c)) as [Gdesc Fdesc].
  pose proof (s_left_fits 124 (config.URL c)) as [Gurl Furl].
  pose proof (pad_zero_fits 16 8 _ ltac:(lia) Uid ltac:(lia)) as [Gid Fid].
  pose proof (pad_zero_fits 10 9 _ ltac:(lia) Urx ltac:(lia)) as [Grx Frx].
  pose proof (pad_zero_fits 10 9 _ ltac:(lia) Utx ltac:(lia)) as [Gtx Ftx].
  pose proof (pad_zero_fits 10 2 _ ltac:(lia) Upw ltac:(lia)) as [Gpw Fpw].
  pose proof (pad_zero_fits 10 2 _ ltac:(lia) Ucc ltac:(lia)) as [Gcc Fcc].
  pose proof (pad_zero_fits 10 3 _ ltac:(lia) Uht ltac:(lia)) as [Ght Fht].
  change (16 ^ Z.of_nat 8) with (2 ^ 32) in Fid.
  change (Z.of_nat 9) with 9 in *. change (Z.of_nat 2) with 2 in *.
  change (Z.of_nat 3) with 3 in *.
  fold (gofmt.x_zero 8 (config.ID c)) in *.
  fold (gofmt.d_zero 9 (config.RXFreq c)) in *.
  fold (gofmt.d_zero 9 (config.TXFreq c)) in *.
  fold (gofmt.d_zero 2 (config.TXPower c)) in *.
  fold (gofmt.d_zero 2 (config.ColorCode c)) in *.
  fold (gofmt.d_zero 3 (config.Height c)) in *.
  rewrite !length_app, !float_field_length, !repeat_length.
  change (length (str "RPTC")) with 4%nat.
  set (ncs := length (gofmt.s_left 8 (config.Callsign c))) in *.
  set (nloc := length (gofmt.s_left 20 (config.Location c))) in *.
  set (ndesc := length (gofmt.s_left 20 (config.Description c))) in *.
  set (nurl := length (gofmt.s_left 124 (config.URL c))) in *.
  set (nid := length (gofmt.x_zero 8 (config.ID c))) in *.
  set (nrx := length (gofmt.d_zero 9 (config.RXFreq c))) in *.
  set (ntx := length (gofmt.d_zero 9 (config.TXFreq c))) in *.
  set (npw := length (gofmt.d_zero 2 (config.TXPower c))) in *.
  set (ncc := length (gofmt.d_zero 2 (config.ColorCode c))) in *.
  set (nht := length (gofmt.d_zero 3 (config.Height c))) in *.
  clearbody ncs nloc ndesc nurl nid nrx ntx npw ncc nht.
  split; [clear - Gcs Gurl Gdesc Gloc Ght Gcc Gpw Gtx Grx Gid; lia|].
  unfold widths_fit, byte_runes. split.
  - intros L.
    assert (E : (ncs = 8 /\ nurl = 124 /\ ndesc = 20 /\ nloc = 20 /\
                 nht = 3 /\ ncc = 2 /\ npw = 2 /\ ntx = 9 /\ nrx = 9 /\
                 nid = 8)%nat)
      by (clear - L Gcs Gurl Gdesc Gloc Ght Gcc Gpw Gtx Grx Gid; lia).
    destruct E as (E1 & E2 & E3 & E4 & E5 & E6 & E7 & E8 & E9 & E10).
    apply Fcs in E1. apply Furl in E2. apply Fdesc in E3. apply Floc in E4.
    apply Fht in E5. apply Fcc in E6. apply Fpw in E7. apply Ftx in E8.
    apply Frx in E9. apply Fid in E10.
    tauto.
  - intros ((H1 & H2 & H3 & H4 & H5 & H6 & H7 & H8 & H9 & H10)
            & (B1 & B2 & B3 & B4)).
    assert (E1 := proj2 Fcs (conj H1 B1)).
    assert (E2 := proj2 Furl (conj H4 B4)).
    assert (E3 := proj2 Fdesc (conj H3 B3)).
    assert (E4 := proj2 Floc (conj H2 B2)).
    assert (E5 := proj2 Fht (proj2 H10)).
    assert (E6 := proj2 Fcc (proj2 H9)).
    assert (E7 := proj2 Fpw (proj2 H8)).
    assert (E8 := proj2 Ftx (proj2 H7)).
    assert (E9 := proj2 Frx (proj2 H6)).
    assert (E10 := proj2 Fid (proj2 H5)).
    clear - E1 E2 E3 E4 E5 E6 E7 E8 E9 E10. lia.
Qed.

(** X10: [sendRPTC] sends one packet and leaves the configuration
    alone.  The packet is "RPTC" and then, in this order: the callsign,
    whole, with spaces up to 8 runes; the ID with all of its
    hexadecimal digits and zeros in front up to 8; the two frequencies
    with all of their decimal digits, up to 9; the power and the colour
    code, up to 2; the first 8 bytes of the latitude and the first 9 of
    the longitude as [%f] prints them at these widths; the height, up
    to 3; the location, the description and the URL, whole, with spaces
    up to 20, 20 and 124 runes; 80 spaces.  Only the coordinates are
    cut; a string or a number that is wider than its field makes the
    packet longer: it has 306 bytes at least, and 306 bytes exactly
    when every string is made of one-byte runes and every string and
    number fits the width of its field. *)
Theorem sendRPTC_pads (h : HBRPClient) :
  let c := config.hbrp (cfg h) in
  unsigned_numbers c ->
  exists pkt cs id rx tx power cc lat lon height loc desc url,
    sendRPTC h = {| cfg := cfg h; connTX := connTX h ++ [pkt] |} /\
    pkt = str "RPTC" ++ cs ++ id ++ rx ++ tx ++ power ++ cc ++ lat ++ lon
            ++ height ++ loc ++ desc ++ url
            ++ repeat gofmt.space 40 ++ repeat gofmt.space 40 /\
    left_padded 8 (config.Callsign c) cs /\
    numeral 16 8 (config.ID c) id /\
    numeral 10 9 (config.RXFreq c) rx /\
    numeral 10 9 (config.TXFreq c) tx /\
    numeral 10 2 (config.TXPower c) power /\
    numeral 10 2 (config.ColorCode c) cc /\
    lat = take 8 (gofmt.f_left 8 (config.Latitude c)) /\ length lat = 8%nat /\
    lon = take 9 (gofmt.f_left 9 (config.Longitude c)) /\ length lon = 9%nat /\
    numeral 10 3 (config.Height c) height /\
    left_padded 20 (config.Location c) loc /\
    left_padded 20 (config.Description c) desc /\
    left_padded 124 (config.URL c) url /\
    (306 <= length pkt)%nat /\
    (length pkt = 306%nat <-> widths_fit c /\ byte_runes c).
Proof.
  intros c U. pose proof (RPTC_length c U) as [L306 Lfit]. cbv zeta in *.
  destruct U as (Uid & Urx & Utx & Upw & Ucc & Uht).
  rewrite sendRPTC_fields. fold c.
  eexists _, (gofmt.s_left 8 (config.Callsign c)),
    (gofmt.x_zero 8 (config.ID c)), (gofmt.d_zero 9 (config.RXFreq c)),
    (gofmt.d_zero 9 (config.TXFreq c)), (gofmt.d_zero 2 (config.TXPower c)),
    (gofmt.d_zero 2 (config.ColorCode c)),
    (sub (gofmt.f_left 8 (config.Latitude c)) 0 8),
    (sub (gofmt.f_left 9 (config.Longitude c)) 0 9),
    (gofmt.d_zero 3 (config.Height c)),
    (gofmt.s_left 20 (config.Location c)),
    (gofmt.s_left 20 (config.Description c)),
    (gofmt.s_left 124 (config.URL c)).
  split; [reflexivity|]. split; [reflexivity|].
  split; [reflexivity|].
  split; [apply pad_zero_numeral; lia|].
  split; [apply pad_zero_numeral; lia|].
  split; [apply pad_zero_numeral; lia|].
  split; [apply pad_zero_numeral; lia|].
  split; [apply pad_zero_numeral; lia|].
  split; [reflexivity|]. split; [apply float_field_length|].
  split; [reflexivity|]. split; [apply float_field_length|].
  split; [apply pad_zero_numeral; lia|].
  split; [reflexivity|]. split; [reflexivity|]. split; [reflexivity|].
  split; [exact L306|exact Lfit].
Qed.

Lemma sendRPTC_pads_witness :
  exists pkt cs id rx tx power cc lat lon height loc desc url,
    sendRPTC longClient
    = {| cfg := cfg longClient; connTX := connTX longClient ++ [pkt] |} /\
    pkt = str "RPTC" ++ cs ++ id ++ rx ++ tx ++ power ++ cc ++ lat ++ lon
            ++ height ++ loc ++ desc ++ url
            ++ repeat gofmt.space 40 ++ repeat gofmt.space 40 /\
    left_padded 8 (str "N0CALLXYZ") cs /\
    numeral 16 8 311860 id /\
    numeral 10 9 449000000 rx /\
    numeral 10 9 444000000 tx /\
    numeral 10 2 100 power /\
    numeral 10 2 1 cc /\
    lat = take 8 (gofmt.f_left 8 (config.Latitude longHBRP)) /\
    length lat = 8%nat /\
    lon = take 9 (gofmt.f_left 9 (config.Longitude longHBRP)) /\
    length lon = 9%nat /\
    numeral 10 3 30 height /\
    left_padded 20 (str "Oklahoma") loc /\
    left_padded 20 (str "Test Repeater") desc /\
    left_padded 124 (str "https://example.com") url /\
    (306 <= length pkt)%nat /\
    (length pkt = 306%nat <-> widths_fit longHBRP /\ byte_runes longHBRP).
Proof.
  apply (sendRPTC_pads longClient). unfold unsigned_numbers. cbn. lia.
Defined.

(** The callsign of nine letters and the power of three digits are
    sent whole, and the packet is two bytes longer. *)
Example sendRPTC_long :
  connTX (sendRPTC longClient)
  = [str "RPTCN0CALLXYZ0004c2344490000004440000001000135.00000-97.00000030Oklahoma            Test Repeater       https://example.com"
       ++ repeat gofmt.space 185] /\
  length (hd [] (connTX (sendRPTC longClient))) = 308%nat.
Proof. vm_compute. split; reflexivity. Qed.

End HandshakeCoverage.

(** ** The validator: coordinates, rewrite rules, what is accepted *)

Section Coordinates.

Import config.

Lemma pow2_pred d : 0 < d -> 2 ^ d = 2 * 2 ^ (d - 1).
Proof.
  intros H. replace d with (Z.succ (d - 1)) at 1 by lia.
  apply Z.pow_succ_r. lia.
Qed.

Lemma digits2_bounds m :
  2 ^ (Z.pos (digits2_pos m) - 1) <= Z.pos m < 2 ^ Z.pos (digits2_pos m).
Proof.
  induction m as [m IH|m IH|]; cbn [digits2_pos];
    [| |change (1 <= 1 < 2); lia];
    rewrite Pos2Z.inj_succ;
    pose proof (Pos2Z.is_pos (digits2_pos m)) as Hd;
    pose proof (pow2_pred _ Hd) as E;
    replace (Z.succ (Z.pos (digits2_pos m)) - 1)
      with (Z.pos (digits2_pos m)) by lia;
    rewrite Z.pow_succ_r by lia;
    [change (Z.pos m~1) with (2 * Z.pos m + 1)
    |change (Z.pos m~0) with (2 * Z.pos m)];
    generalize dependent (2 ^ (Z.pos (digits2_pos m) - 1));
    generalize dependent (2 ^ Z.pos (digits2_pos m)); intros; lia.
Qed.

(** The mantissa of a float64 has 53 bits, or fewer at the least
    exponent. *)
Lemma canonical_facts m e :
  canonical_mantissa 53 1024 m e = true ->
  -1074 <= e /\ Z.pos m < 2 ^ 53 /\ (-1074 < e -> 2 ^ 52 <= Z.pos m).
Proof.
  unfold canonical_mantissa, fexp, emin. intros H. apply Z.eqb_eq in H.
  pose proof (digits2_bounds m) as [Hlo Hhi].
  set (d := Z.pos (digits2_pos m)) in *.
  assert (Hd : 0 < d) by (unfold d; lia).
  split; [lia|]. split.
  - eapply Z.lt_le_trans; [exact Hhi|]. apply Z.pow_le_mono_r; lia.
  - intros He. replace d with 53 in Hlo by lia. exact Hlo.
Qed.

(** On floats in normal form the order of the values is the order of
    the exponents, then of the mantissas. *)
Lemma scaled_lt_below m1 e1 m2 e2 :
  canonical_mantissa 53 1024 m1 e1 = true ->
  canonical_mantissa 53 1024 m2 e2 = true ->
  e1 < e2 -> scaled m1 e1 < scaled m2 e2.
Proof.
  intros C1 C2 He.
  destruct (canonical_facts m1 e1 C1) as (L1 & U1 & _).
  destruct (canonical_facts m2 e2 C2) as (_ & _ & N2).
  specialize (N2 ltac:(lia)). unfold scaled.
  replace (e2 + 1074) with ((e1 + 1074) + 1 + (e2 - e1 - 1)) by lia.
  rewrite (Z.pow_add_r 2 (e1 + 1074 + 1) (e2 - e1 - 1)),
    (Z.pow_add_r 2 (e1 + 1074) 1) by lia.
  assert (0 < 2 ^ (e1 + 1074)) by (apply Z.pow_pos_nonneg; lia).
  assert (0 < 2 ^ (e2 - e1 - 1)) by (apply Z.pow_pos_nonneg; lia).
  change (2 ^ 53) with (2 * 2 ^ 52) in U1. change (2 ^ 1) with 2.
  generalize dependent (2 ^ 52). generalize dependent (2 ^ (e1 + 1074)).
  generalize dependent (2 ^ (e2 - e1 - 1)). intros Q HQ P HP T U1 N2.
  assert (S1 : Z.pos m1 * P < 2 * T * P)
    by (apply Z.mul_lt_mono_pos_r; assumption).
  assert (S2 : 2 * T * P <= 2 * Z.pos m2 * P)
    by (apply Z.mul_le_mono_nonneg_r; lia).
  assert (S3 : 2 * Z.pos m2 * P * 1 <= 2 * Z.pos m2 * P * Q)
    by (apply Z.mul_le_mono_nonneg_l; nia).
  replace (Z.pos m2 * (P * 2 * Q)) with (2 * Z.pos m2 * P * Q) by ring.
  lia.
Qed.

Lemma scaled_lt m1 e1 m2 e2 :
  canonical_mantissa 53 1024 m1 e1 = true ->
  canonical_mantissa 53 1024 m2 e2 = true ->
  (scaled m1 e1 < scaled m2 e2 <-> e1 < e2 \/ (e1 = e2 /\ (m1 < m2)%positive)).
Proof.
  intros C1 C2. destruct (Z.lt_trichotomy e1 e2) as [H|[H|H]].
  - pose proof (scaled_lt_below _ _ _ _ C1 C2 H). tauto.
  - subst e2. unfold scaled.
    assert (0 < 2 ^ (e1 + 1074))
      by (apply Z.pow_pos_nonneg; destruct (canonical_facts m1 e1 C1); lia).
    rewrite <- Z.mul_lt_mono_pos_r by assumption.
    lia.
  - pose proof (scaled_lt_below _ _ _ _ C2 C1 H). split; [lia|].
    intros [?|[? _]]; lia.
Qed.

(** [<] on two positive and on two negative float64. *)
Lemma SFltb_positive m1 e1 m2 e2 :
  SFltb (S754_finite false m1 e1) (S754_finite false m2 e2) = true
  <-> e1 < e2 \/ (e1 = e2 /\ (m1 < m2)%positive).
Proof.
  unfold SFltb, SFcompare.
  destruct (Z.compare_spec e1 e2) as [E|L|G].
  - change (Pos.compare_cont Eq m1 m2) with (Pos.compare m1 m2).
    destruct (Pos.compare_spec m1 m2); split; try discriminate;
      try (intros [?|[_ ?]]; lia); auto.
  - split; auto.
  - split; [discriminate|]. intros [?|[? _]]; lia.
Qed.

Lemma SFltb_negative m1 e1 m2 e2 :
  SFltb (S754_finite true m1 e1) (S754_finite true m2 e2) = true
  <-> e2 < e1 \/ (e2 = e1 /\ (m2 < m1)%positive).
Proof.
  unfold SFltb, SFcompare.
  destruct (Z.compare_spec e1 e2) as [E|L|G].
  - change (Pos.compare_cont Eq m1 m2) with (Pos.compare m1 m2).
    destruct (Pos.compare_spec m1 m2); cbn [CompOpp]; split;
      try discriminate; try (intros [?|[_ ?]]; lia); auto.
  - split; [discriminate|]. intros [?|[? _]]; lia.
  - split; auto.
Qed.

(** The check of a coordinate against a positive bound in normal form
    with the value [b]. *)
Lemma outside_spec mB eB b x :
  canonical_mantissa 53 1024 mB eB = true ->
  scaled mB eB = b * 2 ^ 1074 ->
  float64 x ->
  (outside x (S754_finite false mB eB) = false <-> within b x).
Proof.
  intros CB VB Hx. unfold outside.
  destruct x as [s|s| |s m e]; cbn [within SFopp negb].
  - destruct s; split; auto.
  - destruct s; split; try discriminate; contradiction.
  - split; auto.
  - unfold float64 in Hx. cbn [valid_binary] in Hx. unfold bounded in Hx.
    apply andb_true_iff in Hx. destruct Hx as [Cx _].
    rewrite <- VB, Z.le_ngt, (scaled_lt _ _ _ _ CB Cx).
    destruct s.
    + change (SFltb (S754_finite false mB eB) (S754_finite true m e))
        with false.
      rewrite orb_false_r, <- not_true_iff_false, SFltb_negative. reflexivity.
    + change (SFltb (S754_finite false m e) (S754_finite true mB eB))
        with false.
      rewrite orb_false_l, <- not_true_iff_false, SFltb_positive. reflexivity.
Qed.

Lemma outside_90 x : float64 x -> (outside x f64_90 = false <-> within 90 x).
Proof. intros Hx. apply outside_spec; try exact Hx; vm_compute; reflexivity. Qed.

Lemma outside_180 x :
  float64 x -> (outside x f64_180 = false <-> within 180 x).
Proof. intros Hx. apply outside_spec; try exact Hx; vm_compute; reflexivity. Qed.

(** X11: The checks of [Validate] on the coordinates, in exact arithmetic:
    a float64 passes the check of the latitude exactly when it is NaN
    or its value lies in the closed interval from -90 to 90, and the
    check of the longitude exactly when it is NaN or its value lies in
    the closed interval from -180 to 180; the infinities fail both. *)
Theorem coordinate_checks (x : spec_float) :
  float64 x ->
  (outside x f64_90 = false <-> within 90 x) /\
  (outside x f64_180 = false <-> within 180 x).
Proof.
  intros Hx. split; [apply outside_90|apply outside_180]; exact Hx.
Qed.

Lemma coordinate_checks_witness :
  (outside (S754_finite true 6825768185233408 (-46)) f64_90 = false
   <-> within 90 (S754_finite true 6825768185233408 (-46))) /\
  (outside (S754_finite true 6825768185233408 (-46)) f64_180 = false
   <-> within 180 (S754_finite true 6825768185233408 (-46))).
Proof.
  apply (coordinate_checks (S754_finite true 6825768185233408 (-46))).
  vm_compute. reflexivity.
Defined.

End Coordinates.

Section ValidateCoverage.

Import config.

Lemma streq_not_nil k : streq k [] = false <-> k <> [].
Proof. rewrite <- not_true_iff_false, streq_nil. reflexivity. Qed.

Lemma knownLogLevel_spec l : knownLogLevel l = true <-> In l known_levels.
Proof.
  unfold knownLogLevel, streq, known_levels. cbn [In].
  rewrite !orb_true_iff, !bool_decide_eq_true. intuition congruence.
Qed.

Lemma validateIPSC_spec LinkByName i :
  validateIPSC LinkByName i = None <->
  Interface i <> [] /\ LinkByName (Interface i) = true /\ IP i <> [] /\
  1 <= SubnetMask i <= 32.
Proof.
  unfold validateIPSC.
  destruct (streq (Interface i) []) eqn:E1.
  { apply streq_nil in E1. split; [discriminate|]. intros (H & _). tauto. }
  apply streq_not_nil in E1.
  destruct (LinkByName (Interface i)) eqn:E2; cbn [negb];
    [|split; [discriminate|]; intros (_ & H & _); discriminate].
  destruct (streq (IP i) []) eqn:E3.
  { apply streq_nil in E3. split; [discriminate|]. intros (_ & _ & H & _).
    tauto. }
  apply streq_not_nil in E3.
  destruct (Z.ltb_spec (SubnetMask i) 1); cbn [orb];
    [split; [discriminate|]; intros (_ & _ & _ & B); lia|].
  destruct (Z.ltb_spec 32 (SubnetMask i));
    [split; [discriminate|]; intros (_ & _ & _ & B); lia|].
  split; [intros _|reflexivity]. repeat split; try assumption; lia.
Qed.

(** The checks on the IPSC block, the key included. *)
Lemma ipsc_ok_spec LinkByName i :
  validateIPSC LinkByName i = None /\ validateAuthKey (Auth i) = None
  <-> ipsc_ok LinkByName i.
Proof.
  rewrite validateIPSC_spec, (proj2 (validateAuthKey_spec (Auth i))).
  unfold ipsc_ok. tauto.
Qed.

(** [Validate] of the first revision, check by check. *)
Lemma Validate_checks LinkByName c :
  Validate LinkByName c = None <->
  knownLogLevel (LogLevel c) = true /\
  streq (Callsign (hbrp c)) [] = false /\
  (15 <? ColorCode (hbrp c)) = false /\
  outside (Longitude (hbrp c)) f64_180 = false /\
  outside (Latitude (hbrp c)) f64_90 = false /\
  streq (MasterServer (hbrp c)) [] = false /\
  streq (Password (hbrp c)) [] = false /\
  validateIPSC LinkByName (ipsc c) = None /\
  validateAuthKey (Auth (ipsc c)) = None.
Proof.
  unfold Validate, validateBeforeAuth.
  destruct (knownLogLevel (LogLevel c)); cbn [negb];
    [|split; [discriminate|intros (? & _); discriminate]].
  destruct (streq (Callsign (hbrp c)) []);
    [split; [discriminate|intros (_ & ? & _); discriminate]|].
  destruct (15 <? ColorCode (hbrp c));
    [split; [discriminate|intros (_ & _ & ? & _); discriminate]|].
  destruct (outside (Longitude (hbrp c)) f64_180);
    [split; [discriminate|intros (_ & _ & _ & ? & _); discriminate]|].
  destruct (outside (Latitude (hbrp c)) f64_90);
    [split; [discriminate|intros (_ & _ & _ & _ & ? & _); discriminate]|].
  destruct (streq (MasterServer (hbrp c)) []);
    [split; [discriminate|intros (_ & _ & _ & _ & _ & ? & _); discriminate]|].
  destruct (streq (Password (hbrp c)) []);
    [split; [discriminate|
             intros (_ & _ & _ & _ & _ & _ & ? & _); discriminate]|].
  destruct (validateIPSC LinkByName (ipsc c));
    [split; [discriminate|
             intros (_ & _ & _ & _ & _ & _ & _ & ? & _); discriminate]|].
  tauto.
Qed.

(** X12: [Validate] of the first revision accepts a configuration exactly
    when the log level is one of the four, the callsign, the master
    server and the password are not empty, the colour code is 15 at
    most, the longitude and the latitude are NaN or within 180 and 90
    degrees, and the IPSC block has an interface of the host, an
    address, a mask of 1 to 32 bits and a key of at most forty
    hexadecimal characters that is not empty when authentication is
    enabled. *)
Theorem Validate_accepts (LinkByName : list byte -> bool)
  (c : Config) :
  float64 (Longitude (hbrp c)) -> float64 (Latitude (hbrp c)) ->
  (Validate LinkByName c = None <-> accepted LinkByName c).
Proof.
  intros Hlon Hlat. rewrite Validate_checks. unfold accepted.
  rewrite knownLogLevel_spec, !streq_not_nil, Z.ltb_ge.
  rewrite (outside_180 _ Hlon), (outside_90 _ Hlat).
  rewrite ipsc_ok_spec. reflexivity.
Qed.

End ValidateCoverage.

Lemma Validate_accepts_witness :
  config.Validate onlyLo validConfig = None <-> accepted onlyLo validConfig.
Proof.
  apply (Validate_accepts onlyLo validConfig); vm_compute; reflexivity.
Defined.

Section NetworkCoverage.

Import config.

Lemma validateRules_app a b :
  config2.validateRules (a ++ b)
  = match config2.validateRules a with
    | Some e => Some e
    | None => config2.validateRules b
    end.
Proof.
  induction a as [|r a IH]; [reflexivity|].
  cbn [app config2.validateRules]. rewrite IH.
  repeat match goal with |- context [if ?b then _ else _] => destruct b end;
    reflexivity.
Qed.

(** The four loops of [validateRewrites] are one loop over the rules
    in the order tag group, private call, type, source. *)
Lemma validateRewrites_rules h :
  config2.validateRewrites h = config2.validateRules (rules h).
Proof.
  unfold config2.validateRewrites, rules. rewrite !validateRules_app.
  destruct (config2.validateRules (config2.TGRewrites h)); [reflexivity|].
  destruct (config2.validateRules (config2.PCRewrites h)); [reflexivity|].
  destruct (config2.validateRules (config2.TypeRewrites h)); reflexivity.
Qed.

Lemma validateSlot_spec s : config2.validateSlot s = true <-> s = 1 \/ s = 2.
Proof.
  unfold config2.validateSlot. rewrite orb_true_iff, !Z.eqb_eq. reflexivity.
Qed.

Lemma rule_ok_spec r :
  rule_ok r <-> slots_ok r = true /\ (config2.Range r <? 1) = false.
Proof.
  unfold rule_ok, slots_ok.
  rewrite andb_true_iff, !validateSlot_spec, Z.ltb_ge. tauto.
Qed.

Lemma validateRules_cons r rs :
  config2.validateRules (r :: rs)
  = if negb (slots_ok r) then Some ErrInvalidRewriteSlot
    else if config2.Range r <? 1 then Some ErrInvalidRewriteRange
    else config2.validateRules rs.
Proof.
  cbn [config2.validateRules]. unfold slots_ok.
  rewrite negb_andb. reflexivity.
Qed.

Lemma validateRules_None rs :
  config2.validateRules rs = None <-> Forall rule_ok rs.
Proof.
  induction rs as [|r rs IH]; [split; [constructor|reflexivity]|].
  rewrite validateRules_cons, List.Forall_cons_iff, rule_ok_spec, <- IH.
  destruct (slots_ok r); cbn [negb];
    [|split; [discriminate|intros [[? _] _]; discriminate]].
  destruct (config2.Range r <? 1);
    [split; [discriminate|intros [[_ ?] _]; discriminate]|].
  tauto.
Qed.

(** The rule that fails first decides the error. *)
Lemma validateRules_first good r rest :
  Forall rule_ok good -> ~ rule_ok r ->
  config2.validateRules (good ++ r :: rest)
  = Some (if slots_ok r then ErrInvalidRewriteRange
          else ErrInvalidRewriteSlot).
Proof.
  intros Hg Hr. rewrite validateRules_app.
  apply validateRules_None in Hg. rewrite Hg, validateRules_cons.
  rewrite rule_ok_spec in Hr.
  destruct (slots_ok r); cbn [negb]; [|reflexivity].
  destruct (config2.Range r <? 1); [reflexivity|]. tauto.
Qed.

(** X13: [validateRewrites] passes a network exactly when every rule of the
    four lists has both slots in 1 and 2 and a range of one at least.
    Otherwise the first rule that fails, in the order tag group, private
    call, type, source, decides the error: ErrInvalidRewriteSlot if one
    of its slots is bad, whatever its range, ErrInvalidRewriteRange
    otherwise. *)
Theorem validateRewrites_first_bad_rule (h : config2.MMDVM) :
  (config2.validateRewrites h = None <-> Forall rule_ok (rules h)) /\
  (forall good r rest,
     rules h = good ++ r :: rest -> Forall rule_ok good -> ~ rule_ok r ->
     config2.validateRewrites h
     = Some (if slots_ok r then ErrInvalidRewriteRange
             else ErrInvalidRewriteSlot)).
Proof.
  rewrite validateRewrites_rules. split; [apply validateRules_None|].
  intros good r rest -> Hg Hr. apply validateRules_first; assumption.
Qed.

Lemma validateRewrites_first_bad_rule_witness :
  config2.validateRewrites ruleNetwork = Some ErrInvalidRewriteSlot.
Proof.
  apply (proj2 (validateRewrites_first_bad_rule ruleNetwork)
           goodRules slot3Rule [range0Rule]).
  - reflexivity.
  - repeat constructor; cbn; lia.
  - intros (H & _). cbn in H. lia.
Defined.

Lemma names_fresh n names (hs : list config2.MMDVM) :
  Forall (fun h => config2.Name h ∉ ({[ n ]} ∪ names : gset (list byte))) hs
  <-> (n ∉ map config2.Name hs)
      /\ Forall (fun h => config2.Name h ∉ names) hs.
Proof.
  induction hs as [|h hs IH].
  - cbn [map]. split; [intros _; split; [apply not_elem_of_nil|constructor]|].
    intros _. constructor.
  - cbn [map]. rewrite !List.Forall_cons_iff, IH, not_elem_of_cons.
    rewrite not_elem_of_union, not_elem_of_singleton. intuition congruence.
Qed.

(** The loop over the networks, check by check. *)
Lemma validateNetworks_None hs : forall names,
  Forall float64_coordinates hs ->
  (config2.validateNetworks names hs = None <->
   Forall network_ok hs /\ NoDup (map config2.Name hs) /\
   Forall (fun h => config2.Name h ∉ names) hs).
Proof.
  induction hs as [|h hs IH]; intros names Hf.
  - cbn [map config2.validateNetworks].
    split; [intros _; repeat constructor|reflexivity].
  - apply List.Forall_cons_iff in Hf. destruct Hf as [[Hlon Hlat] Hf].
    cbn [map config2.validateNetworks].
    rewrite !List.Forall_cons_iff, NoDup_cons. unfold network_ok at 1.
    rewrite <- (outside_180 _ Hlon), <- (outside_90 _ Hlat).
    rewrite <- validateRules_None, <- validateRewrites_rules.
    rewrite <- !streq_not_nil, <- (Z.ltb_ge 15).
    destruct (streq (config2.Name h) []);
      [split; [discriminate|intros [[(? & _) _] _]; discriminate]|].
    destruct (bool_decide_reflect (config2.Name h ∈ names)) as [Hin|Hin];
      [split; [discriminate|intros (_ & _ & ? & _); contradiction]|].
    destruct (streq (config2.Callsign h) []);
      [split; [discriminate|intros [[(_ & ? & _) _] _]; discriminate]|].
    destruct (15 <? config2.ColorCode h);
      [split; [discriminate|intros [[(_ & _ & ? & _) _] _]; discriminate]|].
    destruct (outside (config2.Longitude h) f64_180);
      [split; [discriminate|intros [[(_ & _ & _ & ? & _) _] _]; discriminate]|].
    destruct (outside (config2.Latitude h) f64_90);
      [split; [discriminate|
               intros [[(_ & _ & _ & _ & ? & _) _] _]; discriminate]|].
    destruct (streq (config2.MasterServer h) []);
      [split; [discriminate|
               intros [[(_ & _ & _ & _ & _ & ? & _) _] _]; discriminate]|].
    destruct (streq (config2.Password h) []);
      [split; [discriminate|
               intros [[(_ & _ & _ & _ & _ & _ & ? & _) _] _]; discriminate]|].
    destruct (config2.validateRewrites h);
      [split; [discriminate|
               intros [[(_ & _ & _ & _ & _ & _ & _ & ?) _] _]; discriminate]|].
    rewrite (IH _ Hf), names_fresh. tauto.
Qed.

(** X14: [Validate] of the second revision accepts a configuration exactly
    when the log level is one of the four, there is a network at
    least, no two networks have the same name, every network has a
    name, a callsign, a master server and a password, a colour code of
    15 at most, coordinates that are NaN or within 180 and 90 degrees
    and rewrite rules that pass, and the IPSC block passes as in the
    first revision. *)
Theorem Validate2_accepts (LinkByName : list byte -> bool)
  (c : config2.Config) :
  Forall float64_coordinates (config2.MMDVMs c) ->
  (config2.Validate LinkByName c = None <-> accepted2 LinkByName c).
Proof.
  intros Hf. unfold accepted2.
  rewrite <- knownLogLevel_spec, <- (ipsc_ok_spec LinkByName).
  unfold config2.Validate, config2.validateBeforeAuth.
  destruct (knownLogLevel (config2.LogLevel c)); cbn [negb];
    [|split; [discriminate|intros (? & _); discriminate]].
  destruct (config2.MMDVMs c) as [|h hs] eqn:E; cbn [length Nat.eqb];
    [split; [discriminate|intros (_ & ? & _); contradiction]|].
  pose proof (validateNetworks_None (h :: hs) ∅ Hf) as N.
  destruct (config2.validateNetworks ∅ (h :: hs)).
  - split; [discriminate|]. intros (_ & _ & Hd & Hok & _).
    assert (None = Some e) as X; [|discriminate X].
    symmetry. apply N. split; [exact Hok|]. split; [exact Hd|].
    apply Forall_forall. intros x _. apply not_elem_of_empty.
  - destruct (proj1 N eq_refl) as (Hok & Hd & _).
    destruct (validateIPSC LinkByName (config2.ipsc c));
      [split; [discriminate|intros (_ & _ & _ & _ & ? & _); discriminate]|].
    split.
    + intros Hk. repeat split; try assumption; discriminate.
    + intros (_ & _ & _ & _ & _ & Hk). exact Hk.
Qed.

Lemma Validate2_accepts_witness :
  config2.Validate onlyLo validConfig2 = None <-> accepted2 onlyLo validConfig2.
Proof.
  apply (Validate2_accepts onlyLo validConfig2).
  repeat constructor.
Defined.

(** No check before the key returns the error of the key. *)
Lemma validateIPSC_not_key LinkByName i :
  validateIPSC LinkByName i <> Some ErrInvalidIPSCAuthKey.
Proof.
  unfold validateIPSC.
  repeat match goal with |- context [if ?b then _ else _] => destruct b end;
    discriminate.
Qed.

Lemma validateRules_errors rs e :
  config2.validateRules rs = Some e ->
  e = ErrInvalidRewriteSlot \/ e = ErrInvalidRewriteRange.
Proof.
  induction rs as [|r rs IH]; [discriminate|]. rewrite validateRules_cons.
  destruct (slots_ok r); cbn [negb]; [|intros [= <-]; auto].
  destruct (config2.Range r <? 1); [intros [= <-]; auto|exact IH].
Qed.

Lemma validateNetworks_not_key hs : forall names,
  config2.validateNetworks names hs <> Some ErrInvalidIPSCAuthKey.
Proof.
  induction hs as [|h hs IH]; intros names; [discriminate|].
  cbn [config2.validateNetworks].
  repeat match goal with |- context [if ?b then _ else _] => destruct b end;
    try discriminate.
  destruct (config2.validateRewrites h) as [e|] eqn:E; [|apply IH].
  rewrite validateRewrites_rules in E.
  destruct (validateRules_errors _ _ E) as [-> | ->]; discriminate.
Qed.

(** X15: In both revisions [Validate] returns ErrInvalidIPSCAuthKey exactly
    when every check before the key passes and the key is empty with
    authentication enabled or is not made of at most forty hexadecimal
    characters: the error of the key never hides another one. *)
Theorem Validate_key_error (LinkByName : list byte -> bool) :
  (forall c : Config,
     Validate LinkByName c = Some ErrInvalidIPSCAuthKey <->
     validateBeforeAuth LinkByName c = None /\
     ((Enabled (Auth (ipsc c)) = true /\ Key (Auth (ipsc c)) = [])
      \/ ~ hex_key (Key (Auth (ipsc c))))) /\
  (forall c : config2.Config,
     config2.Validate LinkByName c = Some ErrInvalidIPSCAuthKey <->
     config2.validateBeforeAuth LinkByName c = None /\
     ((Enabled (Auth (config2.ipsc c)) = true
       /\ Key (Auth (config2.ipsc c)) = [])
      \/ ~ hex_key (Key (Auth (config2.ipsc c))))).
Proof.
  split; intros c.
  - unfold Validate.
    rewrite <- (proj1 (validateAuthKey_spec (Auth (ipsc c)))).
    destruct (validateBeforeAuth LinkByName c) as [e|] eqn:E; [|tauto].
    split; [|intros [? _]; discriminate].
    intros [= ->]. exfalso. revert E. unfold validateBeforeAuth.
    repeat match goal with |- context [if ?b then _ else _] => destruct b end;
      try discriminate.
    apply validateIPSC_not_key.
  - unfold config2.Validate.
    rewrite <- (proj1 (validateAuthKey_spec (Auth (config2.ipsc c)))).
    destruct (config2.validateBeforeAuth LinkByName c) as [e|] eqn:E; [|tauto].
    split; [|intros [? _]; discriminate].
    intros [= ->]. exfalso. revert E. unfold config2.validateBeforeAuth.
    repeat match goal with |- context [if ?b then _ else _] => destruct b end;
      try discriminate.
    destruct (config2.validateNetworks ∅ (config2.MMDVMs c)) eqn:N.
    + intros [= ->]. exact (validateNetworks_not_key _ _ N).
    + apply validateIPSC_not_key.
Qed.

(** X16: The second revision validates a configuration with one network as
    the first revision validates the same radio block: the same
    verdict, with the errors of the radio block under their new
    names. *)
Theorem Validate2_single_network (LinkByName : list byte -> bool)
  (name : list byte) (c : Config) :
  name <> [] ->
  config2.Validate LinkByName (asConfig2 name c)
  = option_map renamed (Validate LinkByName c).
Proof.
  intros Hn. apply streq_not_nil in Hn.
  unfold config2.Validate, config2.validateBeforeAuth, Validate,
    validateBeforeAuth, asConfig2, asNetwork.
  cbn [config2.LogLevel config2.MMDVMs config2.ipsc length Nat.eqb
       config2.validateNetworks config2.Name config2.Callsign
       config2.ColorCode config2.Longitude config2.Latitude
       config2.MasterServer config2.Password].
  rewrite Hn. rewrite bool_decide_eq_false_2 by apply not_elem_of_empty.
  destruct (knownLogLevel (LogLevel c)); cbn [negb]; [|reflexivity].
  destruct (streq (Callsign (hbrp c)) []); [reflexivity|].
  destruct (15 <? ColorCode (hbrp c)); [reflexivity|].
  destruct (outside (Longitude (hbrp c)) f64_180); [reflexivity|].
  destruct (outside (Latitude (hbrp c)) f64_90); [reflexivity|].
  destruct (streq (MasterServer (hbrp c)) []); [reflexivity|].
  destruct (streq (Password (hbrp c)) []); [reflexivity|].
  cbn [config2.validateRewrites config2.validateRules config2.TGRewrites
       config2.PCRewrites config2.TypeRewrites config2.SrcRewrites].
  unfold validateIPSC, validateAuthKey.
  repeat match goal with |- context [if ?b then _ else _] => destruct b end;
    reflexivity.
Qed.

Lemma Validate2_single_network_witness :
  config2.Validate onlyLo (asConfig2 (str "BM") validConfig)
  = option_map renamed (Validate onlyLo validConfig).
Proof.
  apply (Validate2_single_network onlyLo (str "BM") validConfig).
  discriminate.
Defined.

End NetworkCoverage.

(** ** The coordinates from the validator to RPTC *)

Section CoordinateFields.

Import Slice.

(** A text of [w - 1] bytes at least, printed at a width of [w] and
    cut to [w] bytes: the text cut to [w] bytes, or the text and one
    space. *)
Lemma cut_pad w text :
  (w - 1 <= length text)%nat ->
  sub (gofmt.pad_right w text) 0 w = take w (text ++ [gofmt.space]).
Proof.
  intros H. unfold sub, gofmt.pad_right. rewrite drop_0, Nat.sub_0_r.
  destruct (decide (w <= length text)%nat) as [Hw|Hw].
  - rewrite !take_app_le by lia. reflexivity.
  - pose proof (count_from_le text 0) as Hr.
    unfold utf8.RuneCountInString.
    destruct (w - utf8.count_from 0 text)%nat as [|k] eqn:E; [lia|].
    cbn [repeat]. replace w with (length text + 1)%nat at 1 2 by lia.
    rewrite !take_app_add'. 2,3: reflexivity.
    reflexivity.
Qed.

(** Rounding a quotient that is at most an integer stays at most that
    integer. *)
Lemma round_half_even_range n d k :
  0 <= n -> 0 < d -> n <= k * d ->
  0 <= gofmt.round_half_even n d <= k.
Proof.
  intros Hn Hd Hk. unfold gofmt.round_half_even.
  pose proof (Z.div_pos n d Hn Hd) as Hq.
  pose proof (Z.mod_pos_bound n d Hd) as Hm.
  pose proof (Z.div_mod n d ltac:(lia)) as E.
  assert (Hle : n / d <= k) by (apply Z.div_le_upper_bound; lia).
  destruct (Z.compare_spec (2 * (n mod d)) d) as [C|C|C].
  - destruct (Z.even (n / d)); [lia|]. nia.
  - lia.
  - nia.
Qed.

(** The number [float_f6] prints, in millionths. *)
Lemma millionths_range b m e :
  canonical_mantissa 53 1024 m e = true -> 0 <= b ->
  scaled m e <= b * 2 ^ 1074 ->
  0 <= (if 0 <=? e then Z.pos m * 2 ^ e * 10 ^ 6
        else gofmt.round_half_even (Z.pos m * 10 ^ 6) (2 ^ (- e)))
    <= b * 10 ^ 6.
Proof.
  intros C Hb H. destruct (canonical_facts m e C) as (He & _ & _).
  unfold scaled in H.
  assert (P : 0 < 2 ^ (e + 1074)) by (apply Z.pow_pos_nonneg; lia).
  destruct (Z.leb_spec 0 e) as [Hp|Hn].
  - rewrite (Z.pow_add_r 2 e 1074) in H by lia.
    assert (Q : 0 < 2 ^ e) by (apply Z.pow_pos_nonneg; lia).
    assert (T : 0 < 2 ^ 1074) by (apply Z.pow_pos_nonneg; lia).
    generalize dependent (2 ^ 1074). generalize dependent (2 ^ e).
    intros. nia.
  - assert (D : 0 < 2 ^ (- e)) by (apply Z.pow_pos_nonneg; lia).
    apply round_half_even_range; [lia|exact D|].
    assert (E : 2 ^ 1074 = 2 ^ (e + 1074) * 2 ^ (- e))
      by (rewrite <- Z.pow_add_r by lia; f_equal; lia).
    rewrite E in H. clear E.
    generalize dependent (2 ^ (e + 1074)). generalize dependent (2 ^ (- e)).
    intros. nia.
Qed.

(** The length of what [%f] prints for a number of at most [10^k - 1]
    degrees: a sign or none, [k] digits at most, the point and six
    decimals. *)
Lemma float_f6_length b k v :
  float64 v -> is_number v -> within b v ->
  0 <= b < 10 ^ Z.of_nat k -> (1 <= k)%nat ->
  (8 <= length (gofmt.float_f6 v) <= k + 8)%nat.
Proof.
  intros Hv Hn Hw Hb Hk. destruct v as [s| | |s m e]; try contradiction.
  - destruct s; cbn; lia.
  - unfold float64 in Hv. cbn [valid_binary] in Hv. unfold bounded in Hv.
    apply andb_true_iff in Hv. destruct Hv as [C _].
    cbn [within] in Hw.
    pose proof (millionths_range b m e C ltac:(lia) Hw) as R.
    unfold gofmt.float_f6.
    set (n := if 0 <=? e then Z.pos m * 2 ^ e * 10 ^ 6
              else gofmt.round_half_even (Z.pos m * 10 ^ 6) (2 ^ (- e))) in *.
    assert (Hi : 0 <= n / 10 ^ 6 < 10 ^ Z.of_nat k).
    { split; [apply Z.div_pos; lia|].
      apply Z.div_lt_upper_bound; [lia|].
      eapply Z.le_lt_trans; [exact (proj2 R)|]. nia. }
    pose proof (digits_length 10 _ k ltac:(lia) Hi Hk) as L1.
    destruct (digits_spec 10 (n / 10 ^ 6) ltac:(lia) (proj1 Hi))
      as (_ & _ & Hne).
    assert (L0 : (1 <= length (gofmt.digits 10 (n / 10 ^ 6)))%nat).
    { destruct (gofmt.digits 10 (n / 10 ^ 6)); [congruence|cbn; lia]. }
    assert (L2 : length (gofmt.pad_zero 6 (gofmt.digits 10 (n mod 10 ^ 6)))
                 = 6%nat).
    { apply pad_zero_length. apply digits_length; [lia| |lia].
      change (10 ^ Z.of_nat 6) with (10 ^ 6). apply Z.mod_pos_bound. lia. }
    rewrite !length_app, L2. change (length (str ".")) with 1%nat.
    destruct s; cbn [length str]; change (length (str "-")) with 1%nat;
      try change (length []) with 0%nat; lia.
Qed.

(** X17: For the coordinates [Validate] accepts, RPTC carries the first
    bytes of what [%f] prints, with six decimals: the latitude is cut
    to 8 bytes and loses two decimals at most, the longitude is cut to
    9 bytes and loses two decimals at most, or is followed by one
    space.  The decimals are cut, not rounded. *)
Theorem coordinate_fields_cut (v : spec_float) :
  float64 v -> is_number v ->
  (config.outside v config.f64_90 = false ->
   sub (gofmt.f_left 8 v) 0 8 = take 8 (gofmt.float_f6 v) /\
   (8 <= length (gofmt.float_f6 v) <= 10)%nat) /\
  (config.outside v config.f64_180 = false ->
   sub (gofmt.f_left 9 v) 0 9 = take 9 (gofmt.float_f6 v ++ [gofmt.space]) /\
   (8 <= length (gofmt.float_f6 v) <= 11)%nat).
Proof.
  intros Hv Hn. split; intros Ho.
  - apply (outside_90 v Hv) in Ho.
    pose proof (float_f6_length 90 2 v Hv Hn Ho ltac:(cbn; lia) ltac:(lia))
      as L.
    split; [|lia]. unfold gofmt.f_left. rewrite cut_pad by lia.
    apply take_app_le. lia.
  - apply (outside_180 v Hv) in Ho.
    pose proof (float_f6_length 180 3 v Hv Hn Ho ltac:(cbn; lia) ltac:(lia))
      as L.
    split; [|lia]. unfold gofmt.f_left. apply cut_pad. lia.
Qed.

Lemma coordinate_fields_cut_witness :
  (config.outside south30 config.f64_90 = false ->
   sub (gofmt.f_left 8 south30) 0 8 = take 8 (gofmt.float_f6 south30) /\
   (8 <= length (gofmt.float_f6 south30) <= 10)%nat) /\
  (config.outside south30 config.f64_180 = false ->
   sub (gofmt.f_left 9 south30) 0 9
   = take 9 (gofmt.float_f6 south30 ++ [gofmt.space]) /\
   (8 <= length (gofmt.float_f6 south30) <= 11)%nat).
Proof.
  apply (coordinate_fields_cut south30); vm_compute; [reflexivity|exact I].
Defined.

Example south30_field :
  gofmt.float_f6 south30 = str "-30.500000" /\
  sub (gofmt.f_left 8 south30) 0 8 = str "-30.5000".
Proof. vm_compute. split; reflexivity. Qed.

End CoordinateFields.

(** ** [Packet.String]: what it prints and what it leaves out *)

Section StringCoverage.

Import proto protofmt.

Example sample_String :
  String samplePacket
  = str "Packet: Seq 42, Src 123456, Dst 654321, Repeater 3001, Slot true, GroupCall true, FrameType=1, StreamId 3735928559, DMRData [0 1 2 3 4 5 6 7 8 9 10 11 12 13 14 15 16 17 18 19 20 21 22 23 24 25 26 27 28 29 30 31 32]".
Proof. vm_compute. reflexivity. Qed.

(** A decimal digit is one of the ten characters from 0 to 9. *)
Lemma digit10_range c : digit_of 10 c <-> 0x30 <= u8 c <= 0x39.
Proof.
  unfold digit_of, lower_hex, digit_value. cbv zeta.
  destruct (Z.leb_spec 0x30 (u8 c)), (Z.leb_spec (u8 c) 0x39),
    (Z.leb_spec 0x61 (u8 c)), (Z.leb_spec (u8 c) 0x66);
    cbn [andb orb]; split; intros; try lia; try (split; [reflexivity|lia]);
    try (destruct H3; try discriminate; lia).
Qed.

(** Two runs of digits, each followed by a character that is no digit,
    are equal when the texts are. *)
Lemma digits_then_other a : forall b c c' r r',
  Forall (digit_of 10) a -> Forall (digit_of 10) b ->
  ~ digit_of 10 c -> ~ digit_of 10 c' ->
  a ++ c :: r = b ++ c' :: r' -> a = b /\ c :: r = c' :: r'.
Proof.
  induction a as [|x a IH]; intros b c c' r r' Ha Hb Hc Hc' E.
  - destruct b as [|y b]; [split; [reflexivity|exact E]|].
    cbn in E. injection E as -> _. apply Forall_inv in Hb. contradiction.
  - destruct b as [|y b].
    + cbn in E. injection E as -> _. apply Forall_inv in Ha. contradiction.
    + cbn in E. injection E as -> E.
      destruct (IH b c c' r r') as [-> E']; auto.
      * apply Forall_inv_tail in Ha. exact Ha.
      * apply Forall_inv_tail in Hb. exact Hb.
Qed.

(** [%d] followed by a character that is no digit reads back. *)
Lemma d_then_other x y c c' r r' :
  0 <= x -> 0 <= y -> ~ digit_of 10 c -> ~ digit_of 10 c' ->
  d x ++ c :: r = d y ++ c' :: r' -> x = y /\ c :: r = c' :: r'.
Proof.
  intros Hx Hy Hc Hc' E. unfold d in *.
  destruct (digits_spec 10 x ltac:(lia) Hx) as (Nx & Fx & _).
  destruct (digits_spec 10 y ltac:(lia) Hy) as (Ny & Fy & _).
  destruct (digits_then_other _ _ _ _ _ _ Fx Fy Hc Hc' E) as [Ed Er].
  split; [|exact Er]. rewrite <- Nx, <- Ny, Ed. reflexivity.
Qed.

Lemma not_digit c : (u8 c <? 0x30) || (0x39 <? u8 c) = true -> ~ digit_of 10 c.
Proof.
  rewrite digit10_range, orb_true_iff, !Z.ltb_lt. lia.
Qed.

(** [%t] followed by a comma reads back. *)
Lemma t_then_comma x y r r' :
  t x ++ str ", " ++ r = t y ++ str ", " ++ r' -> x = y /\ r = r'.
Proof.
  destruct x, y; cbn; intros E; try discriminate E;
    (split; [reflexivity|]); injection E as E; exact E.
Qed.

(** The elements of [%v] up to the closing bracket read back. *)
Lemma v_from_inj a : forall b i,
  v_from i a ++ str "]" = v_from i b ++ str "]" -> a = b.
Proof.
  assert (tail_other : forall i l,
    exists c r, v_from (S i) l ++ str "]" = c :: r /\ ~ digit_of 10 c).
  { intros i [|x l].
    - exists (byte.of_Z 0x5D), []. split; [reflexivity|].
      apply not_digit. reflexivity.
    - exists gofmt.space, (gofmt.digits 10 (u8 x) ++ v_from (S (S i)) l ++ str "]").
      split; [|apply not_digit; reflexivity].
      cbn [v_from Nat.ltb Nat.leb]. rewrite <- !app_assoc. reflexivity. }
  assert (head_digit : forall x, exists c r,
    gofmt.digits 10 (u8 x) = c :: r /\ digit_of 10 c).
  { intros x.
    destruct (digits_spec 10 (u8 x) ltac:(lia) (proj1 (u8_range x)))
      as (_ & F & Hne).
    destruct (gofmt.digits 10 (u8 x)) as [|c r]; [congruence|].
    exists c, r. split; [reflexivity|]. apply Forall_inv in F. exact F. }
  induction a as [|x a IH]; intros b i E.
  - destruct b as [|y b]; [reflexivity|]. exfalso.
    cbn [v_from app] in E. destruct (head_digit y) as (c & r & Ey & Hc).
    rewrite Ey in E. destruct (0 <? i)%nat; cbn in E.
    + discriminate E.
    + injection E as <- _. apply digit10_range in Hc. cbn in Hc. lia.
  - destruct b as [|y b].
    + exfalso. cbn [v_from app] in E.
      destruct (head_digit x) as (c & r & Ex & Hc).
      rewrite Ex in E. destruct (0 <? i)%nat; cbn in E.
      * discriminate E.
      * injection E as -> _. apply digit10_range in Hc. cbn in Hc. lia.
    + cbn [v_from] in E. rewrite <- !app_assoc in E.
      apply app_inv_head in E.
      destruct (tail_other i a) as (c & r & Ea & Hc).
      destruct (tail_other i b) as (c' & r' & Eb & Hc').
      rewrite Ea, Eb in E.
      destruct (d_then_other (u8 x) (u8 y) c c' r r'
                  (proj1 (u8_range x)) (proj1 (u8_range y)) Hc Hc' E)
        as [Exy Er].
      rewrite <- Ea, <- Eb in Er. apply IH in Er.
      f_equal; [|exact Er].
      rewrite <- (of_Z_u8 x), <- (of_Z_u8 y), Exy. reflexivity.
Qed.

Lemma String_fields p q :
  unsigned_fields p -> unsigned_fields q ->
  String p = String q -> printed_fields p = printed_fields q.
Proof.
  intros (P1 & P2 & P3 & P4 & P5 & P6) (Q1 & Q2 & Q3 & Q4 & Q5 & Q6) E.
  unfold String, printed_fields in *.
  apply app_inv_head in E.
  apply d_then_other in E; [|assumption|assumption|apply not_digit; reflexivity
                            |apply not_digit; reflexivity].
  destruct E as [E1 E]. change (str ", Src " ++ ?x) with (str ", Src " ++ x) in E.
  apply (app_inv_head (str ", Src ")) in E.
  apply d_then_other in E; [|assumption|assumption|apply not_digit; reflexivity
                            |apply not_digit; reflexivity].
  destruct E as [E2 E]. apply (app_inv_head (str ", Dst ")) in E.
  apply d_then_other in E; [|assumption|assumption|apply not_digit; reflexivity
                            |apply not_digit; reflexivity].
  destruct E as [E3 E]. apply (app_inv_head (str ", Repeater ")) in E.
  apply d_then_other in E; [|assumption|assumption|apply not_digit; reflexivity
                            |apply not_digit; reflexivity].
  destruct E as [E4 E]. apply (app_inv_head (str ", Slot ")) in E.
  change (str ", GroupCall " ++ ?x) with (str ", " ++ str "GroupCall " ++ x) in E.
  apply t_then_comma in E. destruct E as [E5 E].
  apply (app_inv_head (str "GroupCall ")) in E.
  change (str ", FrameType=" ++ ?x) with (str ", " ++ str "FrameType=" ++ x) in E.
  apply t_then_comma in E. destruct E as [E6 E].
  apply (app_inv_head (str "FrameType=")) in E.
  apply d_then_other in E; [|assumption|assumption|apply not_digit; reflexivity
                            |apply not_digit; reflexivity].
  destruct E as [E7 E]. apply (app_inv_head (str ", StreamId ")) in E.
  apply d_then_other in E; [|assumption|assumption|apply not_digit; reflexivity
                            |apply not_digit; reflexivity].
  destruct E as [E8 E]. apply (app_inv_head (str ", DMRData ")) in E.
  unfold v in E. apply (app_inv_head (str "[")) in E.
  apply v_from_inj in E.
  rewrite E1, E2, E3, E4, E5, E6, E7, E8, E. reflexivity.
Qed.

(** X18: [String] prints nine of the eleven fields of a frame and prints
    them so that they read back: two frames have the same text exactly
    when they agree on the sequence number, the source, the
    destination, the repeater, the slot, the call type, the frame
    type, the stream ID and the payload.  The signature and
    DTypeOrVSeq are not printed, so frames that [Equal] tells apart may
    print the same. *)
Theorem String_prints_nine_fields (p q : Packet) :
  unsigned_fields p -> unsigned_fields q ->
  (String p = String q <-> printed_fields p = printed_fields q) /\
  (Equal p q = true -> String p = String q).
Proof.
  intros Hp Hq. split; [split|].
  - apply String_fields; assumption.
  - unfold printed_fields, String. intros [= -> -> -> -> -> -> -> -> ->].
    reflexivity.
  - intros E. apply Equal_true in E. rewrite E. reflexivity.
Qed.

Lemma String_prints_nine_fields_witness :
  (String samplePacket = String relabelled
   <-> printed_fields samplePacket = printed_fields relabelled) /\
  (Equal samplePacket relabelled = true
   -> String samplePacket = String relabelled).
Proof.
  apply (String_prints_nine_fields samplePacket relabelled);
    unfold unsigned_fields; cbn; lia.
Defined.

Example relabelled_same_text :
  Equal samplePacket relabelled = false /\
  String samplePacket = String relabelled.
Proof. vm_compute. split; reflexivity. Qed.

End StringCoverage.
